(** * Console driver (console.c): a shallow embedding and its properties

    The development follows the layout of [console.c]:
    - machine integers and block operations on arrays ([memmove], [memset]);
    - the formatted output engine ([printint], [cprintf]) and [panic];
    - the CGA screen driver ([cgaputc]);
    - the output multiplexer ([consputc]);
    - the input line editor ([consoleintr]) and the reader ([consoleread]).

    The first part is the code, the second the vocabulary of its
    properties, the third the properties with their proofs.

    C [int] and [uint] values are integers of [Z]; the wrap-around of the
    32-bit unsigned cursors is written out with [u32].  Code that never
    returns ([panic], the halt loop of [consputc]) and behaviour that C
    leaves undefined are results of their own, see [outcome].  The console
    lock is not modelled: every function below is the sequential body that
    runs under it. *)

From Stdlib Require Import String.
From Stdlib Require Import ZArith List Bool Lia.
Import ListNotations.
Local Open Scope Z_scope.

(** ** Machine integers *)

Definition u32 (x : Z) : Z := x mod 2 ^ 32.

(** [uint] to [int], two's complement. *)
Definition s32 (x : Z) : Z :=
  let y := u32 x in if y <? 2 ^ 31 then y else y - 2 ^ 32.

(** A value stored in a [char] cell and read back as [int] (char is signed
    on the x86 target of this kernel). *)
Definition to_char (c : Z) : Z := (c + 128) mod 256 - 128.

(** The [uchar] data argument of [outb]. *)
Definition u8 (x : Z) : Z := Z.land x 255.

(** ** Results of code that may not return *)

(** [Panic msg]: the code called [panic(msg)], which does not return to it
    (what [panic] prints on its way to its own [for(;;)] is not followed).
    [Halt]: the [for(;;)] of [consputc] once [panicked] is set.
    [Undefined]: an access outside an array or a division by zero. *)
Inductive stop : Type :=
| Panic (msg : String.string)
| Halt
| Undefined.

Inductive outcome (A : Type) : Type :=
| Done (a : A)
| Stop (s : stop).
Arguments Done {A} a.
Arguments Stop {A} s.

Definition bind {A B} (m : outcome A) (k : A -> outcome B) : outcome B :=
  match m with
  | Done a => k a
  | Stop s => Stop s
  end.

Notation "x <- m ;; k" := (bind m (fun x => k))
  (at level 61, m at next level, right associativity).
Notation "' pat <- m ;; k" := (bind m (fun pat => k))
  (at level 61, pat pattern, m at next level, right associativity).

Definition of_option {A} (o : option A) : outcome A :=
  match o with
  | Some a => Done a
  | None => Stop Undefined
  end.

(** ** Arrays and block operations *)

Section Cells.
Context {A : Type}.

Definition in_range (m : list A) (off n : Z) : bool :=
  (0 <=? off) && (0 <=? n) && (off + n <=? Z.of_nat (length m)).

(** [memmove(m + dst, m + src, n)] with [n] counted in cells: the source
    block is read before anything is written, so the blocks may overlap. *)
Definition memmove (m : list A) (dst src n : Z) : option (list A) :=
  if in_range m src n && in_range m dst n then
    Some (firstn (Z.to_nat dst) m
          ++ firstn (Z.to_nat n) (skipn (Z.to_nat src) m)
          ++ skipn (Z.to_nat (dst + n)) m)
  else None.

(** [memset(m + dst, v, n)] with [n] counted in cells. *)
Definition memset (m : list A) (dst : Z) (v : A) (n : Z) : option (list A) :=
  if in_range m dst n then
    Some (firstn (Z.to_nat dst) m
          ++ repeat v (Z.to_nat n)
          ++ skipn (Z.to_nat (dst + n)) m)
  else None.

(** [m[i] = v]. *)
Definition store (m : list A) (i : Z) (v : A) : option (list A) :=
  if in_range m i 1 then
    Some (firstn (Z.to_nat i) m ++ v :: skipn (Z.to_nat (i + 1)) m)
  else None.

End Cells.

(** [m[i]] of an array of integers. *)
Definition load (m : list Z) (i : Z) : Z := nth (Z.to_nat i) m 0.

(** ** The state of the driver *)

Definition BACKSPACE : Z := 0x100.
Definition LEFT : Z := 228.
Definition RIGHT : Z := 229.
Definition UP : Z := 226.
Definition DOWN : Z := 227.
Definition BUFF_SIZE : Z := 80.
Definition INPUT_BUF : Z := 128.

(** [C(x)] is [x - '@']: Control-x. *)
Definition C (x : Z) : Z := x - 64.
Definition ctrl_P : Z := C 80.
Definition ctrl_U : Z := C 85.
Definition ctrl_H : Z := C 72.
Definition ctrl_D : Z := C 68.

(** The [input] structure: a buffer of [INPUT_BUF] chars and four [uint]
    indices. *)
Module Input.
Record t : Type := mk {
  buf : list Z;
  r : Z;    (* Read index *)
  w : Z;    (* Write index *)
  e : Z;    (* Edit index *)
  max : Z   (* Maximum index *)
}.
End Input.

(** Everything the driver reads or writes: the [panicked] flag, the bytes
    handed to [uartputc] so far (oldest first), registers 14 and 15 of the
    CRT controller (cursor position, high and low byte), the CGA memory
    [crt] (one [ushort] per cell) and [input]. *)
Record console : Type := mkConsole {
  panicked : bool;
  uart : list Z;
  crt_hi : Z;
  crt_lo : Z;
  crt : list Z;
  input : Input.t
}.

Definition set_input (st : console) (i : Input.t) : console :=
  mkConsole (panicked st) (uart st) (crt_hi st) (crt_lo st) (crt st) i.

Definition set_screen (st : console) (hi lo : Z) (m : list Z) : console :=
  mkConsole (panicked st) (uart st) hi lo m (input st).

Definition uartputc (st : console) (c : Z) : console :=
  mkConsole (panicked st) (uart st ++ [c]) (crt_hi st) (crt_lo st) (crt st)
            (input st).

(** ** cgaputc *)

(** [sizeof(crt[0]) * k] is computed in [uint]; the cells it covers. *)
Definition crt_cells (k : Z) : Z := u32 (2 * u32 k) / 2.

(** Cursor position: [inb(CRTPORT+1) << 8 | inb(CRTPORT+1)]. *)
Definition cga_getpos (st : console) : Z :=
  Z.lor (Z.shiftl (crt_hi st) 8) (crt_lo st).

(** The branch on [c]: the new [pos] and the new contents of [crt]. *)
Definition cga_edit (c pos : Z) (m : list Z) : outcome (Z * list Z) :=
  if c =? 10 then
    Done (pos + (BUFF_SIZE - Z.rem pos BUFF_SIZE), m)
  else if c =? BACKSPACE then
    if pos >? 0 then
      let pos := pos - 1 in
      m1 <- of_option (memmove m pos (pos + 1) (crt_cells (24 * BUFF_SIZE - pos))) ;;
      Done (pos, m1)
    else Done (pos, m)
  else if c =? LEFT then
    if pos >? 0 then Done (pos - 1, m) else Done (pos, m)
  else if c =? RIGHT then
    Done (pos + 1, m)
  else if (c =? UP) || (c =? DOWN) then
    Done (pos, m)
  else
    m1 <- of_option (memmove m (pos + 1) pos (crt_cells (24 * BUFF_SIZE - pos))) ;;
    m2 <- of_option (store m1 pos (Z.lor (Z.land c 0xff) 0x0700)) ;;
    Done (pos + 1, m2).

(** The test of the scroll: [(pos/BUFF_SIZE) >= 24]. *)
Definition cga_scrolls (pos : Z) : bool := Z.quot pos BUFF_SIZE >=? 24.

Definition cga_scroll (pos : Z) (m : list Z) : outcome (Z * list Z) :=
  if cga_scrolls pos then
    m1 <- of_option (memmove m 0 BUFF_SIZE (crt_cells (23 * BUFF_SIZE))) ;;
    let pos := pos - BUFF_SIZE in
    m2 <- of_option (memset m1 pos 0 (crt_cells (24 * BUFF_SIZE - pos))) ;;
    Done (pos, m2)
  else Done (pos, m).

Definition cgaputc (st : console) (c : Z) : outcome console :=
  let pos := cga_getpos st in
  '(pos, m) <- cga_edit c pos (crt st) ;;
  if (pos <? 0) || (pos >? 25 * BUFF_SIZE) then
    Stop (Panic "pos under/overflow"%string)
  else
    '(pos, m) <- cga_scroll pos m ;;
    Done (set_screen st (u8 (Z.shiftr pos 8)) (u8 pos) m).

(** ** consputc *)

Definition consputc (st : console) (c : Z) : outcome console :=
  if panicked st then Stop Halt
  else
    let st :=
      if c =? BACKSPACE then
        uartputc (uartputc (uartputc st 8) 32) 8
      else if negb (c =? UP) && negb (c =? DOWN)
              && negb (c =? LEFT) && negb (c =? RIGHT) then
        uartputc st c
      else st in
    cgaputc st c.

(** [consputc] on each code of a list, in order. *)
Fixpoint consputs (st : console) (cs : list Z) : outcome console :=
  match cs with
  | [] => Done st
  | c :: cs => st <- consputc st c ;; consputs st cs
  end.

(** ** printint *)

(** [static char digits[] = "0123456789abcdef"], with its terminator. *)
Definition digits : list Z :=
  [48; 49; 50; 51; 52; 53; 54; 55; 56; 57; 97; 98; 99; 100; 101; 102; 0].

(** The [do ... while] that fills [buf], least significant digit first.
    [room] is what is left of [char buf[16]]. *)
Fixpoint printint_digits (room : nat) (x base : Z) : option (list Z) :=
  match room with
  | O => None
  | S room =>
      match nth_error digits (Z.to_nat (x mod base)) with
      | None => None
      | Some d =>
          if x / base =? 0 then Some [d]
          else option_map (cons d) (printint_digits room (x / base) base)
      end
  end.

(** The contents of [buf] when the last loop starts. [xx] is the [int]
    argument, [base] is converted to [uint] by the arithmetic on [x]. *)
Definition printint_buf (xx base sign : Z) : option (list Z) :=
  let neg := negb (sign =? 0) && (xx <? 0) in
  let x := if neg then u32 (- xx) else u32 xx in
  if u32 base =? 0 then None
  else
    match printint_digits 16 x (u32 base) with
    | None => None
    | Some ds =>
        if neg then
          if Z.of_nat (length ds) <? 16 then Some (ds ++ [45]) else None
        else Some ds
    end.

Definition printint (st : console) (xx base sign : Z) : outcome console :=
  b <- of_option (printint_buf xx base sign) ;;
  consputs st (rev b).

(** ** cprintf *)

(** The chars of a C string: those before the first NUL. *)
Fixpoint c_str (s : list Z) : list Z :=
  match s with
  | [] => []
  | c :: s => if c =? 0 then [] else c :: c_str s
  end.

Section Cprintf.

(** The words on the stack above [fmt] (the variadic arguments, read by
    [*argp++]) and the chars found at an address (for [%s]). *)
Variable args : nat -> Z.
Variable str_at : Z -> list Z.

Definition null_str : list Z := [40; 110; 117; 108; 108; 41].  (* "(null)" *)

(** The [for] loop, on the part of [fmt] from [fmt[i]] on; the end of the
    list is the terminating NUL. [argp] counts the words already read. *)
Fixpoint cprintf_loop (st : console) (fmt : list Z) (argp : nat)
  : outcome console :=
  match fmt with
  | [] => Done st
  | ch :: fmt1 =>
      let c := Z.land ch 0xff in
      if c =? 0 then Done st
      else if negb (c =? 37) then
        st <- consputc st c ;; cprintf_loop st fmt1 argp
      else
        match fmt1 with
        | [] => Done st
        | ch :: fmt2 =>
            let c := Z.land ch 0xff in
            if c =? 0 then Done st
            else if c =? 100 then                              (* 'd' *)
              st <- printint st (s32 (args argp)) 10 1 ;;
              cprintf_loop st fmt2 (S argp)
            else if (c =? 120) || (c =? 112) then              (* 'x', 'p' *)
              st <- printint st (s32 (args argp)) 16 0 ;;
              cprintf_loop st fmt2 (S argp)
            else if c =? 115 then                              (* 's' *)
              let s := if args argp =? 0 then null_str
                       else c_str (str_at (args argp)) in
              st <- consputs st s ;;
              cprintf_loop st fmt2 (S argp)
            else if c =? 37 then                               (* '%' *)
              st <- consputc st 37 ;;
              cprintf_loop st fmt2 argp
            else
              (* Print unknown % sequence to draw attention. *)
              st <- consputc st 37 ;;
              st <- consputc st c ;;
              cprintf_loop st fmt2 argp
        end
  end.

(** [fmt] is [None] for the null pointer. *)
Definition cprintf (st : console) (fmt : option (list Z)) : outcome console :=
  match fmt with
  | None => Stop (Panic "null fmt"%string)
  | Some fmt => cprintf_loop st fmt 0
  end.

End Cprintf.

(** ** panic *)

(** The chars of a string literal of the source. *)
Definition chars (s : string) : list Z :=
  map (fun a => Z.of_nat (Ascii.nat_of_ascii a)) (list_ascii_of_string s).

(** The words a call of [cprintf] finds above [fmt]: the arguments it was
    given, then whatever the stack holds ([junk]). *)
Definition args_of (given : list Z) (junk : nat -> Z) : nat -> Z :=
  fun k => nth k given (junk (k - length given)%nat).

Section Panic.

(** What [lapicid()] returns, what [getcallerpcs] writes to [pcs[i]], the
    stack above the calls of [cprintf], and the chars at an address. *)
Variable lapicid : Z.
Variable pcs : nat -> Z.
Variable junk : nat -> Z.
Variable str_at : Z -> list Z.

(** [for(i=0; i<10; i++) cprintf(" %p", pcs[i])], for the [i] of a list. *)
Fixpoint panic_pcs (st : console) (idx : list nat) : outcome console :=
  match idx with
  | [] => Done st
  | i :: idx =>
      st <- cprintf (args_of [pcs i] junk) str_at st (Some (chars " %p")) ;;
      panic_pcs st idx
  end.

(** [panic(s)] up to its [for(;;)]: the result is the state in which the
    processor then spins ([cli] and the write to [cons.locking] touch
    nothing of this state). The message [s] is used as the format of a
    [cprintf] without arguments. *)
Definition panic (st : console) (s : option (list Z)) : outcome console :=
  st <- cprintf (args_of [lapicid] junk) str_at st
                (Some (chars "lapicid %d: panic: ")) ;;
  st <- cprintf junk str_at st s ;;
  st <- cprintf junk str_at st (Some [10]) ;;          (* "\n" *)
  st <- panic_pcs st (seq 0 10) ;;
  Done (mkConsole true (uart st) (crt_hi st) (crt_lo st) (crt st) (input st)).

End Panic.

(** ** consoleintr *)

(** The test of the kill-line loop:
    [input.max != input.w && input.buf[(input.max-1) % INPUT_BUF] != '\n']. *)
Definition kill_cond (i : Input.t) : bool :=
  negb (Input.max i =? Input.w i)
  && negb (load (Input.buf i) (u32 (Input.max i - 1) mod INPUT_BUF) =? 10).

(** The kill-line loop. Every turn takes one from [input.max] and the loop
    ends at the latest when it meets [input.w], that is after
    [u32 (max - w)] turns: the caller gives that many (see
    [kill_line_ends]). *)
Fixpoint kill_line (turns : nat) (st : console) : outcome console :=
  let i := input st in
  if kill_cond i then
    match turns with
    | O => Done st
    | S turns =>
        let i := Input.mk (Input.buf i) (Input.r i) (Input.w i)
                          (u32 (Input.e i - 1)) (u32 (Input.max i - 1)) in
        st <- consputc (set_input st i) BACKSPACE ;;
        kill_line turns st
    end
  else Done st.

(** The [default:] case, entered with [c != 0 && input.max < INPUT_BUF]. *)
Definition input_char (st : console) (c : Z) : outcome console :=
  let i := input st in
  let c := if c =? 13 then 10 else c in
  st <-
    (if negb (c =? 10) then
       b <- of_option (memmove (Input.buf i) (Input.e i + 1) (Input.e i)
                               (u32 (Input.max i - Input.e i))) ;;
       b <- of_option (store b (Input.e i mod INPUT_BUF) (to_char c)) ;;
       consputc (set_input st (Input.mk b (Input.r i) (Input.w i)
                                        (u32 (Input.e i + 1))
                                        (u32 (Input.max i + 1)))) c
     else
       b <- of_option (store (Input.buf i) (Input.max i mod INPUT_BUF)
                             (to_char c)) ;;
       consputc (set_input st (Input.mk b (Input.r i) (Input.w i) (Input.e i)
                                        (u32 (Input.max i + 1)))) c) ;;
  let i := input st in
  if (c =? 10) || (c =? ctrl_D)
     || (Input.max i =? u32 (Input.r i + INPUT_BUF)) then
    (* wakeup(&input.r) *)
    Done (set_input st (Input.mk (Input.buf i) (Input.r i)
                                 (Input.max i) (Input.max i) (Input.max i)))
  else Done st.

(** The [switch] on one code [c >= 0]. [C('P')] only sets [doprocdump],
    which [consoleintr] keeps. *)
Definition consoleintr_case (st : console) (c : Z) : outcome console :=
  let i := input st in
  if c =? ctrl_P then Done st
  else if c =? ctrl_U then
    kill_line (Z.to_nat (u32 (Input.max i - Input.w i))) st
  else if (c =? ctrl_H) || (c =? 0x7f) then
    if negb (Input.e i =? Input.w i) then
      let max := u32 (Input.max i - 1) in
      let e := u32 (Input.e i - 1) in
      b <- of_option (memmove (Input.buf i) e (e + 1) (u32 (max - e))) ;;
      consputc (set_input st (Input.mk b (Input.r i) (Input.w i) e max))
               BACKSPACE
    else Done st
  else if c =? UP then consputc st c
  else if c =? DOWN then consputc st c
  else if c =? LEFT then
    if negb (Input.e i =? Input.w i) then
      consputc (set_input st (Input.mk (Input.buf i) (Input.r i) (Input.w i)
                                       (u32 (Input.e i - 1)) (Input.max i))) c
    else Done st
  else if c =? RIGHT then
    if Input.e i <? Input.max i then
      consputc (set_input st (Input.mk (Input.buf i) (Input.r i) (Input.w i)
                                       (u32 (Input.e i + 1)) (Input.max i))) c
    else Done st
  else
    if negb (c =? 0) && (Input.max i <? INPUT_BUF) then input_char st c
    else Done st.

(** [consoleintr(getc)]: [codes] are the values [getc] returns, in order;
    the first negative one, or the end of the list, ends the loop. The
    boolean is [doprocdump]: [procdump] is called when it is set. *)
Fixpoint consoleintr_loop (st : console) (codes : list Z) (doprocdump : bool)
  : outcome (console * bool) :=
  match codes with
  | [] => Done (st, doprocdump)
  | c :: codes =>
      if c >=? 0 then
        st <- consoleintr_case st c ;;
        consoleintr_loop st codes (doprocdump || (c =? ctrl_P))
      else Done (st, doprocdump)
  end.

Definition consoleintr (st : console) (codes : list Z)
  : outcome (console * bool) :=
  consoleintr_loop st codes false.

(** ** consoleread *)

(** What a call of [consoleread] comes to: it returns [ret] with the chars
    it wrote to [dst], or it sleeps on [&input.r], with its locals [target]
    and [n] and what it has written to [dst], until [consoleintr] wakes
    it. *)
Inductive read_result : Type :=
| Returns (ret : Z) (dst : list Z) (i : Input.t)
| Sleeps (target : Z) (n : nat) (dst : list Z) (i : Input.t).

(** The [while(n > 0)] loop; [n] counts down to 0, [dst] collects the chars
    of [*dst++ = c], [killed] is [myproc()->killed]. *)
Fixpoint consoleread_loop (killed : bool) (target : Z) (n : nat)
    (dst : list Z) (i : Input.t) : read_result :=
  match n with
  | O => Returns (s32 (target - Z.of_nat n)) dst i
  | S n1 =>
      if Input.r i =? Input.w i then
        if killed then Returns (-1) dst i else Sleeps target n dst i
      else
        let c := load (Input.buf i) (Input.r i mod INPUT_BUF) in
        let i := Input.mk (Input.buf i) (u32 (Input.r i + 1)) (Input.w i)
                          (Input.e i) (Input.max i) in
        if c =? ctrl_D then
          (* EOF *)
          let i := if Z.of_nat n <? target then
                     (* Save ^D for next time, to make sure
                        caller gets a 0-byte result. *)
                     Input.mk (Input.buf i) (u32 (Input.r i - 1)) (Input.w i)
                              (Input.e i) (Input.max i)
                   else i in
          Returns (s32 (target - Z.of_nat n)) dst i
        else
          let dst := dst ++ [c] in
          if c =? 10 then Returns (s32 (target - Z.of_nat n1)) dst i
          else consoleread_loop killed target n1 dst i
  end.

(** [consoleread(ip, dst, n)]; nothing is read when [n <= 0]. *)
Definition consoleread (killed : bool) (i : Input.t) (n : Z) : read_result :=
  let target := u32 n in
  if n >? 0 then consoleread_loop killed target (Z.to_nat n) [] i
  else Returns (s32 (target - n)) [] i.

(** A sleeping reader is woken: [sleep] returns and the loop goes on with
    [input] as it is by then. A call that returned stays as it is. *)
Definition consoleread_wakeup (killed : bool) (res : read_result)
    (i : Input.t) : read_result :=
  match res with
  | Returns _ _ _ => res
  | Sleeps target n dst _ => consoleread_loop killed target n dst i
  end.

(** ** consolewrite *)

Definition consolewrite (st : console) (buf : list Z) : outcome (console * Z) :=
  st <- consputs st (map (fun c => Z.land c 0xff) buf) ;;
  Done (st, Z.of_nat (length buf)).

(** ** The state at boot *)

Definition input0 : Input.t := Input.mk (repeat 0 128) 0 0 0 0.

(** Nothing sent yet, cursor at offset 0 of an empty 80x25 grid. *)
Definition console0 : console :=
  mkConsole false [] 0 0 (repeat 0 2000) input0.

(** * The vocabulary of the properties *)

(** ** Screen *)

(** The screen as the driver leaves it: the 80x25 grid and a cursor in rows
    0..23. *)
Definition screen_ok (st : console) : Prop :=
  length (crt st) = 2000%nat /\ 0 <= cga_getpos st < 1920.

(** Whether a call of [cgaputc] takes the scroll branch: it got past the
    check of [pos] and [(pos/BUFF_SIZE) >= 24] holds. *)
Definition cgaputc_scrolls (st : console) (c : Z) : bool :=
  match cga_edit c (cga_getpos st) (crt st) with
  | Done (pos, _) =>
      negb ((pos <? 0) || (pos >? 25 * BUFF_SIZE)) && cga_scrolls pos
  | Stop _ => false
  end.

(** [cgaputc] on each code of a list, and the scrolls on the way. *)
Fixpoint cga_puts (st : console) (cs : list Z) : outcome console :=
  match cs with
  | [] => Done st
  | c :: cs => st <- cgaputc st c ;; cga_puts st cs
  end.

Fixpoint count_scrolls (st : console) (cs : list Z) : nat :=
  match cs with
  | [] => 0
  | c :: cs =>
      ((if cgaputc_scrolls st c then 1 else 0)
       + match cgaputc st c with
         | Done st => count_scrolls st cs
         | Stop _ => 0
         end)%nat
  end.

(** Row [k] of the grid. *)
Definition row (k : Z) (m : list Z) : list Z :=
  firstn (Z.to_nat BUFF_SIZE) (skipn (Z.to_nat (BUFF_SIZE * k)) m).

(** What a newline that scrolls does, from [st] to [st']: the position it
    computes is the start of row 24, the call returns through the scroll
    branch with the cursor one row's width lower, rows 1..23 have moved up
    to rows 0..22, row 23 is blank and row 24 is as it was. *)
Definition newline_scrolls (st st' : console) : Prop :=
  cga_edit 10 (cga_getpos st) (crt st) = Done (24 * BUFF_SIZE, crt st)
  /\ cgaputc st 10 = Done st' /\ cgaputc_scrolls st 10 = true
  /\ cga_getpos st' = 24 * BUFF_SIZE - BUFF_SIZE
  /\ (forall k, 0 <= k < 23 -> row k (crt st') = row (k + 1) (crt st))
  /\ row 23 (crt st') = repeat 0 (Z.to_nat BUFF_SIZE)
  /\ row 24 (crt st') = row 24 (crt st).

(** A grid whose cells hold the number of their row, and a console with
    that grid and the cursor at offset 0. *)
Definition numbered_rows : list Z :=
  map (fun j => Z.of_nat j / BUFF_SIZE) (seq 0 2000).

Definition numbered_screen : console :=
  mkConsole false [] 0 0 numbered_rows input0.

(** A code that [cgaputc] puts on the screen: not the newline, not
    [BACKSPACE], not an arrow code. *)
Definition printable (c : Z) : Prop :=
  c <> 10 /\ c <> BACKSPACE /\ c <> LEFT /\ c <> RIGHT /\ c <> UP /\ c <> DOWN.

(** ** Format *)

(** A byte of the format that is neither the terminator nor ['%']. *)
Definition plain (ch : Z) : Prop :=
  Z.land ch 0xff <> 0 /\ Z.land ch 0xff <> 37.

(** The character after ['%'] is one of [d], [x], [p], [s]: the directive
    reads an argument. *)
Definition reads_arg (ch : Z) : Prop :=
  Z.land ch 0xff = 100 \/ Z.land ch 0xff = 120
  \/ Z.land ch 0xff = 112 \/ Z.land ch 0xff = 115.

(** The character after ['%'] is none of [d], [x], [p], [s], ['%'], nor the
    terminator. *)
Definition unknown (ch : Z) : Prop :=
  Z.land ch 0xff <> 0 /\ Z.land ch 0xff <> 100 /\ Z.land ch 0xff <> 120
  /\ Z.land ch 0xff <> 112 /\ Z.land ch 0xff <> 115
  /\ Z.land ch 0xff <> 37.

(** [items pre k]: [pre] is made of whole turns of the loop of [cprintf]
    (a plain byte, or ['%'] and the character of its directive) that read
    [k] arguments in all. The scan of [pre ++ rest] is at the first byte of
    [rest] after those turns. *)
Inductive items : list Z -> nat -> Prop :=
| items_nil : items [] 0
| items_plain ch pre k :
    plain ch -> items pre k -> items (ch :: pre) k
| items_arg ch pre k :
    reads_arg ch -> items pre k -> items (37 :: ch :: pre) (S k)
| items_percent ch pre k :
    Z.land ch 0xff = 37 -> items pre k -> items (37 :: ch :: pre) k
| items_unknown ch pre k :
    unknown ch -> items pre k -> items (37 :: ch :: pre) k.

(** ** Input buffer *)

(** A console on which the editor can echo: not panicked, with a screen as
    [cgaputc] leaves it. *)
Definition echo_ok (st : console) : Prop :=
  panicked st = false /\ screen_ok st.

(** The order of the four indices that the description of [input] asks
    for. *)
Definition input_inv (i : Input.t) : Prop :=
  Input.r i <= Input.w i /\ Input.w i <= Input.e i
  /\ Input.e i <= Input.max i /\ Input.max i <= Input.r i + INPUT_BUF.

(** What the code keeps as long as no line is killed with the edit index
    inside the line: the indices are ordered and, by the test
    [input.max < INPUT_BUF] of the [default:] case, none passes
    [INPUT_BUF]. *)
Definition input_wf (i : Input.t) : Prop :=
  length (Input.buf i) = 128%nat
  /\ 0 <= Input.r i /\ Input.r i <= Input.w i /\ Input.w i <= Input.e i
  /\ Input.e i <= Input.max i /\ Input.max i <= INPUT_BUF.

(** ["hi"] and the EOF code, typed and released. *)
Definition hi_eof : Input.t :=
  Input.mk ([104; 105; 4] ++ repeat 0 125) 0 3 3 3.

(** ["hi"] and a newline, typed and released. *)
Definition hi_nl : Input.t :=
  Input.mk ([104; 105; 10] ++ repeat 0 125) 0 3 3 3.

(** [input] with the read index at [r']. *)
Definition set_r (i : Input.t) (r' : Z) : Input.t :=
  Input.mk (Input.buf i) r' (Input.w i) (Input.e i) (Input.max i).

(** The [k] chars a reader finds from [input.r] on. *)
Definition pending (i : Input.t) (k : nat) : list Z :=
  map (fun j => load (Input.buf i) ((Input.r i + Z.of_nat j) mod INPUT_BUF))
      (seq 0 k).

(** The number of chars at the head of [l] that come before the first EOF
    code or newline. *)
Fixpoint ordinary_prefix (l : list Z) : nat :=
  match l with
  | [] => 0
  | c :: l =>
      if (c =? ctrl_D) || (c =? 10) then 0%nat else S (ordinary_prefix l)
  end.

(** A code that the [default:] case puts at the edit index: not 0, not one
    of the codes of the other cases, not newline or carriage return. *)
Definition typed (c : Z) : Prop :=
  c <> 0 /\ c <> ctrl_P /\ c <> ctrl_U /\ c <> ctrl_H /\ c <> 0x7f
  /\ c <> UP /\ c <> DOWN /\ c <> LEFT /\ c <> RIGHT
  /\ c <> 10 /\ c <> 13.

(** ** Numbers as [printint] writes them *)

(** The value of a char of [digits]. *)
Definition digit_value (d : Z) : Z :=
  if d <=? 57 then d - 48 else d - 87.

(** A char of [digits] that is a digit of [base]. *)
Definition is_digit (base d : Z) : Prop :=
  (48 <= d <= 57 \/ 97 <= d <= 102) /\ 0 <= digit_value d < base.

(** The number that digits stand for, least significant digit first, as
    they are in [buf]. *)
Fixpoint decode (base : Z) (ds : list Z) : Z :=
  match ds with
  | [] => 0
  | d :: ds => digit_value d + base * decode base ds
  end.

(** The chars [printint] prints, in the order it prints them. *)
Definition number_text (xx base sign : Z) : list Z :=
  match printint_buf xx base sign with
  | Some b => rev b
  | None => []
  end.

(** The text of a call of [cprintf]: what it prints for the format from
    [fmt[i]] on, with [argp] arguments read before. *)
Fixpoint cprintf_text (args : nat -> Z) (str_at : Z -> list Z)
    (fmt : list Z) (argp : nat) : list Z :=
  match fmt with
  | [] => []
  | ch :: fmt1 =>
      let c := Z.land ch 0xff in
      if c =? 0 then []
      else if negb (c =? 37) then c :: cprintf_text args str_at fmt1 argp
      else
        match fmt1 with
        | [] => []
        | ch :: fmt2 =>
            let c := Z.land ch 0xff in
            if c =? 0 then []
            else if c =? 100 then
              number_text (s32 (args argp)) 10 1
              ++ cprintf_text args str_at fmt2 (S argp)
            else if (c =? 120) || (c =? 112) then
              number_text (s32 (args argp)) 16 0
              ++ cprintf_text args str_at fmt2 (S argp)
            else if c =? 115 then
              (if args argp =? 0 then null_str
               else c_str (str_at (args argp)))
              ++ cprintf_text args str_at fmt2 (S argp)
            else if c =? 37 then
              37 :: cprintf_text args str_at fmt2 argp
            else
              37 :: c :: cprintf_text args str_at fmt2 argp
        end
  end.

(** The text of the return addresses [pcs[i]] that [panic] prints. *)
Definition pcs_text (pcs : nat -> Z) (idx : list nat) : list Z :=
  flat_map (fun i => 32 :: number_text (s32 (pcs i)) 16 0) idx.

(** What [consputc c] sends to the serial port. *)
Definition serial_of (c : Z) : list Z :=
  if c =? BACKSPACE then [8; 32; 8]
  else if (c =? UP) || (c =? DOWN) || (c =? LEFT) || (c =? RIGHT) then []
  else [c].

(** * Properties *)

(** ** Machine integers, results, block operations *)

Lemma u32_range x : 0 <= u32 x < 2 ^ 32.
Proof. unfold u32. apply Z.mod_pos_bound. reflexivity. Qed.

Lemma u32_small x : 0 <= x < 2 ^ 32 -> u32 x = x.
Proof. intros H. unfold u32. now apply Z.mod_small. Qed.

Lemma u8_mod x : u8 x = x mod 256.
Proof. unfold u8. change 255 with (Z.ones 8). now rewrite Z.land_ones. Qed.

Lemma bind_assoc {A B D} (m : outcome A) (k : A -> outcome B)
    (h : B -> outcome D) :
  bind (bind m k) h = bind m (fun a => bind (k a) h).
Proof. destruct m; reflexivity. Qed.

Lemma bind_ext {A B} (m : outcome A) (k k' : A -> outcome B) :
  (forall a, k a = k' a) -> bind m k = bind m k'.
Proof. intros H. destruct m; cbn [bind]; [apply H|reflexivity]. Qed.

Lemma bind_inv {A B} (m : outcome A) (k : A -> outcome B) b :
  bind m k = Done b -> exists a, m = Done a /\ k a = Done b.
Proof. destruct m as [a|s]; simpl; intros H; [eauto | discriminate]. Qed.

Lemma of_option_inv {A} (o : option A) a : of_option o = Done a -> o = Some a.
Proof. destruct o; simpl; congruence. Qed.

Section CellFacts.
Context {A : Type}.
Implicit Types m : list A.

Lemma in_range_spec m off n :
  in_range m off n = true
  <-> 0 <= off /\ 0 <= n /\ off + n <= Z.of_nat (length m).
Proof. unfold in_range. rewrite !andb_true_iff, !Z.leb_le. tauto. Qed.

Lemma memmove_defined m dst src n :
  0 <= src -> 0 <= dst -> 0 <= n ->
  src + n <= Z.of_nat (length m) -> dst + n <= Z.of_nat (length m) ->
  memmove m dst src n =
    Some (firstn (Z.to_nat dst) m
          ++ firstn (Z.to_nat n) (skipn (Z.to_nat src) m)
          ++ skipn (Z.to_nat (dst + n)) m).
Proof.
  intros. unfold memmove.
  replace (in_range m src n) with true by (symmetry; apply in_range_spec; lia).
  replace (in_range m dst n) with true by (symmetry; apply in_range_spec; lia).
  reflexivity.
Qed.

Lemma memset_defined m dst v n :
  0 <= dst -> 0 <= n -> dst + n <= Z.of_nat (length m) ->
  memset m dst v n =
    Some (firstn (Z.to_nat dst) m ++ repeat v (Z.to_nat n)
          ++ skipn (Z.to_nat (dst + n)) m).
Proof.
  intros. unfold memset.
  replace (in_range m dst n) with true by (symmetry; apply in_range_spec; lia).
  reflexivity.
Qed.

Lemma store_defined m i v :
  0 <= i < Z.of_nat (length m) ->
  store m i v = Some (firstn (Z.to_nat i) m ++ v :: skipn (Z.to_nat (i + 1)) m).
Proof.
  intros. unfold store.
  replace (in_range m i 1) with true by (symmetry; apply in_range_spec; lia).
  reflexivity.
Qed.

Lemma memmove_length m dst src n m' :
  memmove m dst src n = Some m' -> length m' = length m.
Proof.
  unfold memmove. destruct (in_range m src n) eqn:Hs; simpl; [|discriminate].
  destruct (in_range m dst n) eqn:Hd; [|discriminate].
  apply in_range_spec in Hs, Hd. intros [= <-].
  rewrite !length_app, !length_firstn, !length_skipn. lia.
Qed.

Lemma store_length m i v m' :
  store m i v = Some m' -> length m' = length m.
Proof.
  unfold store. destruct (in_range m i 1) eqn:Hd; [|discriminate].
  apply in_range_spec in Hd. intros [= <-].
  rewrite length_app, length_firstn. simpl. rewrite length_skipn. lia.
Qed.

End CellFacts.

(** ** The cursor registers *)

(** What [cgaputc] writes to registers 14 and 15 reads back as [pos]. *)
Lemma cga_getpos_set_screen st pos m :
  0 <= pos < 65536 ->
  cga_getpos (set_screen st (u8 (Z.shiftr pos 8)) (u8 pos) m) = pos.
Proof.
  intros H. unfold cga_getpos, set_screen. cbn [crt_hi crt_lo].
  rewrite !u8_mod, Z.shiftr_div_pow2, Z.shiftl_mul_pow2 by lia.
  change (2 ^ 8) with 256.
  assert (Hl : Z.land (pos / 256 mod 256 * 256) (pos mod 256) = 0).
  { apply Z.bits_inj'. intros n Hn. rewrite Z.land_spec, Z.bits_0.
    set (h := pos / 256 mod 256).
    change (h * 256) with (h * 2 ^ 8). change (pos mod 256) with (pos mod 2 ^ 8).
    destruct (Z.ltb_spec n 8).
    - rewrite Z.mul_pow2_bits_low by lia. reflexivity.
    - rewrite Z.mod_pow2_bits_high by lia. apply andb_false_r. }
  pose proof (Z.add_lor_land (pos / 256 mod 256 * 256) (pos mod 256)) as Ha.
  rewrite Hl in Ha.
  rewrite (Z.mod_small (pos / 256)) in *
    by (split; [apply Z.div_pos|apply Z.div_lt_upper_bound]; lia).
  pose proof (Z.div_mod pos 256). lia.
Qed.

(** ** The screen driver *)

Lemma crt_cells_small k : 0 <= k < 2 ^ 31 -> crt_cells k = k.
Proof.
  intros H. unfold crt_cells.
  rewrite (u32_small k) by lia. rewrite u32_small by lia.
  rewrite Z.mul_comm. apply Z.div_mul. discriminate.
Qed.

Lemma cga_scrolls_spec pos : 0 <= pos -> cga_scrolls pos = (1920 <=? pos).
Proof.
  intros H. unfold cga_scrolls, BUFF_SIZE.
  rewrite Z.quot_div_nonneg by lia. rewrite Z.geb_leb.
  apply eq_true_iff_eq. rewrite !Z.leb_le.
  pose proof (Z.div_mod pos 80). pose proof (Z.mod_pos_bound pos 80). lia.
Qed.

(** The position a scroll leaves, whatever it does to the cells. *)
Lemma cga_scroll_pos pos m pos' m' :
  cga_scroll pos m = Done (pos', m') ->
  pos' = if cga_scrolls pos then pos - BUFF_SIZE else pos.
Proof.
  unfold cga_scroll. destruct (cga_scrolls pos).
  - intros H. apply bind_inv in H as (m1 & _ & H).
    apply bind_inv in H as (m2 & _ & H). now inversion H.
  - intros H. now inversion H.
Qed.

(** On the 80x25 grid the scroll is defined for every checked position. *)
Lemma cga_scroll_ok pos m :
  length m = 2000%nat -> 0 <= pos <= 2000 ->
  exists m', cga_scroll pos m
             = Done (if cga_scrolls pos then pos - BUFF_SIZE else pos, m')
             /\ length m' = 2000%nat.
Proof.
  intros Hl Hp. unfold cga_scroll. rewrite cga_scrolls_spec by lia.
  destruct (Z.leb_spec 1920 pos); [|eauto].
  unfold BUFF_SIZE. rewrite !crt_cells_small by lia.
  rewrite memmove_defined by lia. cbn [of_option bind].
  match goal with |- context [memset ?l _ _ _] => set (m1 := l) end.
  assert (Hl1 : length m1 = 2000%nat).
  { subst m1. rewrite !length_app, !length_firstn, !length_skipn. lia. }
  rewrite memset_defined by lia. cbn [of_option bind].
  eexists; split; [reflexivity|].
  rewrite !length_app, length_firstn, repeat_length, length_skipn. lia.
Qed.

(** On the 80x25 grid the branch on [c] is defined when the cursor is in
    rows 0..23 or at the start of row 24, and moves it by at most a row. *)
Lemma cga_edit_ok c pos m :
  length m = 2000%nat -> 0 <= pos <= 1920 ->
  exists pos' m', cga_edit c pos m = Done (pos', m')
    /\ length m' = 2000%nat /\ 0 <= pos' <= pos + 80
    /\ (pos < 1920 -> pos' <= 1920).
Proof.
  intros Hl Hp. unfold cga_edit, BUFF_SIZE.
  destruct (c =? 10).
  { rewrite Z.rem_mod_nonneg by lia.
    do 2 eexists; split; [reflexivity|]. split; [assumption|].
    pose proof (Z.div_mod pos 80). pose proof (Z.mod_pos_bound pos 80). lia. }
  destruct (c =? BACKSPACE).
  { destruct (Z.gtb_spec pos 0).
    - rewrite crt_cells_small by lia. rewrite memmove_defined by lia.
      cbn [of_option bind]. do 2 eexists; split; [reflexivity|].
      split; [|lia].
      rewrite !length_app, !length_firstn, !length_skipn. lia.
    - do 2 eexists; split; [reflexivity|]. split; [assumption|lia]. }
  destruct (c =? LEFT).
  { destruct (Z.gtb_spec pos 0);
      do 2 eexists; (split; [reflexivity|]); (split; [assumption|lia]). }
  destruct (c =? RIGHT).
  { do 2 eexists; split; [reflexivity|]. split; [assumption|lia]. }
  destruct ((c =? UP) || (c =? DOWN)).
  { do 2 eexists; split; [reflexivity|]. split; [assumption|lia]. }
  rewrite crt_cells_small by lia. rewrite memmove_defined by lia.
  cbn [of_option bind].
  match goal with |- context [store ?l _ _] => set (m1 := l) end.
  assert (Hl1 : length m1 = 2000%nat).
  { subst m1. rewrite !length_app, !length_firstn, !length_skipn. lia. }
  rewrite store_defined by lia. cbn [of_option bind].
  do 2 eexists; split; [reflexivity|]. split; [|lia].
  rewrite length_app, length_firstn. cbn [length]. rewrite length_skipn. lia.
Qed.

(** The part of the state [cgaputc] does not touch. *)
Lemma cgaputc_frame st c st' :
  cgaputc st c = Done st' ->
  panicked st' = panicked st /\ uart st' = uart st /\ input st' = input st.
Proof.
  unfold cgaputc. intros H. apply bind_inv in H as ([pos m] & _ & H).
  destruct ((pos <? 0) || (pos >? 25 * BUFF_SIZE)); [discriminate|].
  apply bind_inv in H as ([pos2 m2] & _ & H). inversion H. now subst.
Qed.

(** From such a screen [cgaputc] returns, to such a screen. *)
Lemma cgaputc_ok st c :
  screen_ok st -> exists st', cgaputc st c = Done st' /\ screen_ok st'.
Proof.
  intros [Hl Hp]. unfold cgaputc.
  destruct (cga_edit_ok c (cga_getpos st) (crt st) Hl) as (p1 & m1 & -> & Hl1 & Hp1 & Hp1');
    [lia|].
  cbn [bind]. unfold BUFF_SIZE.
  replace ((p1 <? 0) || (p1 >? 25 * 80)) with false
    by (symmetry; rewrite Z.gtb_ltb; apply orb_false_iff; split; apply Z.ltb_ge; lia).
  destruct (cga_scroll_ok p1 m1 Hl1) as (m2 & -> & Hl2); [lia|].
  cbn [bind]. eexists; split; [reflexivity|]. split; [exact Hl2|].
  rewrite cga_getpos_set_screen; rewrite cga_scrolls_spec by lia;
    unfold BUFF_SIZE; destruct (Z.leb_spec 1920 p1); lia.
Qed.

Lemma cga_edit_length c pos m pos' m' :
  cga_edit c pos m = Done (pos', m') -> length m' = length m.
Proof.
  unfold cga_edit.
  destruct (c =? 10); [intros [= _ <-]; reflexivity|].
  destruct (c =? BACKSPACE).
  { destruct (pos >? 0); [|intros [= _ <-]; reflexivity].
    intros H. apply bind_inv in H as (m1 & H1 & [= _ <-]).
    apply of_option_inv in H1. eapply memmove_length, H1. }
  destruct (c =? LEFT).
  { destruct (pos >? 0); intros [= _ <-]; reflexivity. }
  destruct (c =? RIGHT); [intros [= _ <-]; reflexivity|].
  destruct ((c =? UP) || (c =? DOWN)); [intros [= _ <-]; reflexivity|].
  intros H. apply bind_inv in H as (m1 & H1 & H).
  apply bind_inv in H as (m2 & H2 & [= _ <-]).
  apply of_option_inv in H1, H2.
  rewrite (store_length _ _ _ _ H2). eapply memmove_length, H1.
Qed.

(** The check of l.168 where the branch on [c] reaches it. After a call of
    [cgaputc] that returns, the position it computed was inside [0, 2000]
    and the cursor it wrote to the registers is too; a position outside
    [0, 2000] that the branch has computed sends the call to [panic]; on
    the 80x25 grid a computed position inside the range lets the call
    return; and the right arrow at cursor 2000, which the code increments
    without a clamp, ends in that [panic]. *)
Theorem cgaputc_pos_checked (st : console) (c : Z) :
  (forall st', cgaputc st c = Done st' ->
     (exists pos m, cga_edit c (cga_getpos st) (crt st) = Done (pos, m)
                    /\ 0 <= pos <= 2000)
     /\ 0 <= cga_getpos st' <= 2000)
  /\ (forall pos m, cga_edit c (cga_getpos st) (crt st) = Done (pos, m) ->
        ~ 0 <= pos <= 2000 ->
        cgaputc st c = Stop (Panic "pos under/overflow"))
  /\ (forall pos m, cga_edit c (cga_getpos st) (crt st) = Done (pos, m) ->
        0 <= pos <= 2000 -> length (crt st) = 2000%nat ->
        exists st', cgaputc st c = Done st')
  /\ (cga_getpos st = 2000 ->
        cgaputc st RIGHT = Stop (Panic "pos under/overflow")).
Proof.
  repeat split.
  - unfold cgaputc in H. apply bind_inv in H as ([pos m] & He & H).
    exists pos, m. split; [exact He|].
    destruct (Z.ltb_spec pos 0); [discriminate|].
    destruct (Z.gtb_spec pos (25 * BUFF_SIZE)); [discriminate|].
    unfold BUFF_SIZE in *. lia.
  - unfold cgaputc in H. apply bind_inv in H as ([pos m] & He & H).
    destruct (Z.ltb_spec pos 0); [discriminate|].
    destruct (Z.gtb_spec pos (25 * BUFF_SIZE)); [discriminate|].
    cbn [orb] in H. apply bind_inv in H as ([pos2 m2] & Hs & [= <-]).
    apply cga_scroll_pos in Hs. rewrite cga_scrolls_spec in Hs by lia.
    unfold BUFF_SIZE in *. rewrite cga_getpos_set_screen;
      destruct (Z.leb_spec 1920 pos); lia.
  - unfold cgaputc in H. apply bind_inv in H as ([pos m] & He & H).
    destruct (Z.ltb_spec pos 0); [discriminate|].
    destruct (Z.gtb_spec pos (25 * BUFF_SIZE)); [discriminate|].
    cbn [orb] in H. apply bind_inv in H as ([pos2 m2] & Hs & [= <-]).
    apply cga_scroll_pos in Hs. rewrite cga_scrolls_spec in Hs by lia.
    unfold BUFF_SIZE in *. rewrite cga_getpos_set_screen;
      destruct (Z.leb_spec 1920 pos); lia.
  - intros pos m He Hout. unfold cgaputc. rewrite He. cbn [bind].
    unfold BUFF_SIZE.
    destruct (Z.ltb_spec pos 0); [reflexivity|].
    destruct (Z.gtb_spec pos (25 * 80)); [reflexivity|]. lia.
  - intros pos m He Hin Hl. unfold cgaputc. rewrite He. cbn [bind].
    unfold BUFF_SIZE.
    destruct (Z.ltb_spec pos 0); [lia|].
    destruct (Z.gtb_spec pos (25 * 80)); [lia|]. cbn [orb].
    apply cga_edit_length in He.
    destruct (cga_scroll_ok pos m) as (m2 & -> & _); [congruence|lia|].
    cbn [bind]. eauto.
  - intros Hp. unfold cgaputc. rewrite Hp. reflexivity.
Qed.

(** A cursor at offset 2000 (registers 7 and 208): the right arrow is
    caught. *)
Lemma cgaputc_pos_checked_witness :
  cgaputc (mkConsole false [] 7 208 (repeat 0 2000) input0) RIGHT
  = Stop (Panic "pos under/overflow").
Proof.
  apply (proj2 (proj2 (proj2
    (cgaputc_pos_checked (mkConsole false [] 7 208 (repeat 0 2000) input0)
                         RIGHT)))).
  reflexivity.
Defined.

(** ** The block move and the check *)

(** Beyond row 23 the count [24*BUFF_SIZE - pos] of l.154 and l.164 is
    negative; multiplied by [sizeof(crt[0])] in [uint] it wraps to a count
    of nearly [2^31] cells. *)
Lemma crt_cells_wrapped pos :
  24 * BUFF_SIZE < pos <= 2 ^ 16 ->
  crt_cells (24 * BUFF_SIZE - pos) = 2 ^ 31 + 24 * BUFF_SIZE - pos.
Proof.
  unfold crt_cells, u32, BUFF_SIZE. intros H.
  rewrite <- (Z.mod_unique (24 * 80 - pos) (2 ^ 32) (-1)
                           (2 ^ 32 + 24 * 80 - pos)) by lia.
  rewrite <- (Z.mod_unique (2 * (2 ^ 32 + 24 * 80 - pos)) (2 ^ 32) 1
                           (2 * (2 ^ 31 + 24 * 80 - pos))) by lia.
  rewrite Z.mul_comm. apply Z.div_mul. lia.
Qed.

(** C6. The check of l.168 comes after the block moves of l.154 and l.164.
    On the 80x25 grid, with the cursor register beyond offset 1920, a code
    of the last branch (and [BACKSPACE] beyond offset 1921) makes
    [memmove] run with a wrapped count that leaves the array: the call has
    undefined behaviour and never reaches the check, so it does not end in
    the [panic] of l.169, also where the position it was about to compute
    (2001 for a char at cursor 2000) is outside [0, 2000]. *)
Theorem cgaputc_moves_before_check (st : console) (c : Z) :
  length (crt st) = 2000%nat ->
  cga_getpos st < 2 ^ 16 ->
  (printable c /\ 24 * BUFF_SIZE < cga_getpos st)
  \/ (c = BACKSPACE /\ 24 * BUFF_SIZE + 1 < cga_getpos st) ->
  cga_edit c (cga_getpos st) (crt st) = Stop Undefined
  /\ cgaputc st c = Stop Undefined
  /\ cgaputc st c <> Stop (Panic "pos under/overflow").
Proof.
  intros Hl Hhi Hc.
  assert (E : cga_edit c (cga_getpos st) (crt st) = Stop Undefined).
  { unfold cga_edit.
    destruct Hc as [[(H1 & H2 & H3 & H4 & H5 & H6) Hp] | [-> Hp]].
    - apply Z.eqb_neq in H1, H2, H3, H4, H5, H6.
      rewrite H1, H2, H3, H4, H5, H6. cbn [orb].
      rewrite crt_cells_wrapped by lia. unfold memmove.
      replace (in_range (crt st) (cga_getpos st) _) with false; [reflexivity|].
      symmetry. apply not_true_iff_false. rewrite in_range_spec.
      unfold BUFF_SIZE in *. lia.
    - change (BACKSPACE =? 10) with false.
      change (BACKSPACE =? BACKSPACE) with true. cbv iota.
      destruct (Z.gtb_spec (cga_getpos st) 0); [|unfold BUFF_SIZE in *; lia].
      cbv zeta. rewrite crt_cells_wrapped by lia. unfold memmove.
      replace (in_range (crt st) (cga_getpos st - 1 + 1) _) with false;
        [reflexivity|].
      symmetry. apply not_true_iff_false. rewrite in_range_spec.
      unfold BUFF_SIZE in *. lia. }
  split; [exact E|]. unfold cgaputc. rewrite E. cbn [bind].
  split; [reflexivity|discriminate].
Qed.

(** A cursor at offset 2000 (registers 7 and 208), the entry state in which
    the right arrow is caught by the check: the char ['a'], whose position
    would be 2001, is not. *)
Lemma cgaputc_moves_before_check_witness :
  cga_getpos (mkConsole false [] 7 208 (repeat 0 2000) input0) = 2000
  /\ cgaputc (mkConsole false [] 7 208 (repeat 0 2000) input0) 97
     = Stop Undefined
  /\ cgaputc (mkConsole false [] 7 208 (repeat 0 2000) input0) RIGHT
     = Stop (Panic "pos under/overflow").
Proof.
  split; [reflexivity|]. split; [|reflexivity].
  apply (cgaputc_moves_before_check
           (mkConsole false [] 7 208 (repeat 0 2000) input0) 97).
  - reflexivity.
  - reflexivity.
  - left. split; [repeat split; discriminate|reflexivity].
Defined.

(** ** The output multiplexer *)

Lemma uart_uartputc st c : uart (uartputc st c) = uart st ++ [c].
Proof. reflexivity. Qed.

(** C7. When the system is not panicked, [consputc c] hands backspace,
    space, backspace to [uartputc] if [c] is [BACKSPACE], nothing if [c] is
    one of the four arrow markers, and [c] itself otherwise; in every case
    it then calls [cgaputc c], and a call that returns has added exactly
    those bytes to what the serial port received. *)
Theorem consputc_serial (st : console) (c : Z) :
  panicked st = false ->
  (c = BACKSPACE ->
     consputc st c = cgaputc (uartputc (uartputc (uartputc st 8) 32) 8) c)
  /\ (c = UP \/ c = DOWN \/ c = LEFT \/ c = RIGHT ->
     consputc st c = cgaputc st c)
  /\ (c <> BACKSPACE -> c <> UP -> c <> DOWN -> c <> LEFT -> c <> RIGHT ->
     consputc st c = cgaputc (uartputc st c) c)
  /\ (forall st', consputc st c = Done st' ->
     uart st' = uart st ++
       (if c =? BACKSPACE then [8; 32; 8]
        else if (c =? UP) || (c =? DOWN) || (c =? LEFT) || (c =? RIGHT)
             then [] else [c])).
Proof.
  intros Hp. unfold consputc. rewrite Hp. repeat split.
  - intros ->. reflexivity.
  - intros [-> | [-> | [-> | ->]]]; reflexivity.
  - intros H1 H2 H3 H4 H5.
    apply Z.eqb_neq in H1, H2, H3, H4, H5. now rewrite H1, H2, H3, H4, H5.
  - intros st' H. destruct (c =? BACKSPACE).
    + apply cgaputc_frame in H as (_ & -> & _).
      rewrite !uart_uartputc, <- !app_assoc. reflexivity.
    + destruct (c =? UP), (c =? DOWN), (c =? LEFT), (c =? RIGHT);
        cbn [negb andb orb] in *; apply cgaputc_frame in H as (_ & -> & _);
        rewrite ?uart_uartputc, ?app_nil_r; reflexivity.
Qed.

(** The backspace marker on the boot screen: three bytes go to the serial
    port. *)
Lemma consputc_serial_witness :
  exists st', consputc console0 BACKSPACE = Done st' /\ uart st' = [8; 32; 8].
Proof.
  pose proof (consputc_serial console0 BACKSPACE eq_refl) as (H & _ & _ & Hu).
  eexists. split.
  - rewrite (H eq_refl). vm_compute. reflexivity.
  - apply (Hu _). rewrite (H eq_refl). vm_compute. reflexivity.
Defined.

(** ** The input line editor: codes that find nothing to do *)

(** Settles the comparisons of the [switch] between two known codes. *)
Ltac known_codes :=
  repeat match goal with
  | |- context [?a =? ?b] =>
      first [ change (a =? b) with true | change (a =? b) with false ]
  end;
  cbn [orb andb negb].

(** C8. With [e == w] a backspace code ([C('H')] or [0x7f]) and a left
    arrow return the state they were given: buffer, the four indices,
    serial output and screen are unchanged, so nothing was echoed. The same
    holds for a right arrow with [e == max]. *)
Theorem consoleintr_case_noop (st : console) :
  (Input.e (input st) = Input.w (input st) ->
     consoleintr_case st ctrl_H = Done st
     /\ consoleintr_case st 0x7f = Done st
     /\ consoleintr_case st LEFT = Done st)
  /\ (Input.e (input st) = Input.max (input st) ->
     consoleintr_case st RIGHT = Done st).
Proof.
  split.
  - intros H. unfold consoleintr_case. rewrite H. known_codes.
    rewrite Z.eqb_refl. repeat split; reflexivity.
  - intros H. unfold consoleintr_case. rewrite H. known_codes.
    rewrite Z.ltb_irrefl. reflexivity.
Qed.

(** Nothing typed yet ([e = w = max = 0]): all four codes are ignored. *)
Lemma consoleintr_case_noop_witness :
  consoleintr_case console0 ctrl_H = Done console0
  /\ consoleintr_case console0 0x7f = Done console0
  /\ consoleintr_case console0 LEFT = Done console0
  /\ consoleintr_case console0 RIGHT = Done console0.
Proof.
  destruct (consoleintr_case_noop console0) as [Hw Hm].
  destruct (Hw eq_refl) as (H1 & H2 & H3).
  exact (conj H1 (conj H2 (conj H3 (Hm eq_refl)))).
Defined.

(** ** The formatted output engine *)

Section CprintfFacts.
Variable args : nat -> Z.
Variable str_at : Z -> list Z.

(** The loop behind whole turns: what it does on them, then what it does
    on the rest with the arguments they have read skipped. *)
Lemma cprintf_loop_items pre k :
  items pre k -> forall st rest argp,
  cprintf_loop args str_at st (pre ++ rest) argp =
    (st1 <- cprintf_loop args str_at st pre argp ;;
     cprintf_loop args str_at st1 rest (argp + k)).
Proof.
  induction 1 as [|ch pre k [H0 H37] _ IH|ch pre k Ha _ IH
                  |ch pre k Hp _ IH|ch pre k Hu _ IH];
    intros st rest argp.
  - cbn [app cprintf_loop bind]. now rewrite Nat.add_0_r.
  - cbn [app cprintf_loop]. apply Z.eqb_neq in H0, H37.
    rewrite H0, H37. cbn [negb]. rewrite bind_assoc.
    apply bind_ext. intros st1. apply IH.
  - cbn [app cprintf_loop]. change (Z.land 37 255 =? 0) with false.
    change (Z.land 37 255 =? 37) with true. cbn [negb].
    replace (argp + S k)%nat with (S argp + k)%nat by lia.
    destruct Ha as [E | [E | [E | E]]]; rewrite E; known_codes;
      rewrite bind_assoc; apply bind_ext; intros st1; apply IH.
  - cbn [app cprintf_loop]. change (Z.land 37 255 =? 0) with false.
    change (Z.land 37 255 =? 37) with true. cbn [negb].
    rewrite Hp. known_codes.
    rewrite bind_assoc; apply bind_ext; intros st1; apply IH.
  - cbn [app cprintf_loop]. change (Z.land 37 255 =? 0) with false.
    change (Z.land 37 255 =? 37) with true. cbn [negb].
    destruct Hu as (H0 & Hd & Hx & Hp & Hs & H37).
    apply Z.eqb_neq in H0, Hd, Hx, Hp, Hs, H37.
    rewrite H0, Hd, Hx, Hp, Hs, H37. cbn [orb].
    rewrite !bind_assoc. apply bind_ext. intros st1.
    rewrite bind_assoc. apply bind_ext. intros st2. apply IH.
Qed.

(** C9. Where the scan of a format meets ['%'] followed by a character
    that is none of [d], [x], [p], [s], ['%'] (and not the terminator),
    [cprintf] calls [consputc] exactly twice, with ['%'] and then with that
    character, between what it does on the format before the ['%'] and what
    it does on the format after the character, and reads no argument. The
    scan meets the ['%'] behind any whole turns [pre] of the loop. *)
Theorem cprintf_unknown_directive (st : console) (pre : list Z) (k : nat)
    (c : Z) (rest : list Z) (argp : nat) :
  items pre k -> unknown c ->
  cprintf_loop args str_at st (pre ++ 37 :: c :: rest) argp =
    (st1 <- cprintf_loop args str_at st pre argp ;;
     st2 <- consputc st1 37 ;;
     st3 <- consputc st2 (Z.land c 0xff) ;;
     cprintf_loop args str_at st3 rest (argp + k)).
Proof.
  intros Hpre (H0 & Hd & Hx & Hp & Hs & H37).
  rewrite (cprintf_loop_items pre k Hpre). apply bind_ext. intros st1.
  cbn [cprintf_loop]. change (Z.land 37 255 =? 0) with false.
  change (Z.land 37 255 =? 37) with true. cbn [negb].
  apply Z.eqb_neq in H0, Hd, Hx, Hp, Hs, H37.
  rewrite H0, Hd, Hx, Hp, Hs, H37. reflexivity.
Qed.

(** C10. A format that ends right behind a ['%'] that starts a turn of the
    loop (it follows whole turns [pre]): the loop reads the terminator
    after the ['%'] and stops; no call of [consputc] is made for the
    ['%'], and what [cprintf] does is what it does on the format without
    its last byte. *)
Theorem cprintf_trailing_percent (st : console) (pre : list Z) (k : nat)
    (argp : nat) :
  items pre k ->
  cprintf_loop args str_at st (pre ++ [37]) argp
    = cprintf_loop args str_at st pre argp
  /\ cprintf_loop args str_at st (pre ++ 37 :: 0 :: nil) argp
    = cprintf_loop args str_at st pre argp
  /\ forall st1, cprintf_loop args str_at st1 [37] (argp + k) = Done st1.
Proof.
  intros Hpre. rewrite !(cprintf_loop_items pre k Hpre).
  repeat split; try reflexivity;
    destruct (cprintf_loop args str_at st pre argp); reflexivity.
Qed.

End CprintfFacts.

(** The format ["a%d%q"] with the argument 7 on the boot console: [a], [7],
    [%], [q] reach the serial port. *)
Lemma cprintf_unknown_directive_witness :
  exists st',
    cprintf (fun _ => 7) (fun _ => []) console0 (Some [97; 37; 100; 37; 113])
    = Done st'
    /\ uart st' = [97; 55; 37; 113].
Proof.
  assert (Hp : items [97; 37; 100] 1).
  { apply items_plain; [split; discriminate|].
    apply items_arg; [left; reflexivity|]. apply items_nil. }
  assert (Hu : unknown 113) by (repeat split; discriminate).
  unfold cprintf.
  change [97; 37; 100; 37; 113] with ([97; 37; 100] ++ 37 :: 113 :: []) at 1.
  rewrite (cprintf_unknown_directive (fun _ => 7) (fun _ => []) console0
             [97; 37; 100] 1 113 [] 0%nat Hp Hu).
  vm_compute. eexists. split; reflexivity.
Defined.

(** The format ["a%%%"]: [a] and one [%] reach the serial port, nothing
    for the last [%]. *)
Lemma cprintf_trailing_percent_witness :
  exists st', cprintf (fun _ => 0) (fun _ => []) console0
                      (Some [97; 37; 37; 37])
              = Done st'
              /\ uart st' = [97; 37].
Proof.
  assert (Hp : items [97; 37; 37] 0).
  { apply items_plain; [split; discriminate|].
    apply items_percent; [reflexivity|]. apply items_nil. }
  unfold cprintf. change [97; 37; 37; 37] with ([97; 37; 37] ++ [37]) at 1.
  rewrite (proj1 (cprintf_trailing_percent (fun _ => 0) (fun _ => [])
                    console0 [97; 37; 37] 0 0%nat Hp)).
  vm_compute. eexists. split; reflexivity.
Defined.

(** ** The input line editor: the indices *)

Lemma input_wf_inv i : input_wf i -> input_inv i.
Proof. unfold input_wf, input_inv, INPUT_BUF. lia. Qed.

Lemma input_wf_input0 : input_wf input0.
Proof. unfold input_wf, INPUT_BUF. cbn. lia. Qed.

Lemma echo_ok_set_input st i : echo_ok st -> echo_ok (set_input st i).
Proof. intros H. exact H. Qed.

Lemma consputc_frame st c st' :
  consputc st c = Done st' ->
  panicked st' = panicked st /\ input st' = input st.
Proof.
  unfold consputc. destruct (panicked st) eqn:Hp; [discriminate|].
  intros H. apply cgaputc_frame in H as (H1 & _ & H3).
  rewrite H1, H3.
  destruct (c =? BACKSPACE); [now split|].
  destruct (negb (c =? UP) && negb (c =? DOWN) && negb (c =? LEFT)
            && negb (c =? RIGHT)); now split.
Qed.

Lemma consputc_ok st c :
  echo_ok st ->
  exists st', consputc st c = Done st' /\ echo_ok st' /\ input st' = input st.
Proof.
  intros [Hp Hs]. unfold consputc. rewrite Hp.
  match goal with |- context [cgaputc ?s c] => set (st1 := s) end.
  assert (Hs1 : screen_ok st1).
  { subst st1. destruct (c =? BACKSPACE); [exact Hs|].
    destruct (negb (c =? UP) && negb (c =? DOWN) && negb (c =? LEFT)
              && negb (c =? RIGHT)); exact Hs. }
  assert (Hf : panicked st1 = false /\ input st1 = input st).
  { subst st1. destruct (c =? BACKSPACE); [now split|].
    destruct (negb (c =? UP) && negb (c =? DOWN) && negb (c =? LEFT)
              && negb (c =? RIGHT)); now split. }
  destruct (cgaputc_ok st1 c Hs1) as (st' & E & Hs').
  exists st'. split; [exact E|].
  apply cgaputc_frame in E as (E1 & _ & E3).
  unfold echo_ok. rewrite E1, E3. destruct Hf as [-> ->]. auto.
Qed.

Lemma consputs_ok st cs :
  echo_ok st ->
  exists st', consputs st cs = Done st' /\ echo_ok st' /\ input st' = input st.
Proof.
  revert st. induction cs as [|c cs IH]; intros st H; cbn [consputs].
  - eauto.
  - destruct (consputc_ok st c H) as (st1 & -> & H1 & E1). cbn [bind].
    destruct (IH st1 H1) as (st' & -> & H' & E'). rewrite <- E1. eauto.
Qed.

(** [consolewrite] on such a console returns the count it was given. *)
Lemma consolewrite_ok st buf :
  echo_ok st ->
  exists st', consolewrite st buf = Done (st', Z.of_nat (length buf))
    /\ echo_ok st' /\ input st' = input st.
Proof.
  intros H. unfold consolewrite.
  destruct (consputs_ok st (map (fun c => Z.land c 255) buf) H)
    as (st' & -> & H' & E).
  cbn [bind]. eauto.
Qed.

(** *** The kill-line loop *)

(** The turns [consoleintr_case] gives to [kill_line] are enough: the loop
    is left because its test fails. *)
Lemma kill_line_ends turns st st' :
  0 <= Input.max (input st) < 2 ^ 32 -> 0 <= Input.w (input st) < 2 ^ 32 ->
  (Z.to_nat (u32 (Input.max (input st) - Input.w (input st))) <= turns)%nat ->
  kill_line turns st = Done st' -> kill_cond (input st') = false.
Proof.
  revert st. induction turns as [|turns IH]; intros st Hm Hw Ht;
    cbn [kill_line]; destruct (kill_cond (input st)) eqn:Hc;
    try (intros [= <-]; exact Hc).
  - exfalso. unfold kill_cond in Hc. apply andb_prop in Hc as [Hc _].
    apply negb_true_iff, Z.eqb_neq in Hc.
    assert (u32 (Input.max (input st) - Input.w (input st)) = 0)
      by (pose proof (u32_range (Input.max (input st) - Input.w (input st))); lia).
    unfold u32 in H. apply Z.mod_divide in H; [|discriminate].
    destruct H as [k Hk]. lia.
  - intros H. apply bind_inv in H as (st1 & H1 & H).
    apply consputc_frame in H1 as [_ H1]. cbn [set_input input] in H1.
    apply (IH st1); [rewrite H1; cbn [Input.max Input.w]..|exact H];
      try assumption.
    + apply u32_range.
    + unfold kill_cond in Hc. apply andb_prop in Hc as [Hc _].
      apply negb_true_iff, Z.eqb_neq in Hc.
      unfold u32 in *. rewrite Zminus_mod_idemp_l.
      replace (Input.max (input st) - 1 - Input.w (input st))
        with (Input.max (input st) - Input.w (input st) - 1) by lia.
      set (d := Input.max (input st) - Input.w (input st)) in *.
      assert (d mod 2 ^ 32 <> 0).
      { intros E. apply Z.mod_divide in E; [|discriminate].
        destruct E as [k Hk]. subst d. lia. }
      pose proof (Z.mod_pos_bound d (2 ^ 32) eq_refl).
      rewrite <- (Zminus_mod_idemp_l d 1). rewrite Z.mod_small by lia. lia.
Qed.

(** Killing a line with the edit index at its end keeps the indices in
    order. *)
Lemma kill_line_wf turns st :
  echo_ok st -> input_wf (input st) ->
  Input.e (input st) = Input.max (input st) ->
  exists st', kill_line turns st = Done st' /\ echo_ok st'
    /\ input_wf (input st')
    /\ Input.e (input st') = Input.max (input st').
Proof.
  revert st. induction turns as [|turns IH]; intros st He Hwf Hem;
    cbn [kill_line]; destruct (kill_cond (input st)) eqn:Hc; eauto.
  unfold kill_cond in Hc. apply andb_prop in Hc as [Hc _].
  apply negb_true_iff, Z.eqb_neq in Hc.
  destruct Hwf as (Hl & H0 & Hrw & Hwe & Hem' & Hmax). unfold INPUT_BUF in *.
  match goal with |- context [consputc ?s BACKSPACE] =>
    destruct (consputc_ok s BACKSPACE) as (st1 & -> & He1 & Hi1) end.
  { apply echo_ok_set_input, He. }
  cbn [bind set_input input] in *.
  rewrite !u32_small in Hi1 by lia.
  apply IH; [exact He1|rewrite Hi1|rewrite Hi1; cbn; lia].
  unfold input_wf, INPUT_BUF. cbn. repeat split; try assumption; lia.
Qed.

(** *** One code *)

Lemma input_char_wf st c :
  echo_ok st -> input_wf (input st) -> Input.max (input st) < INPUT_BUF ->
  exists st', input_char st c = Done st' /\ echo_ok st'
    /\ input_wf (input st').
Proof.
  intros He (Hl & H0 & Hrw & Hwe & Hem & _) Hmax. unfold INPUT_BUF in *.
  unfold input_char, INPUT_BUF.
  set (c' := if c =? 13 then 10 else c).
  destruct (c' =? 10) eqn:Hnl; cbn [negb].
  - rewrite store_defined
      by (rewrite Hl; pose proof (Z.mod_pos_bound (Input.max (input st)) 128); lia).
    cbn [of_option bind].
    match goal with |- context [consputc ?s c'] =>
      destruct (consputc_ok s c') as (st1 & -> & He1 & Hi1) end.
    { apply echo_ok_set_input, He. }
    cbn [bind orb]. eexists. split; [reflexivity|]. split; [exact He1|].
    rewrite Hi1. cbn [set_input input]. rewrite !u32_small by lia.
    unfold input_wf, INPUT_BUF. cbn.
    rewrite length_app, length_firstn. cbn [length]. rewrite length_skipn.
    pose proof (Z.mod_pos_bound (Input.max (input st)) 128). lia.
  - rewrite (u32_small (Input.max (input st) - Input.e (input st))) by lia.
    rewrite memmove_defined by lia. cbn [of_option bind].
    match goal with |- context [store ?l _ _] => set (b1 := l) end.
    assert (Hl1 : length b1 = 128%nat).
    { subst b1. rewrite !length_app, !length_firstn, !length_skipn. lia. }
    rewrite store_defined
      by (rewrite Hl1; pose proof (Z.mod_pos_bound (Input.e (input st)) 128); lia).
    cbn [of_option bind].
    match goal with |- context [consputc ?s c'] =>
      destruct (consputc_ok s c') as (st1 & -> & He1 & Hi1) end.
    { apply echo_ok_set_input, He. }
    cbn [set_input input] in Hi1. rewrite !u32_small in Hi1 by lia.
    assert (Hl2 : length (Input.buf (input st1)) = 128%nat).
    { rewrite Hi1. cbn [Input.buf]. rewrite length_app, length_firstn.
      cbn [length]. rewrite length_skipn.
      pose proof (Z.mod_pos_bound (Input.e (input st)) 128). lia. }
    cbn [bind orb].
    match goal with |- context [if ?b then _ else _] => destruct b end;
      (eexists; split; [reflexivity|]); (split; [exact He1|]);
      unfold input_wf, INPUT_BUF; cbn [set_input input Input.buf Input.r Input.w Input.e Input.max];
      rewrite Hl2, Hi1; cbn [Input.r Input.w Input.e Input.max]; lia.
Qed.

(** One code keeps the indices in order and returns, unless it is a
    kill-line that finds the edit index inside the line. *)
Lemma consoleintr_case_wf st c :
  echo_ok st -> input_wf (input st) ->
  (c = ctrl_U -> Input.e (input st) = Input.max (input st)) ->
  exists st', consoleintr_case st c = Done st' /\ echo_ok st'
    /\ input_wf (input st').
Proof.
  intros He Hwf Hk. unfold consoleintr_case.
  destruct (c =? ctrl_P); [eauto|].
  destruct (Z.eqb_spec c ctrl_U).
  { destruct (kill_line_wf (Z.to_nat (u32 (Input.max (input st) - Input.w (input st))))
                st He Hwf (Hk e)) as (st' & E & ? & ? & _). eauto. }
  pose proof Hwf as (Hl & H0 & Hrw & Hwe & Hem & Hmax). unfold INPUT_BUF in *.
  destruct ((c =? ctrl_H) || (c =? 127)).
  { destruct (Z.eqb_spec (Input.e (input st)) (Input.w (input st))); cbn [negb];
      [eauto|].
    rewrite !u32_small by (rewrite ?u32_small by lia; lia).
    rewrite memmove_defined by lia. cbn [of_option bind].
    match goal with |- context [consputc ?s BACKSPACE] =>
      destruct (consputc_ok s BACKSPACE) as (st1 & -> & He1 & Hi1) end.
    { apply echo_ok_set_input, He. }
    eexists. split; [reflexivity|]. split; [exact He1|]. rewrite Hi1.
    unfold input_wf, INPUT_BUF. cbn [set_input input Input.buf Input.r Input.w Input.e Input.max].
    rewrite !length_app, !length_firstn, !length_skipn. lia. }
  destruct (c =? UP).
  { destruct (consputc_ok st c He) as (st1 & -> & He1 & Hi1).
    eexists. split; [reflexivity|]. rewrite Hi1. auto. }
  destruct (c =? DOWN).
  { destruct (consputc_ok st c He) as (st1 & -> & He1 & Hi1).
    eexists. split; [reflexivity|]. rewrite Hi1. auto. }
  destruct (c =? LEFT).
  { destruct (Z.eqb_spec (Input.e (input st)) (Input.w (input st))); cbn [negb];
      [eauto|].
    match goal with |- context [consputc ?s c] =>
      destruct (consputc_ok s c) as (st1 & -> & He1 & Hi1) end.
    { apply echo_ok_set_input, He. }
    eexists. split; [reflexivity|]. split; [exact He1|]. rewrite Hi1.
    unfold input_wf, INPUT_BUF. cbn [set_input input Input.buf Input.r Input.w Input.e Input.max].
    rewrite !u32_small by lia. lia. }
  destruct (c =? RIGHT).
  { destruct (Z.ltb_spec (Input.e (input st)) (Input.max (input st))); [|eauto].
    match goal with |- context [consputc ?s c] =>
      destruct (consputc_ok s c) as (st1 & -> & He1 & Hi1) end.
    { apply echo_ok_set_input, He. }
    eexists. split; [reflexivity|]. split; [exact He1|]. rewrite Hi1.
    unfold input_wf, INPUT_BUF. cbn [set_input input Input.buf Input.r Input.w Input.e Input.max].
    rewrite !u32_small by lia. lia. }
  destruct (c =? 0); cbn [negb andb]; [eauto|].
  destruct (Z.ltb_spec (Input.max (input st)) 128); [|eauto].
  apply input_char_wf; assumption.
Qed.

(** *** A batch of codes, and the reader *)

(** A batch without kill-line returns and keeps the indices in order. *)
Lemma consoleintr_loop_wf codes : forall st d,
  Forall (fun c => c <> ctrl_U) codes ->
  echo_ok st -> input_wf (input st) ->
  exists st' d', consoleintr_loop st codes d = Done (st', d')
    /\ echo_ok st' /\ input_wf (input st').
Proof.
  induction codes as [|c codes IH]; intros st d Hc He Hwf;
    cbn [consoleintr_loop]; [eauto|].
  inversion Hc as [|? ? Hc1 Hc2]; subst.
  destruct (c >=? 0); [|eauto].
  destruct (consoleintr_case_wf st c He Hwf) as (st1 & -> & He1 & Hwf1);
    [intros; contradiction|].
  cbn [bind]. apply IH; assumption.
Qed.

(** The reader keeps the indices in order, whether it returns or goes to
    sleep, and never moves [r] back behind where it found it. *)
Lemma consoleread_loop_wf killed target n : forall dst i,
  input_wf i ->
  match consoleread_loop killed target n dst i with
  | Returns _ _ i' | Sleeps _ _ _ i' =>
      input_wf i' /\ Input.r i <= Input.r i'
  end.
Proof.
  induction n as [|n IH]; intros dst i Hwf; cbn [consoleread_loop].
  - split; [assumption|lia].
  - pose proof Hwf as (Hl & H0 & Hrw & Hwe & Hem & Hmax).
    unfold INPUT_BUF in *.
    destruct (Z.eqb_spec (Input.r i) (Input.w i)).
    { destruct killed; (split; [assumption|lia]). }
    cbn [Input.buf Input.r Input.w Input.e Input.max].
    rewrite (u32_small (Input.r i + 1)) by lia.
    replace (Input.r i + 1 - 1) with (Input.r i) by lia.
    rewrite (u32_small (Input.r i)) by lia.
    destruct (_ =? ctrl_D).
    { destruct (_ <? target); cbn [Input.r];
        (split; [unfold input_wf, INPUT_BUF; cbn; lia|lia]). }
    destruct (_ =? 10).
    { split; [unfold input_wf, INPUT_BUF; cbn; lia|cbn; lia]. }
    match goal with |- context [consoleread_loop _ _ _ ?d ?j] =>
      specialize (IH d j) end.
    destruct (consoleread_loop _ _ _ _ _); cbn [Input.r] in IH;
      (destruct IH as [IH1 IH2]; [unfold input_wf, INPUT_BUF; cbn; lia|]);
      (split; [exact IH1|lia]).
Qed.

Lemma consoleread_wf killed i n :
  input_wf i ->
  match consoleread killed i n with
  | Returns _ _ i' | Sleeps _ _ _ i' =>
      input_wf i' /\ Input.r i <= Input.r i'
  end.
Proof.
  intros Hwf. unfold consoleread. destruct (n >? 0).
  - now apply consoleread_loop_wf.
  - split; [assumption|lia].
Qed.

Lemma echo_ok_console0 : echo_ok console0.
Proof.
  unfold echo_ok, screen_ok. split; [reflexivity|]. split.
  - cbn [crt console0]. apply repeat_length.
  - cbn. lia.
Qed.

(** From boot, a batch without kill-line returns and leaves the indices in
    the order [r <= w <= e <= max <= r + INPUT_BUF]; so does a reader called
    after it. *)
Lemma consoleintr_input_inv codes killed n :
  Forall (fun c => c <> ctrl_U) codes ->
  exists st d, consoleintr console0 codes = Done (st, d)
    /\ input_inv (input st)
    /\ match consoleread killed (input st) n with
       | Returns _ _ i' | Sleeps _ _ _ i' => input_inv i'
       end.
Proof.
  intros Hc.
  destruct (consoleintr_loop_wf codes console0 false Hc echo_ok_console0
              input_wf_input0) as (st & d & E & _ & Hwf).
  exists st, d. split; [exact E|]. split; [now apply input_wf_inv|].
  pose proof (consoleread_wf killed (input st) n Hwf) as H.
  destruct (consoleread killed (input st) n); now apply input_wf_inv.
Qed.

(** C1. The buffer is empty, [a] and [b] are typed, the left arrow is
    pressed twice and the line is killed: all five codes are taken, before
    the kill the indices are in order, and the kill, which takes one from
    [e] each time it takes one from [max], leaves [e] at [2^32 - 2] above
    [max = 0]. *)
Theorem kill_line_breaks_input_inv :
  (exists st, consoleintr console0 [97; 98; LEFT; LEFT] = Done (st, false)
     /\ input_inv (input st)
     /\ Input.e (input st) = 0 /\ Input.max (input st) = 2)
  /\ (exists st, consoleintr console0 [97; 98; LEFT; LEFT; ctrl_U]
                 = Done (st, false)
     /\ Input.r (input st) = 0 /\ Input.w (input st) = 0
     /\ Input.e (input st) = 4294967294 /\ Input.max (input st) = 0
     /\ ~ input_inv (input st)).
Proof.
  split.
  - eexists. split; [vm_compute; reflexivity|].
    unfold input_inv, INPUT_BUF. cbn [input Input.r Input.w Input.e Input.max].
    lia.
  - eexists. split; [vm_compute; reflexivity|].
    unfold input_inv, INPUT_BUF. cbn [input Input.r Input.w Input.e Input.max].
    lia.
Qed.

(** C2. A line of 127 [a] and a newline is typed and a reader takes all
    128 chars: [r] and [max] are both 128, so [max < r + INPUT_BUF] and
    the buffer holds nothing unread, and yet the next code is ignored,
    because the test of the [default:] case is [input.max < INPUT_BUF]. *)
Theorem input_full_ignores_read_index :
  exists st i,
    consoleintr console0 (repeat 97 127 ++ [10]) = Done (st, false)
    /\ consoleread false (input st) 128
       = Returns 128 (repeat 97 127 ++ [10]) i
    /\ Input.r i = 128 /\ Input.w i = 128 /\ Input.max i = 128
    /\ Input.max i < Input.r i + INPUT_BUF
    /\ consoleintr_case (set_input st i) 97 = Done (set_input st i).
Proof.
  do 2 eexists. split; [vm_compute; reflexivity|].
  split; [vm_compute; reflexivity|].
  cbn [Input.r Input.w Input.max]. unfold INPUT_BUF.
  split; [reflexivity|]. split; [reflexivity|]. split; [reflexivity|].
  split; [lia|]. vm_compute. reflexivity.
Qed.

(** Whatever [r] is, a code of the [default:] case is ignored once
    [input.max] has reached [INPUT_BUF]. *)
Lemma consoleintr_case_ignored st c :
  INPUT_BUF <= Input.max (input st) ->
  c <> ctrl_P -> c <> ctrl_U -> c <> ctrl_H -> c <> 0x7f ->
  c <> UP -> c <> DOWN -> c <> LEFT -> c <> RIGHT ->
  consoleintr_case st c = Done st.
Proof.
  intros Hm H1 H2 H3 H4 H5 H6 H7 H8. unfold consoleintr_case.
  apply Z.eqb_neq in H1, H2, H3, H4, H5, H6, H7, H8.
  rewrite H1, H2, H3, H4, H5, H6, H7, H8. cbn [orb].
  apply Z.ltb_ge in Hm. rewrite Hm, andb_false_r. reflexivity.
Qed.

(** ** The reader *)

Lemma s32_small x : 0 <= x < 2 ^ 31 -> s32 x = x.
Proof.
  intros H. unfold s32. rewrite u32_small by lia.
  destruct (Z.ltb_spec x (2 ^ 31)); lia.
Qed.

Lemma set_r_same i : set_r i (Input.r i) = i.
Proof. now destruct i. Qed.

Lemma pending_S i k :
  pending i (S k)
  = load (Input.buf i) (Input.r i mod INPUT_BUF)
    :: pending (set_r i (Input.r i + 1)) k.
Proof.
  unfold pending. cbn [seq map]. rewrite Z.add_0_r. f_equal.
  rewrite <- seq_shift, map_map. apply map_ext. intros j.
  cbn [set_r Input.buf Input.r]. f_equal. f_equal. lia.
Qed.

(** Chars that are neither EOF nor newline are copied one after the other
    as long as there are released chars and room in [dst]. *)
Lemma consoleread_loop_chars killed target k : forall n dst i,
  0 <= Input.r i -> Input.r i + Z.of_nat k <= Input.w i ->
  Input.w i < 2 ^ 32 ->
  Forall (fun c => c <> ctrl_D /\ c <> 10) (pending i k) ->
  consoleread_loop killed target (k + n) dst i
  = consoleread_loop killed target n (dst ++ pending i k)
                     (set_r i (Input.r i + Z.of_nat k)).
Proof.
  induction k as [|k IH]; intros n dst i H0 Hk Hw Hc.
  - cbn [pending seq map Nat.add]. rewrite app_nil_r, Z.add_0_r.
    now destruct i.
  - rewrite pending_S in *. inversion Hc as [|c cs [Hc1 Hc2] Hc3]; subst.
    cbn [Nat.add consoleread_loop].
    destruct (Z.eqb_spec (Input.r i) (Input.w i)); [lia|].
    apply Z.eqb_neq in Hc1, Hc2. rewrite Hc1, Hc2.
    rewrite u32_small by lia.
    change (Input.mk (Input.buf i) (Input.r i + 1) (Input.w i) (Input.e i)
                     (Input.max i)) with (set_r i (Input.r i + 1)).
    rewrite IH; cbn [set_r Input.r Input.w]; try lia; try assumption.
    rewrite <- app_assoc. cbn [app Input.buf Input.e Input.max].
    replace (Input.r i + 1 + Z.of_nat k) with (Input.r i + Z.of_nat (S k))
      by lia.
    reflexivity.
Qed.

(** The EOF code at any turn of the loop, also after a wakeup: the call
    returns what it has copied so far; [r] stays on the marker if the call
    has copied something ([n < target]) and passes it otherwise. *)
Lemma consoleread_loop_eof killed target n dst i :
  0 <= Input.r i < 2 ^ 32 - 1 -> Input.r i <> Input.w i ->
  load (Input.buf i) (Input.r i mod INPUT_BUF) = ctrl_D ->
  consoleread_loop killed target (S n) dst i
  = Returns (s32 (target - Z.of_nat (S n))) dst
            (if Z.of_nat (S n) <? target then i
             else set_r i (Input.r i + 1)).
Proof.
  intros H0 Hr Hc. cbn [consoleread_loop].
  apply Z.eqb_neq in Hr. rewrite Hr, Hc.
  change (ctrl_D =? ctrl_D) with true. cbv iota.
  cbn [Input.buf Input.r Input.w Input.e Input.max].
  rewrite (u32_small (Input.r i + 1)) by lia.
  replace (Input.r i + 1 - 1) with (Input.r i) by lia.
  rewrite (u32_small (Input.r i)) by lia.
  destruct (_ <? target); [now destruct i|reflexivity].
Qed.

(** A reader asks for 10 chars of an empty buffer and sleeps; ["hi"] and
    the EOF code are typed; woken, it returns the 2 chars and leaves the
    marker. *)
Example consoleread_wakeup_eof :
  consoleread false input0 10 = Sleeps 10 10 [] input0
  /\ consoleread_wakeup false (consoleread false input0 10) hi_eof
     = Returns 2 [104; 105] (set_r hi_eof 2).
Proof. split; reflexivity. Qed.

(** A call that finds EOF first: nothing is copied, [r] has passed the
    marker. *)
Lemma consoleread_eof_first killed i n :
  0 < n < 2 ^ 31 -> Input.r i <> Input.w i ->
  load (Input.buf i) (Input.r i mod INPUT_BUF) = ctrl_D ->
  consoleread killed i n = Returns 0 [] (set_r i (u32 (Input.r i + 1))).
Proof.
  intros Hn Hr Hc. unfold consoleread.
  destruct (Z.gtb_spec n 0); [|lia].
  destruct (Z.to_nat n) as [|q] eqn:Eq; [lia|]. cbn [consoleread_loop].
  apply Z.eqb_neq in Hr. rewrite Hr, Hc. cbn [Z.eqb ctrl_D C Z.sub Z.add Z.pos_sub].
  change (ctrl_D =? ctrl_D) with true. cbv iota.
  rewrite (u32_small n) by lia.
  replace (Z.of_nat (S q)) with n by lia.
  rewrite Z.ltb_irrefl, Z.sub_diag. reflexivity.
Qed.

(** C3. A call of [consoleread] that finds the EOF code first returns 0
    with nothing copied and [r] moved past the marker. A call that has
    copied [k >= 1] chars when it finds the EOF code returns [k] with those
    chars and leaves [r] on the marker, so that the next call (of any
    positive count) returns 0 and only then moves [r] past it. *)
Theorem consoleread_eof (killed : bool) (i : Input.t) :
  (forall n, 0 < n < 2 ^ 31 -> Input.r i <> Input.w i ->
     load (Input.buf i) (Input.r i mod INPUT_BUF) = ctrl_D ->
     consoleread killed i n = Returns 0 [] (set_r i (u32 (Input.r i + 1))))
  /\ (forall n k, (1 <= k)%nat -> Z.of_nat k < n < 2 ^ 31 ->
     0 <= Input.r i -> Input.r i + Z.of_nat k < Input.w i ->
     Input.w i < 2 ^ 32 ->
     Forall (fun c => c <> ctrl_D /\ c <> 10) (pending i k) ->
     load (Input.buf i) ((Input.r i + Z.of_nat k) mod INPUT_BUF) = ctrl_D ->
     consoleread killed i n
       = Returns (Z.of_nat k) (pending i k) (set_r i (Input.r i + Z.of_nat k))
     /\ forall killed' n', 0 < n' < 2 ^ 31 ->
        consoleread killed' (set_r i (Input.r i + Z.of_nat k)) n'
        = Returns 0 [] (set_r i (Input.r i + Z.of_nat k + 1))).
Proof.
  split; [intros; now apply consoleread_eof_first|].
  intros n k Hk Hn H0 Hw Hw32 Hc Heof. split.
  - unfold consoleread. destruct (Z.gtb_spec n 0); [|lia].
    replace (Z.to_nat n) with (k + S (Z.to_nat n - k - 1))%nat by lia.
    rewrite consoleread_loop_chars by (try assumption; lia).
    cbn [app consoleread_loop set_r Input.r Input.w Input.buf Input.e Input.max].
    destruct (Z.eqb_spec (Input.r i + Z.of_nat k) (Input.w i)); [lia|].
    rewrite Heof. change (ctrl_D =? ctrl_D) with true. cbv iota.
    rewrite (u32_small n) by lia.
    destruct (Z.ltb_spec (Z.of_nat (S (Z.to_nat n - k - 1))) n); [|lia].
    rewrite (u32_small (Input.r i + Z.of_nat k + 1)) by lia.
    replace (Input.r i + Z.of_nat k + 1 - 1) with (Input.r i + Z.of_nat k) by lia.
    rewrite (u32_small (Input.r i + Z.of_nat k)) by lia.
    replace (n - Z.of_nat (S (Z.to_nat n - k - 1))) with (Z.of_nat k) by lia.
    rewrite s32_small by lia. reflexivity.
  - intros killed' n' Hn'.
    rewrite consoleread_eof_first; cbn [set_r Input.r Input.w Input.buf];
      try assumption; try lia.
    rewrite u32_small by lia. reflexivity.
Qed.

(** With [hi_eof] a call for 10 chars returns 2, the next one returns 0. *)
Lemma consoleread_eof_witness :
  consoleread false hi_eof 10 = Returns 2 [104; 105] (set_r hi_eof 2)
  /\ consoleread false (set_r hi_eof 2) 10 = Returns 0 [] (set_r hi_eof 3).
Proof.
  destruct (proj2 (consoleread_eof false hi_eof) 10 2%nat) as [H1 H2].
  - lia.
  - lia.
  - cbn. lia.
  - cbn. lia.
  - cbn. lia.
  - repeat constructor; discriminate.
  - reflexivity.
  - split; [exact H1|]. apply (H2 false 10). lia.
Defined.

(** ** A line and its reader *)

Lemma load_store (m : list Z) i v j :
  0 <= i < Z.of_nat (length m) -> 0 <= j ->
  load (firstn (Z.to_nat i) m ++ v :: skipn (Z.to_nat (i + 1)) m) j
  = if j =? i then v else load m j.
Proof.
  intros Hi Hj. unfold load.
  assert (Hl : length (firstn (Z.to_nat i) m) = Z.to_nat i)
    by (rewrite length_firstn; lia).
  destruct (Z.eqb_spec j i) as [->|Hne].
  - rewrite <- Hl at 1. apply nth_middle.
  - destruct (Z.lt_ge_cases j i).
    + rewrite app_nth1 by lia. rewrite nth_firstn.
      destruct (Nat.ltb_spec (Z.to_nat j) (Z.to_nat i)); [reflexivity|lia].
    + rewrite app_nth2 by lia. rewrite Hl.
      replace (Z.to_nat j - Z.to_nat i)%nat with (S (Z.to_nat j - Z.to_nat i - 1))
        by lia.
      cbn [nth]. rewrite nth_skipn. f_equal. lia.
Qed.

Lemma pending_snoc i k :
  pending i (S k)
  = pending i k
    ++ [load (Input.buf i) ((Input.r i + Z.of_nat k) mod INPUT_BUF)].
Proof. unfold pending. rewrite seq_S, map_app. reflexivity. Qed.

Lemma pending_ext i i' k :
  Input.r i' = Input.r i ->
  (forall j, 0 <= j < Z.of_nat k ->
     load (Input.buf i') ((Input.r i + j) mod INPUT_BUF)
     = load (Input.buf i) ((Input.r i + j) mod INPUT_BUF)) ->
  pending i' k = pending i k.
Proof.
  intros Hr H. unfold pending. apply map_ext_in. intros j Hj.
  apply in_seq in Hj. rewrite Hr. apply H. lia.
Qed.





(** ** Newlines and the scroll *)

Lemma cga_puts_app st a b :
  cga_puts st (a ++ b) = (st1 <- cga_puts st a ;; cga_puts st1 b).
Proof.
  revert st. induction a as [|c a IH]; intros st; cbn [app cga_puts].
  - reflexivity.
  - rewrite bind_assoc. destruct (cgaputc st c); cbn [bind]; [apply IH|reflexivity].
Qed.

Lemma count_scrolls_app st a b :
  count_scrolls st (a ++ b)
  = (count_scrolls st a
     + match cga_puts st a with
       | Done st1 => count_scrolls st1 b
       | Stop _ => 0
       end)%nat.
Proof.
  revert st. induction a as [|c a IH]; intros st;
    cbn [app cga_puts count_scrolls].
  - reflexivity.
  - destruct (cgaputc st c) as [st1|]; cbn [bind]; [rewrite IH|]; lia.
Qed.

(** A newline above row 23 moves the cursor to the next row and nothing
    else. *)
Lemma cgaputc_newline_noscroll st q :
  cga_getpos st = BUFF_SIZE * q -> 0 <= q < 23 ->
  exists st', cgaputc st 10 = Done st' /\ cgaputc_scrolls st 10 = false
    /\ crt st' = crt st /\ cga_getpos st' = BUFF_SIZE * (q + 1).
Proof.
  intros Hp Hq. unfold cgaputc, cgaputc_scrolls, cga_edit. rewrite Hp.
  change (10 =? 10) with true. cbv iota. cbn [bind].
  unfold BUFF_SIZE in *.
  rewrite Z.rem_mod_nonneg by lia.
  rewrite (Z.mul_comm 80 q), Z.mod_mul by discriminate.
  replace (q * 80 + (80 - 0)) with (80 * (q + 1)) by lia.
  destruct (Z.ltb_spec (80 * (q + 1)) 0); [lia|].
  destruct (Z.gtb_spec (80 * (q + 1)) (25 * 80)); [lia|].
  cbn [orb negb andb]. unfold cga_scroll.
  rewrite cga_scrolls_spec by lia.
  destruct (Z.leb_spec 1920 (80 * (q + 1))); [lia|]. cbn [bind].
  eexists. split; [reflexivity|]. split; [reflexivity|].
  split; [reflexivity|]. apply cga_getpos_set_screen. lia.
Qed.

(** A newline in row 23 scrolls: rows 1..23 move up by one row, row 23 is
    cleared, the cells of row 24 stay, the cursor is at the start of
    row 23. *)
Lemma cgaputc_newline_scroll st :
  length (crt st) = 2000%nat -> 1840 <= cga_getpos st < 1920 ->
  exists st', cgaputc st 10 = Done st' /\ cgaputc_scrolls st 10 = true
    /\ cga_getpos st' = 1840
    /\ crt st' = firstn (Z.to_nat 1840) (skipn (Z.to_nat 80) (crt st))
                 ++ repeat 0 (Z.to_nat 80) ++ skipn (Z.to_nat 1920) (crt st).
Proof.
  intros Hl Hp. unfold cgaputc, cgaputc_scrolls, cga_edit.
  change (10 =? 10) with true. cbv iota. cbn [bind]. unfold BUFF_SIZE.
  rewrite Z.rem_mod_nonneg by lia.
  assert (E : cga_getpos st + (80 - cga_getpos st mod 80) = 1920).
  { pose proof (Z.div_mod (cga_getpos st) 80).
    pose proof (Z.mod_pos_bound (cga_getpos st) 80).
    lia. }
  rewrite E. change ((1920 <? 0) || (1920 >? 25 * 80)) with false.
  cbv iota. unfold cga_scroll. change (cga_scrolls 1920) with true.
  cbv iota. unfold BUFF_SIZE.
  change (crt_cells (23 * 80)) with 1840.
  change (crt_cells (24 * 80 - (1920 - 80))) with 80.
  change (1920 - 80) with 1840.
  rewrite memmove_defined by lia. cbn [of_option bind].
  match goal with |- context [memset ?l _ _ _] => set (m1 := l) end.
  assert (Hl1 : length m1 = 2000%nat).
  { subst m1. rewrite !length_app, !length_firstn, !length_skipn. lia. }
  rewrite memset_defined by lia. cbn [of_option bind].
  eexists. split; [reflexivity|]. split; [reflexivity|].
  split; [apply cga_getpos_set_screen; lia|].
  cbn [crt set_screen]. subst m1. change (Z.to_nat 0) with 0%nat.
  cbn [firstn app]. change (0 + 1840) with 1840. change (1840 + 80) with 1920.
  f_equal.
  - rewrite firstn_app, firstn_firstn, length_firstn, length_skipn.
    replace (Z.to_nat 1840 - Init.Nat.min (Z.to_nat 1840) (length (crt st) - Z.to_nat 80))%nat
      with 0%nat by lia.
    rewrite Nat.min_id. cbn [firstn]. apply app_nil_r.
  - f_equal. rewrite skipn_app, length_firstn, length_skipn.
    rewrite (skipn_all2 (firstn _ _))
      by (rewrite length_firstn, length_skipn; lia).
    cbn [app]. rewrite skipn_skipn. f_equal. lia.
Qed.

(** The rows of a scrolled grid. *)
Lemma rows_scrolled (m : list Z) :
  length m = 2000%nat ->
  let m' := firstn (Z.to_nat 1840) (skipn (Z.to_nat 80) m)
            ++ repeat 0 (Z.to_nat 80) ++ skipn (Z.to_nat 1920) m in
  (forall k, 0 <= k < 23 -> row k m' = row (k + 1) m)
  /\ row 23 m' = repeat 0 (Z.to_nat 80)
  /\ row 24 m' = row 24 m.
Proof.
  intros Hl m'. unfold row, BUFF_SIZE.
  assert (Ha : length (firstn (Z.to_nat 1840) (skipn (Z.to_nat 80) m))
               = Z.to_nat 1840)
    by (rewrite length_firstn, length_skipn; lia).
  repeat split.
  - intros k Hk. subst m'. rewrite skipn_app, Ha, firstn_app.
    rewrite skipn_firstn_comm, skipn_skipn, firstn_firstn, length_firstn,
      length_skipn.
    replace (Z.to_nat 80 - Init.Nat.min (Z.to_nat 1840 - Z.to_nat (80 * k))
               (length m - (Z.to_nat (80 * k) + Z.to_nat 80)))%nat
      with 0%nat by lia.
    cbn [firstn]. rewrite app_nil_r.
    replace (Z.to_nat (80 * k) + Z.to_nat 80)%nat with (Z.to_nat (80 * (k + 1)))
      by lia.
    f_equal. lia.
  - subst m'. rewrite skipn_app, Ha.
    rewrite (skipn_all2 (firstn _ _)) by lia. cbn [app].
    replace (Z.to_nat (80 * 23) - Z.to_nat 1840)%nat with 0%nat by lia.
    cbn [skipn]. rewrite firstn_app, repeat_length.
    replace (Z.to_nat 80 - Z.to_nat 80)%nat with 0%nat by lia.
    cbn [firstn]. rewrite app_nil_r. apply firstn_all2.
    rewrite repeat_length. lia.
  - subst m'. rewrite skipn_app, Ha.
    rewrite (skipn_all2 (firstn _ _)) by lia. cbn [app].
    rewrite skipn_app, repeat_length.
    rewrite (skipn_all2 (repeat _ _)) by (rewrite repeat_length; lia).
    cbn [app]. rewrite skipn_skipn. f_equal.
Qed.

(** Newlines from the start of a row down to row 23 at most: no scroll,
    the grid is as it was. *)
Lemma newlines_noscroll j : forall st q,
  cga_getpos st = BUFF_SIZE * q -> 0 <= q -> q + Z.of_nat j <= 23 ->
  exists st', cga_puts st (repeat 10 j) = Done st'
    /\ count_scrolls st (repeat 10 j) = 0%nat
    /\ crt st' = crt st /\ cga_getpos st' = BUFF_SIZE * (q + Z.of_nat j).
Proof.
  induction j as [|j IH]; intros st q Hp Hq Hj;
    cbn [repeat cga_puts count_scrolls].
  - exists st. rewrite Z.add_0_r. auto.
  - destruct (cgaputc_newline_noscroll st q Hp) as (st1 & -> & -> & Hm1 & Hp1);
      [lia|].
    cbn [bind]. destruct (IH st1 (q + 1) Hp1) as (st' & -> & -> & Hm' & Hp');
      [lia|lia|].
    exists st'. repeat split; [congruence|]. rewrite Hp'. f_equal. lia.
Qed.

Lemma newline_scrolls_row23 st :
  length (crt st) = 2000%nat -> cga_getpos st = 1840 ->
  exists st', newline_scrolls st st' /\ length (crt st') = 2000%nat.
Proof.
  intros Hl Hp.
  destruct (cgaputc_newline_scroll st Hl) as (st' & E & Es & Hp' & Hm');
    [lia|].
  exists st'. unfold newline_scrolls.
  destruct (rows_scrolled (crt st) Hl) as (R1 & R2 & R3).
  rewrite Hm'. repeat split; try assumption.
  - unfold cga_edit. rewrite Hp. reflexivity.
  - rewrite !length_app, length_firstn, repeat_length, !length_skipn. lia.
Qed.

(** C5, as the code has it. On the 80x25 grid with the cursor at offset 0, the first
    23 of 25 newlines take the cursor to the start of row 23 without a
    scroll and without a change to the grid; the 24th and the 25th each
    bring the position to the start of row 24 and scroll, so there are two
    scrolls; each scroll moves rows 1..23 up to rows 0..22, blanks row 23,
    leaves row 24 as it was and takes one row's width from the position,
    which is written back as the start of row 23. *)
Theorem newlines_scroll_twice (st : console) :
  cga_getpos st = 0 -> length (crt st) = 2000%nat ->
  exists st23 st24 st25,
    cga_puts st (repeat 10 23) = Done st23
    /\ count_scrolls st (repeat 10 23) = 0%nat
    /\ crt st23 = crt st /\ cga_getpos st23 = 23 * BUFF_SIZE
    /\ newline_scrolls st23 st24
    /\ newline_scrolls st24 st25
    /\ cga_puts st (repeat 10 25) = Done st25
    /\ count_scrolls st (repeat 10 25) = 2%nat.
Proof.
  intros Hp Hl.
  destruct (newlines_noscroll 23 st 0) as (st23 & E23 & C23 & Hm23 & Hp23);
    [rewrite Hp; reflexivity|lia|cbn; lia|].
  change (BUFF_SIZE * (0 + Z.of_nat 23)) with 1840 in Hp23.
  destruct (newline_scrolls_row23 st23) as (st24 & S24 & Hl24);
    [congruence|assumption|].
  destruct (newline_scrolls_row23 st24) as (st25 & S25 & Hl25);
    [assumption|apply S24|].
  exists st23, st24, st25.
  repeat (split; [assumption|]).
  pose proof S24 as (_ & E24 & B24 & _). pose proof S25 as (_ & E25 & B25 & _).
  change (repeat 10 25) with (repeat 10 23 ++ [10; 10]).
  rewrite cga_puts_app, count_scrolls_app, E23, C23.
  cbn [bind cga_puts count_scrolls]. rewrite E24, B24. cbn [bind].
  rewrite E25, B25. split; reflexivity.
Qed.

(** The boot screen: 25 newlines scroll twice. *)
Lemma newlines_scroll_twice_witness :
  count_scrolls console0 (repeat 10 25) = 2%nat.
Proof.
  destruct (newlines_scroll_twice console0) as (? & ? & ? & H).
  - reflexivity.
  - apply repeat_length.
  - apply H.
Defined.

(** C5 as it is stated fails on that grid with the cursor at offset 0: the
    25 newlines scroll twice, not once, and the scroll of the 24th newline
    leaves row 24 as it was (not blank) and row 23 blank (not a copy of
    row 24). *)
Lemma newlines_scroll_once_counterexample :
  count_scrolls numbered_screen (repeat 10 25) <> 1%nat
  /\ exists st23 st24,
       cga_puts numbered_screen (repeat 10 23) = Done st23
       /\ cgaputc st23 10 = Done st24
       /\ cgaputc_scrolls st23 10 = true
       /\ row 24 (crt st24) = repeat 24 80
       /\ row 24 (crt st24) <> repeat 0 80
       /\ row 23 (crt st24) <> row 24 (crt st23).
Proof.
  split.
  - vm_compute. discriminate.
  - do 2 eexists. split; [vm_compute; reflexivity|].
    split; [vm_compute; reflexivity|]. split; [vm_compute; reflexivity|].
    split; [vm_compute; reflexivity|].
    split; vm_compute; discriminate.
Qed.

(** * Further properties *)

(** ** printint *)

Lemma digits_nth v :
  0 <= v < 16 ->
  exists d, nth_error digits (Z.to_nat v) = Some d
    /\ digit_value d = v /\ (48 <= d <= 57 \/ 97 <= d <= 102).
Proof.
  intros Hv.
  assert (H : v = 0 \/ v = 1 \/ v = 2 \/ v = 3 \/ v = 4 \/ v = 5 \/ v = 6
              \/ v = 7 \/ v = 8 \/ v = 9 \/ v = 10 \/ v = 11 \/ v = 12
              \/ v = 13 \/ v = 14 \/ v = 15) by lia.
  repeat (destruct H as [-> | H]);
    try subst v;
    (eexists; split; [reflexivity|]; split; [reflexivity|cbn; lia]).
Qed.

(** The [do ... while] on a number below [base ^ k] writes at most [k]
    digits, given room for them; they are digits of [base] and stand for
    the number. *)
Lemma printint_digits_ok base :
  2 <= base <= 16 ->
  forall room k x, (1 <= k <= room)%nat -> 0 <= x < base ^ Z.of_nat k ->
  exists ds, printint_digits room x base = Some ds
    /\ (1 <= length ds <= k)%nat
    /\ decode base ds = x
    /\ Forall (is_digit base) ds.
Proof.
  intros Hb. induction room as [|room IH]; intros k x Hk Hx; [lia|].
  cbn [printint_digits].
  pose proof (Z.mod_pos_bound x base ltac:(lia)) as Hm.
  destruct (digits_nth (x mod base)) as (d & -> & Hd & Hc); [lia|].
  pose proof (Z.div_mod x base ltac:(lia)) as Hdm.
  assert (Hq : 0 <= x / base) by (apply Z.div_pos; lia).
  destruct (Z.eqb_spec (x / base) 0) as [E|E].
  - exists [d]. cbn [length decode]. split; [reflexivity|].
    split; [lia|]. split; [lia|].
    constructor; [split; [exact Hc|lia]|constructor].
  - destruct k as [|[|k]]; [lia| |].
    + exfalso. apply E. apply Z.div_small. cbn in Hx. lia.
    + destruct (IH (S k) (x / base)) as (ds & -> & Hl & Hdec & Hall); [lia| |].
      { split; [lia|]. apply Z.div_lt_upper_bound; [lia|].
        replace (Z.of_nat (S (S k))) with (Z.succ (Z.of_nat (S k))) in Hx by lia.
        rewrite Z.pow_succ_r in Hx by lia. lia. }
      cbn [option_map]. exists (d :: ds). cbn [length decode].
      rewrite Hdec. split; [reflexivity|]. split; [lia|]. split; [lia|].
      constructor; [|exact Hall]. split; [exact Hc|lia].
Qed.

(** X1. For the two bases [cprintf] uses, 10 and 16, [printint] never
    writes outside [char buf[16]]: any 32-bit value takes at most 10
    digits, 11 chars with the sign. *)
Theorem printint_buf_fits (xx base sign : Z) :
  base = 10 \/ base = 16 ->
  exists b, printint_buf xx base sign = Some b
    /\ (1 <= length b <= 11)%nat.
Proof.
  intros Hb. unfold printint_buf.
  set (neg := negb (sign =? 0) && (xx <? 0)).
  set (x := if neg then u32 (- xx) else u32 xx).
  assert (Hx : 0 <= x < 2 ^ 32) by (subst x; destruct neg; apply u32_range).
  assert (Hu : u32 base = base) by (destruct Hb as [-> | ->]; reflexivity).
  rewrite Hu. replace (base =? 0) with false
    by (destruct Hb as [-> | ->]; reflexivity).
  destruct (printint_digits_ok base ltac:(lia) 16 10 x) as (ds & -> & Hl & _).
  { lia. }
  { split; [lia|]. destruct Hb as [-> | ->]; cbn; lia. }
  destruct neg.
  - destruct (Z.ltb_spec (Z.of_nat (length ds)) 16); [|lia].
    eexists. split; [reflexivity|]. rewrite length_app. cbn [length]. lia.
  - eexists. split; [reflexivity|]. lia.
Qed.

Lemma printint_buf_fits_witness :
  exists b, printint_buf (- 2147483648) 10 1 = Some b
    /\ (1 <= length b <= 11)%nat.
Proof. apply printint_buf_fits. left. reflexivity. Defined.

(** The last digit written, the most significant one, is not [0] unless
    the number is 0. *)
Lemma printint_digits_msd base :
  2 <= base <= 16 ->
  forall room x ds, 0 < x -> printint_digits room x base = Some ds ->
  digit_value (last ds 0) <> 0.
Proof.
  intros Hb. induction room as [|room IH]; intros x ds Hx; [discriminate|].
  cbn [printint_digits].
  pose proof (Z.mod_pos_bound x base ltac:(lia)) as Hm.
  destruct (digits_nth (x mod base)) as (d & -> & Hd & Hc); [lia|].
  pose proof (Z.div_mod x base ltac:(lia)) as Hdm.
  assert (Hq : 0 <= x / base) by (apply Z.div_pos; lia).
  destruct (Z.eqb_spec (x / base) 0) as [E|E].
  - intros [= <-]. cbn [last]. lia.
  - destruct (printint_digits room (x / base) base) as [ds'|] eqn:E';
      [|discriminate].
    intros [= <-]. specialize (IH (x / base) ds' ltac:(lia) E').
    destruct ds' as [|d' ds']; [|exact IH].
    destruct room; discriminate || (cbn in E';
      destruct (nth_error digits _); [destruct (_ =? 0); [discriminate|]|discriminate];
      destruct (printint_digits _ _ _); discriminate).
Qed.

(** X2. What [printint] hands to [consputc], for base 10 or 16 and an
    [int] argument: a minus sign if [sign] is set and the argument is
    negative, then the digits of its magnitude, most significant first
    (the reverse of [buf]), with no leading [0] unless the number is 0;
    without [sign], or for an argument that is not negative, the number
    printed is the unsigned 32-bit number with the bits of the argument. *)
Theorem printint_text (st : console) (xx base sign : Z) :
  base = 10 \/ base = 16 -> - 2 ^ 31 <= xx < 2 ^ 31 ->
  exists ds,
    printint st xx base sign
    = consputs st ((if negb (sign =? 0) && (xx <? 0) then [45] else [])
                   ++ rev ds)
    /\ Forall (is_digit base) ds
    /\ decode base ds
       = (if negb (sign =? 0) && (xx <? 0) then - xx else u32 xx)
    /\ (1 <= length ds <= 10)%nat
    /\ (xx <> 0 -> digit_value (last ds 0) <> 0).
Proof.
  intros Hb Hxx. unfold printint, printint_buf.
  set (neg := negb (sign =? 0) && (xx <? 0)).
  set (x := if neg then u32 (- xx) else u32 xx).
  assert (Hneg : neg = true -> xx < 0).
  { subst neg. intros H. apply andb_prop in H as [_ H]. now apply Z.ltb_lt. }
  assert (Hx : 0 <= x < 2 ^ 32) by (subst x; destruct neg; apply u32_range).
  assert (Hx' : x = if neg then - xx else u32 xx).
  { subst x. destruct neg; [|reflexivity].
    apply u32_small. specialize (Hneg eq_refl). lia. }
  assert (Hu : u32 base = base) by (destruct Hb as [-> | ->]; reflexivity).
  rewrite Hu. replace (base =? 0) with false
    by (destruct Hb as [-> | ->]; reflexivity).
  destruct (printint_digits_ok base ltac:(lia) 16 10 x)
    as (ds & E & Hl & Hdec & Hall).
  { lia. }
  { split; [lia|]. destruct Hb as [-> | ->]; cbn; lia. }
  rewrite E. exists ds.
  assert (Hmsd : xx <> 0 -> digit_value (last ds 0) <> 0).
  { intros Hnz. apply (printint_digits_msd base ltac:(lia) 16 x ds); [|exact E].
    rewrite Hx'. destruct neg.
    - specialize (Hneg eq_refl). lia.
    - unfold u32. destruct (Z.eq_dec (xx mod 2 ^ 32) 0) as [E0|E0].
      + apply Z.mod_divide in E0; [|discriminate]. destruct E0 as [q Hq]. lia.
      + pose proof (Z.mod_pos_bound xx (2 ^ 32) eq_refl). lia. }
  rewrite <- Hx'. repeat (split; [|assumption || lia || idtac]);
    try assumption; try lia.
  destruct neg.
  - destruct (Z.ltb_spec (Z.of_nat (length ds)) 16); [|lia].
    cbn [of_option bind]. rewrite rev_app_distr. reflexivity.
  - reflexivity.
Qed.

(** [-42] in signed decimal: a minus sign, [4], [2]. *)
Lemma printint_text_witness :
  exists ds,
    printint console0 (- 42) 10 1 = consputs console0 (45 :: rev ds)
    /\ decode 10 ds = 42.
Proof.
  destruct (printint_text console0 (- 42) 10 1) as (ds & E & _ & D & _).
  - left. reflexivity.
  - lia.
  - exists ds. split; [exact E|exact D].
Defined.

(** ** cprintf *)

Lemma consputs_app st a b :
  consputs st (a ++ b) = (st1 <- consputs st a ;; consputs st1 b).
Proof.
  revert st. induction a as [|c a IH]; intros st; cbn [app consputs].
  - reflexivity.
  - rewrite bind_assoc. apply bind_ext. intros st1. apply IH.
Qed.

Lemma printint_number_text st xx base sign :
  base = 10 \/ base = 16 ->
  printint st xx base sign = consputs st (number_text xx base sign).
Proof.
  intros Hb. unfold printint, number_text.
  destruct (printint_buf_fits xx base sign Hb) as (b & -> & _). reflexivity.
Qed.

(** X3. A call of [cprintf] does what [consputc] does on the chars of its
    text, one after the other: plain bytes as they are, numbers as
    [printint] writes them, strings up to their terminator (["(null)"] for
    a null pointer), [%] for [%%], [%] and the character for an unknown
    directive, nothing from the terminator on. No call of [cprintf] with a
    format runs into undefined behaviour of its own. *)
Theorem cprintf_is_consputs (args : nat -> Z) (str_at : Z -> list Z)
    (fmt : list Z) (st : console) (argp : nat) :
  cprintf_loop args str_at st fmt argp
  = consputs st (cprintf_text args str_at fmt argp).
Proof.
  revert st argp.
  enough (H : (forall st argp, cprintf_loop args str_at st fmt argp
                 = consputs st (cprintf_text args str_at fmt argp))
              /\ (forall ch st argp,
                    cprintf_loop args str_at st (ch :: fmt) argp
                    = consputs st (cprintf_text args str_at (ch :: fmt) argp)))
    by apply H.
  induction fmt as [|a fmt [IH1 IH2]].
  - split; [reflexivity|]. intros ch st argp. cbn [cprintf_loop cprintf_text].
    destruct (Z.land ch 255 =? 0); [reflexivity|].
    destruct (Z.land ch 255 =? 37); cbn [negb consputs]; [reflexivity|].
    apply bind_ext. reflexivity.
  - split; [apply IH2|]. intros ch st argp.
    cbn [cprintf_loop cprintf_text].
    destruct (Z.land ch 255 =? 0); [reflexivity|].
    destruct (Z.land ch 255 =? 37); cbn [negb consputs].
    2: { apply bind_ext. intros st1. apply IH2. }
    destruct (Z.land a 255 =? 0); [reflexivity|].
    destruct (Z.land a 255 =? 100).
    { rewrite consputs_app, printint_number_text by (left; reflexivity).
      apply bind_ext. intros st1. apply IH1. }
    destruct ((Z.land a 255 =? 120) || (Z.land a 255 =? 112)).
    { rewrite consputs_app, printint_number_text by (right; reflexivity).
      apply bind_ext. intros st1. apply IH1. }
    destruct (Z.land a 255 =? 115).
    { rewrite consputs_app. apply bind_ext. intros st1. apply IH1. }
    destruct (Z.land a 255 =? 37); cbn [consputs].
    { apply bind_ext. intros st1. apply IH1. }
    apply bind_ext. intros st1. apply bind_ext. intros st2. apply IH1.
Qed.

(** ** The serial port *)

Lemma consputc_uart st c st' :
  consputc st c = Done st' -> uart st' = uart st ++ serial_of c.
Proof.
  unfold consputc, serial_of. destruct (panicked st); [discriminate|].
  intros H. apply cgaputc_frame in H as (_ & -> & _).
  destruct (c =? BACKSPACE).
  - rewrite !uart_uartputc, <- !app_assoc. reflexivity.
  - destruct (c =? UP), (c =? DOWN), (c =? LEFT), (c =? RIGHT);
      cbn [negb andb orb]; rewrite ?uart_uartputc, ?app_nil_r; reflexivity.
Qed.

(** X4. The serial port receives, in the order of the calls of [consputc],
    backspace, space, backspace for every [BACKSPACE], nothing for the
    arrow codes and every other code as it is; nothing else is ever sent
    and nothing sent is taken back. *)
Theorem consputs_uart (cs : list Z) (st st' : console) :
  consputs st cs = Done st' ->
  uart st' = uart st ++ flat_map serial_of cs.
Proof.
  revert st. induction cs as [|c cs IH]; intros st; cbn [consputs flat_map].
  - intros [= <-]. now rewrite app_nil_r.
  - intros H. apply bind_inv in H as (st1 & H1 & H).
    rewrite (IH _ H), (consputc_uart _ _ _ H1), app_assoc. reflexivity.
Qed.

(** ["a"], [BACKSPACE], [LEFT], ["b"] on the boot console. *)
Lemma consputs_uart_witness :
  exists st', consputs console0 [97; BACKSPACE; LEFT; 98] = Done st'
    /\ uart st' = [97; 8; 32; 8; 98].
Proof.
  destruct (consputs_ok console0 [97; BACKSPACE; LEFT; 98] echo_ok_console0)
    as (st' & E & _).
  exists st'. split; [exact E|]. apply (consputs_uart _ _ _ E).
Defined.

(** X5. On a console that is not panicked and has its cursor in rows 0..23
    of the 80x25 grid, a call of [cprintf] with a format returns: it does
    not reach [panic], the console is again such a console, [input] is
    untouched, and the serial port has received the text of the call
    (backspace codes and arrow codes of the text as [consputc] sends
    them). *)
Theorem cprintf_returns (args : nat -> Z) (str_at : Z -> list Z)
    (st : console) (fmt : list Z) :
  echo_ok st ->
  exists st', cprintf args str_at st (Some fmt) = Done st'
    /\ echo_ok st' /\ input st' = input st
    /\ uart st' = uart st ++ flat_map serial_of (cprintf_text args str_at fmt 0).
Proof.
  intros He. unfold cprintf. rewrite cprintf_is_consputs.
  destruct (consputs_ok st (cprintf_text args str_at fmt 0) He)
    as (st' & E & He' & Hi).
  exists st'. repeat split; try assumption; try apply He'.
  now apply consputs_uart.
Qed.

(** ["x=%x"] with the argument 255 on the boot console. *)
Lemma cprintf_returns_witness :
  exists st', cprintf (fun _ => 255) (fun _ => []) console0
                      (Some (chars "x=%x")) = Done st'
    /\ uart st' = chars "x=ff".
Proof.
  destruct (cprintf_returns (fun _ => 255) (fun _ => []) console0
              (chars "x=%x") echo_ok_console0) as (st' & E & _ & _ & U).
  exists st'. split; [exact E|exact U].
Defined.

(** ** consolewrite *)

Lemma serial_of_byte c :
  serial_of (Z.land c 0xff)
  = if (Z.land c 0xff =? UP) || (Z.land c 0xff =? DOWN)
       || (Z.land c 0xff =? LEFT) || (Z.land c 0xff =? RIGHT)
    then [] else [Z.land c 0xff].
Proof.
  unfold serial_of.
  assert (H : 0 <= Z.land c 255 < 256).
  { change 255 with (Z.ones 8). rewrite Z.land_ones by lia.
    apply Z.mod_pos_bound. reflexivity. }
  destruct (Z.eqb_spec (Z.land c 255) BACKSPACE) as [E|_]; [|reflexivity].
  unfold BACKSPACE in E. lia.
Qed.

(** X6. [consolewrite] on a console that can echo returns the count it was
    given, with [input] untouched. The serial port receives the low 8 bits
    of each byte, in order, except the bytes 226..229, which [consputc]
    takes for arrow keys and only passes to the screen. No byte written
    reaches [consputc] as the code [BACKSPACE], which does not fit in 8
    bits, so no byte is expanded into the three bytes that [consputc]
    sends for that code (the bytes 8, 32 and 8 written as such pass through
    like any other): the serial port receives at most one byte, the byte
    itself, for each byte written. *)
Theorem consolewrite_serial (st : console) (buf : list Z) :
  echo_ok st ->
  exists st', consolewrite st buf = Done (st', Z.of_nat (length buf))
    /\ echo_ok st' /\ input st' = input st
    /\ uart st'
       = uart st
         ++ filter (fun c => negb ((c =? UP) || (c =? DOWN)
                                   || (c =? LEFT) || (c =? RIGHT)))
                   (map (fun c => Z.land c 0xff) buf)
    /\ Forall (fun c => c <> BACKSPACE) (map (fun c => Z.land c 0xff) buf)
    /\ (length (uart st') <= length (uart st) + length buf)%nat.
Proof.
  intros He. unfold consolewrite.
  destruct (consputs_ok st (map (fun c => Z.land c 255) buf) He)
    as (st' & E & He' & Hi).
  rewrite E. cbn [bind]. exists st'.
  assert (U : uart st'
              = uart st
                ++ filter (fun c => negb ((c =? UP) || (c =? DOWN)
                                          || (c =? LEFT) || (c =? RIGHT)))
                          (map (fun c => Z.land c 255) buf)).
  { rewrite (consputs_uart _ _ _ E). f_equal.
    clear. induction buf as [|c buf IH]; [reflexivity|].
    cbn [map flat_map filter]. rewrite serial_of_byte, IH.
    destruct ((Z.land c 255 =? UP) || (Z.land c 255 =? DOWN)
              || (Z.land c 255 =? LEFT) || (Z.land c 255 =? RIGHT));
      reflexivity. }
  split; [reflexivity|]. split; [exact He'|]. split; [exact Hi|].
  split; [exact U|]. split.
  - apply Forall_forall. intros c Hc. apply in_map_iff in Hc as (b & <- & _).
    assert (0 <= Z.land b 255 < 256).
    { change 255 with (Z.ones 8). rewrite Z.land_ones by lia.
      apply Z.mod_pos_bound. reflexivity. }
    unfold BACKSPACE. lia.
  - rewrite U, length_app.
    match goal with |- context [filter ?f ?l] =>
      pose proof (filter_length_le f l) as Hf end.
    rewrite length_map in Hf. lia.
Qed.

(** The bytes of ["a"], 228 and ["b"] written to the boot console. *)
Lemma consolewrite_serial_witness :
  exists st', consolewrite console0 [97; 228; 98] = Done (st', 3)
    /\ uart st' = [97; 98].
Proof.
  destruct (consolewrite_serial console0 [97; 228; 98] echo_ok_console0)
    as (st' & E & _ & _ & U & _).
  exists st'. split; [exact E|exact U].
Defined.

(** ** panic *)

Section PanicFacts.
Variable lapicid : Z.
Variable pcs : nat -> Z.
Variable junk : nat -> Z.
Variable str_at : Z -> list Z.

Lemma panic_pcs_returns idx : forall st,
  echo_ok st ->
  exists st', panic_pcs pcs junk str_at st idx = Done st'
    /\ echo_ok st' /\ input st' = input st
    /\ uart st' = uart st ++ flat_map serial_of (pcs_text pcs idx).
Proof.
  induction idx as [|i idx IH]; intros st He; cbn [panic_pcs].
  - exists st. rewrite app_nil_r. auto.
  - destruct (cprintf_returns (args_of [pcs i] junk) str_at st (chars " %p") He)
      as (st1 & -> & He1 & Hi1 & Hu1).
    cbn [bind]. destruct (IH st1 He1) as (st' & -> & He' & Hi' & Hu').
    exists st'. split; [reflexivity|]. split; [exact He'|].
    split; [congruence|]. rewrite Hu', Hu1. unfold pcs_text.
    cbn [flat_map]. rewrite flat_map_app, <- !app_assoc.
    f_equal. f_equal. change (cprintf_text (args_of [pcs i] junk) str_at (chars " %p") 0)
      with (32 :: number_text (s32 (pcs i)) 16 0 ++ []).
    rewrite app_nil_r. reflexivity.
Qed.

(** X7. [panic] with a message, on a console that can echo: its printing
    returns, so the [for(;;)] is reached, with [panicked] set and [input]
    untouched. The serial port has received ["lapicid "], the number of the
    processor in decimal, [": panic: "], the text of the message used as a
    format, a newline and ten times a space and a return address in
    hexadecimal. From then on no call of [consputc] returns. *)
Theorem panic_reports (st : console) (msg : list Z) :
  echo_ok st ->
  exists st', panic lapicid pcs junk str_at st (Some msg) = Done st'
    /\ panicked st' = true /\ input st' = input st
    /\ uart st'
       = uart st
         ++ flat_map serial_of
              (chars "lapicid " ++ number_text (s32 lapicid) 10 1
               ++ chars ": panic: " ++ cprintf_text junk str_at msg 0
               ++ [10] ++ pcs_text pcs (seq 0 10))
    /\ forall c, consputc st' c = Stop Halt.
Proof.
  intros He. unfold panic.
  destruct (cprintf_returns (args_of [lapicid] junk) str_at st
              (chars "lapicid %d: panic: ") He) as (st1 & -> & He1 & Hi1 & Hu1).
  cbn [bind].
  destruct (cprintf_returns junk str_at st1 msg He1)
    as (st2 & -> & He2 & Hi2 & Hu2).
  cbn [bind].
  destruct (cprintf_returns junk str_at st2 [10] He2)
    as (st3 & -> & He3 & Hi3 & Hu3).
  cbn [bind].
  destruct (panic_pcs_returns (seq 0 10) st3 He3)
    as (st4 & -> & He4 & Hi4 & Hu4).
  cbn [bind]. eexists. split; [reflexivity|]. cbn [panicked input uart].
  split; [reflexivity|]. split; [congruence|]. split; [|reflexivity].
  rewrite Hu4, Hu3, Hu2, Hu1. rewrite !flat_map_app, <- !app_assoc.
  f_equal.
  change (cprintf_text (args_of [lapicid] junk) str_at
            (chars "lapicid %d: panic: ") 0)
    with (chars "lapicid " ++ number_text (s32 lapicid) 10 1
          ++ chars ": panic: ").
  rewrite !flat_map_app, <- !app_assoc. reflexivity.
Qed.

End PanicFacts.

(** Processor 1 panics with ["pos under/overflow"] on the boot console. *)
Lemma panic_reports_witness :
  exists st',
    panic 1 (fun _ => 0) (fun _ => 0) (fun _ => []) console0
          (Some (chars "pos under/overflow")) = Done st'
    /\ panicked st' = true
    /\ firstn 36 (uart st')
       = chars "lapicid 1: panic: pos under/overflow".
Proof.
  destruct (panic_reports 1 (fun _ => 0) (fun _ => 0) (fun _ => []) console0
              (chars "pos under/overflow") echo_ok_console0)
    as (st' & E & P & _ & U & _).
  exists st'. split; [exact E|]. split; [exact P|]. rewrite U. reflexivity.
Defined.

(** ** Cells after a block move *)

Lemma load_memmove (m : list Z) dst src n m' j :
  memmove m dst src n = Some m' -> 0 <= j ->
  load m' j = if (dst <=? j) && (j <? dst + n)
              then load m (src + (j - dst)) else load m j.
Proof.
  unfold memmove. destruct (in_range m src n) eqn:Hs; cbn [andb]; [|discriminate].
  destruct (in_range m dst n) eqn:Hd; [|discriminate].
  apply in_range_spec in Hs, Hd. intros [= <-] Hj. unfold load.
  assert (Hl1 : length (firstn (Z.to_nat dst) m) = Z.to_nat dst)
    by (rewrite length_firstn; lia).
  assert (Hl2 : length (firstn (Z.to_nat n) (skipn (Z.to_nat src) m)) = Z.to_nat n)
    by (rewrite length_firstn, length_skipn; lia).
  destruct (Z.leb_spec dst j); cbn [andb].
  - rewrite app_nth2 by lia. rewrite Hl1.
    destruct (Z.ltb_spec j (dst + n)).
    + rewrite app_nth1 by lia. rewrite nth_firstn.
      destruct (Nat.ltb_spec (Z.to_nat j - Z.to_nat dst) (Z.to_nat n)); [|lia].
      rewrite nth_skipn. f_equal. lia.
    + rewrite app_nth2 by lia. rewrite Hl2, nth_skipn. f_equal. lia.
  - rewrite app_nth1 by lia. rewrite nth_firstn.
    destruct (Nat.ltb_spec (Z.to_nat j) (Z.to_nat dst)); [reflexivity|lia].
Qed.

Lemma load_store_some (m : list Z) i v m' j :
  store m i v = Some m' -> 0 <= j ->
  load m' j = if j =? i then v else load m j.
Proof.
  unfold store. destruct (in_range m i 1) eqn:Hi; [|discriminate].
  apply in_range_spec in Hi. intros [= <-] Hj. apply load_store; lia.
Qed.

(** ** The screen driver: what each code does to the grid *)

(** A call of [cgaputc] that computes a position in rows 0..23 writes that
    position and the cells of [cga_edit], and nothing else. *)
Lemma cgaputc_noscroll st c pos' m' :
  cga_edit c (cga_getpos st) (crt st) = Done (pos', m') ->
  0 <= pos' < 1920 ->
  exists st', cgaputc st c = Done st'
    /\ cga_getpos st' = pos' /\ crt st' = m'
    /\ panicked st' = panicked st /\ uart st' = uart st
    /\ input st' = input st.
Proof.
  intros He Hp. unfold cgaputc. rewrite He. cbn [bind]. unfold BUFF_SIZE.
  destruct (Z.ltb_spec pos' 0); [lia|].
  destruct (Z.gtb_spec pos' (25 * 80)); [lia|]. cbn [orb].
  unfold cga_scroll. rewrite cga_scrolls_spec by lia.
  destruct (Z.leb_spec 1920 pos'); [lia|]. cbn [bind].
  eexists. split; [reflexivity|].
  split; [apply cga_getpos_set_screen; lia|]. repeat split.
Qed.

Lemma cga_edit_printable c pos m :
  printable c ->
  cga_edit c pos m
  = (m1 <- of_option (memmove m (pos + 1) pos (crt_cells (24 * BUFF_SIZE - pos))) ;;
     m2 <- of_option (store m1 pos (Z.lor (Z.land c 0xff) 0x0700)) ;;
     Done (pos + 1, m2)).
Proof.
  intros (H1 & H2 & H3 & H4 & H5 & H6). unfold cga_edit.
  apply Z.eqb_neq in H1, H2, H3, H4, H5, H6.
  now rewrite H1, H2, H3, H4, H5, H6.
Qed.

(** What the branch of a printable code does to position and cells. *)
Lemma cga_edit_printable_cells (c pos : Z) (m : list Z) :
  printable c -> length m = 2000%nat -> 0 <= pos <= 1919 ->
  exists m', cga_edit c pos m = Done (pos + 1, m')
    /\ length m' = 2000%nat
    /\ forall j, 0 <= j ->
       load m' j
       = if j <? pos then load m j
         else if j =? pos then Z.lor (Z.land c 0xff) 0x0700
         else if j <=? 1920 then load m (j - 1)
         else load m j.
Proof.
  intros Hc Hl Hp.
  rewrite (cga_edit_printable c pos m Hc).
  unfold BUFF_SIZE. rewrite crt_cells_small by lia.
  destruct (memmove m (pos + 1) pos (24 * 80 - pos)) as [m1|] eqn:E1.
  2: { rewrite memmove_defined in E1 by lia. discriminate. }
  pose proof (memmove_length _ _ _ _ _ E1) as Hl1.
  cbn [of_option bind].
  destruct (store m1 pos (Z.lor (Z.land c 255) 1792)) as [m2|] eqn:E2.
  2: { rewrite store_defined in E2 by lia. discriminate. }
  pose proof (store_length _ _ _ _ E2) as Hl2.
  cbn [of_option bind]. exists m2. split; [reflexivity|].
  split; [congruence|]. intros j Hj.
  rewrite (load_store_some _ _ _ _ _ E2 Hj).
  rewrite (load_memmove _ _ _ _ _ _ E1 Hj).
  destruct (Z.ltb_spec j pos), (Z.eqb_spec j pos), (Z.leb_spec j 1920),
    (Z.leb_spec (pos + 1) j), (Z.ltb_spec j (pos + 1 + (24 * 80 - pos)));
    cbn [andb]; try lia; try reflexivity; f_equal; lia.
Qed.

(** X8. A printable code at a cursor [pos] that is not the last cell of
    row 23: the cell under the cursor takes the low 8 bits of the code with
    the attribute [0x0700], the cells before it keep their value, the cells
    from [pos] to the end of row 23 move one cell to the right, the last of
    them onto the first cell of row 24, the other cells of row 24 keep
    their value, and the cursor is one cell further. *)
Theorem cgaputc_inserts (st : console) (c : Z) :
  printable c -> length (crt st) = 2000%nat ->
  0 <= cga_getpos st < 1919 ->
  exists st', cgaputc st c = Done st'
    /\ cga_getpos st' = cga_getpos st + 1
    /\ length (crt st') = 2000%nat
    /\ forall j, 0 <= j ->
       load (crt st') j
       = if j <? cga_getpos st then load (crt st) j
         else if j =? cga_getpos st then Z.lor (Z.land c 0xff) 0x0700
         else if j <=? 1920 then load (crt st) (j - 1)
         else load (crt st) j.
Proof.
  intros Hc Hl Hp.
  destruct (cga_edit_printable_cells c (cga_getpos st) (crt st) Hc Hl)
    as (m' & He & Hl' & Hm); [lia|].
  destruct (cgaputc_noscroll st c _ _ He) as (st' & E & P & M & _); [lia|].
  exists st'. split; [exact E|]. split; [exact P|]. rewrite M.
  split; [exact Hl'|exact Hm].
Qed.

(** ["a"] on the boot screen: cell 0 holds [0x0761], the cursor is at 1. *)
Lemma cgaputc_inserts_witness :
  exists st', cgaputc console0 97 = Done st'
    /\ cga_getpos st' = 1 /\ load (crt st') 0 = 0x0761.
Proof.
  destruct (cgaputc_inserts console0 97) as (st' & E & P & _ & L).
  - repeat split; discriminate.
  - apply repeat_length.
  - cbn. lia.
  - exists st'. split; [exact E|]. split; [exact P|].
    rewrite (L 0); [reflexivity|lia].
Defined.

(** What the branch of [BACKSPACE] does to position and cells. *)
Lemma cga_edit_backspace_cells (pos : Z) (m : list Z) :
  length m = 2000%nat -> 0 <= pos < 1920 ->
  exists m', cga_edit BACKSPACE pos m = Done (Z.max 0 (pos - 1), m')
    /\ length m' = 2000%nat
    /\ forall j, 0 <= j ->
       load m' j
       = if (0 <? pos) && (pos - 1 <=? j) && (j <=? 1919)
         then load m (j + 1) else load m j.
Proof.
  intros Hl Hp.
  assert (He : cga_edit BACKSPACE pos m
               = if pos >? 0 then
                   m1 <- of_option (memmove m (pos - 1) (pos - 1 + 1)
                                      (crt_cells (24 * BUFF_SIZE - (pos - 1)))) ;;
                   Done (pos - 1, m1)
                 else Done (pos, m)) by reflexivity.
  rewrite He. clear He. unfold BUFF_SIZE.
  destruct (Z.gtb_spec pos 0) as [Hpos|Hpos].
  - rewrite crt_cells_small by lia.
    destruct (memmove m (pos - 1) (pos - 1 + 1) (24 * 80 - (pos - 1)))
      as [m1|] eqn:E1.
    2: { rewrite memmove_defined in E1 by lia. discriminate. }
    cbn [of_option bind]. exists m1.
    split; [do 2 f_equal; lia|].
    split; [rewrite (memmove_length _ _ _ _ _ E1); exact Hl|].
    intros j Hj. rewrite (load_memmove _ _ _ _ _ _ E1 Hj).
    destruct (Z.ltb_spec 0 pos), (Z.leb_spec (pos - 1) j), (Z.leb_spec j 1919),
      (Z.ltb_spec j (pos - 1 + (24 * 80 - (pos - 1))));
      cbn [andb]; try lia; try reflexivity; f_equal; lia.
  - exists m. split; [do 2 f_equal; lia|]. split; [exact Hl|].
    intros j Hj. destruct (Z.ltb_spec 0 pos); [lia|]. reflexivity.
Qed.

(** X9. [BACKSPACE] on the 80x25 grid with the cursor in rows 0..23: at
    offset 0 nothing changes; elsewhere the cursor goes one cell back and
    every cell from there to the end of row 23 takes the value of its right
    neighbour, the last cell of row 23 that of the first cell of row 24;
    all other cells keep their value. *)
Theorem cgaputc_backspace (st : console) :
  length (crt st) = 2000%nat -> 0 <= cga_getpos st < 1920 ->
  exists st', cgaputc st BACKSPACE = Done st'
    /\ cga_getpos st' = Z.max 0 (cga_getpos st - 1)
    /\ length (crt st') = 2000%nat
    /\ forall j, 0 <= j ->
       load (crt st') j
       = if (0 <? cga_getpos st) && (cga_getpos st - 1 <=? j) && (j <=? 1919)
         then load (crt st) (j + 1) else load (crt st) j.
Proof.
  intros Hl Hp.
  destruct (cga_edit_backspace_cells (cga_getpos st) (crt st) Hl Hp)
    as (m' & He & Hl' & Hm).
  destruct (cgaputc_noscroll st BACKSPACE _ _ He) as (st' & E & P & M & _);
    [lia|].
  exists st'. split; [exact E|]. split; [exact P|]. rewrite M.
  split; [exact Hl'|exact Hm].
Qed.

(** [BACKSPACE] on the boot screen, cursor at 0: the cursor stays. *)
Lemma cgaputc_backspace_witness :
  exists st', cgaputc console0 BACKSPACE = Done st' /\ cga_getpos st' = 0.
Proof.
  destruct (cgaputc_backspace console0) as (st' & E & P & _).
  - apply repeat_length.
  - cbn. lia.
  - exists st'. split; [exact E|exact P].
Defined.

(** X10. A printable code and then [BACKSPACE], with the cursor not on the
    last cell of row 23: the cursor is back where it was and rows 0..23
    hold what they held; of row 24 only the first cell has changed, to what
    the last cell of row 23 holds. *)
Theorem cgaputc_insert_backspace (st : console) (c : Z) :
  printable c -> length (crt st) = 2000%nat ->
  0 <= cga_getpos st < 1919 ->
  exists st1 st2,
    cgaputc st c = Done st1 /\ cgaputc st1 BACKSPACE = Done st2
    /\ cga_getpos st2 = cga_getpos st
    /\ (forall j, 0 <= j < 1920 -> load (crt st2) j = load (crt st) j)
    /\ load (crt st2) 1920 = load (crt st) 1919
    /\ (forall j, 1920 < j -> load (crt st2) j = load (crt st) j).
Proof.
  intros Hc Hl Hp.
  destruct (cga_edit_printable_cells c (cga_getpos st) (crt st) Hc Hl)
    as (m1 & He1 & L1 & C1); [lia|].
  destruct (cgaputc_noscroll st c _ _ He1) as (st1 & E1 & P1 & M1 & _); [lia|].
  rewrite <- M1 in L1, C1.
  destruct (cga_edit_backspace_cells (cga_getpos st1) (crt st1) L1)
    as (m2 & He2 & L2 & C2); [lia|].
  destruct (cgaputc_noscroll st1 BACKSPACE _ _ He2)
    as (st2 & E2 & P2 & M2 & _); [lia|].
  rewrite <- M2 in L2, C2.
  exists st1, st2. split; [exact E1|]. split; [exact E2|].
  split; [lia|]. rewrite P1 in C2.
  repeat split.
  - intros j Hj. rewrite C2 by lia.
    destruct (Z.ltb_spec 0 (cga_getpos st + 1)); [|lia].
    destruct (Z.leb_spec (cga_getpos st + 1 - 1) j), (Z.leb_spec j 1919);
      cbn [andb]; try lia; rewrite C1 by lia.
    + destruct (Z.ltb_spec (j + 1) (cga_getpos st)),
        (Z.eqb_spec (j + 1) (cga_getpos st)), (Z.leb_spec (j + 1) 1920);
        try lia; try reflexivity; f_equal; lia.
    + destruct (Z.ltb_spec j (cga_getpos st)); [reflexivity|lia].
  - rewrite C2 by lia.
    destruct (Z.ltb_spec 0 (cga_getpos st + 1)),
      (Z.leb_spec (cga_getpos st + 1 - 1) 1920), (Z.leb_spec 1920 1919);
      cbn [andb]; try lia.
    rewrite C1 by lia.
    destruct (Z.ltb_spec 1920 (cga_getpos st)),
      (Z.eqb_spec 1920 (cga_getpos st)), (Z.leb_spec 1920 1920);
      try lia; reflexivity.
  - intros j Hj. rewrite C2 by lia.
    destruct (Z.ltb_spec 0 (cga_getpos st + 1)),
      (Z.leb_spec (cga_getpos st + 1 - 1) j), (Z.leb_spec j 1919);
      cbn [andb]; try lia.
    rewrite C1 by lia.
    destruct (Z.ltb_spec j (cga_getpos st)),
      (Z.eqb_spec j (cga_getpos st)), (Z.leb_spec j 1920);
      try lia; reflexivity.
Qed.

(** ["a"] and [BACKSPACE] on the boot screen: the cursor is back at 0. *)
Lemma cgaputc_insert_backspace_witness :
  exists st1 st2,
    cgaputc console0 97 = Done st1 /\ cgaputc st1 BACKSPACE = Done st2
    /\ cga_getpos st2 = 0.
Proof.
  destruct (cgaputc_insert_backspace console0 97)
    as (st1 & st2 & E1 & E2 & P & _).
  - repeat split; discriminate.
  - apply repeat_length.
  - cbn. lia.
  - exists st1, st2. split; [exact E1|]. split; [exact E2|exact P].
Defined.

(** A call of [cgaputc] that computes the first position of row 24 scrolls
    and leaves the cursor at the start of row 23. *)
Lemma cgaputc_scroll_at_1920 st c m1 :
  cga_edit c (cga_getpos st) (crt st) = Done (1920, m1) ->
  length m1 = 2000%nat ->
  exists st', cgaputc st c = Done st' /\ cgaputc_scrolls st c = true
    /\ cga_getpos st' = 1840
    /\ crt st' = firstn (Z.to_nat 1840) (skipn (Z.to_nat 80) m1)
                 ++ repeat 0 (Z.to_nat 80) ++ skipn (Z.to_nat 1920) m1
    /\ panicked st' = panicked st /\ uart st' = uart st
    /\ input st' = input st.
Proof.
  intros He Hl. unfold cgaputc, cgaputc_scrolls. rewrite He. cbn [bind].
  change ((1920 <? 0) || (1920 >? 25 * BUFF_SIZE)) with false. cbv iota.
  unfold cga_scroll. change (cga_scrolls 1920) with true. cbv iota.
  unfold BUFF_SIZE.
  change (crt_cells (23 * 80)) with 1840.
  change (crt_cells (24 * 80 - (1920 - 80))) with 80.
  change (1920 - 80) with 1840.
  rewrite memmove_defined by lia. cbn [of_option bind].
  match goal with |- context [memset ?l _ _ _] => set (m2 := l) end.
  assert (Hl2 : length m2 = 2000%nat).
  { subst m2. rewrite !length_app, !length_firstn, !length_skipn. lia. }
  rewrite memset_defined by lia. cbn [of_option bind].
  eexists. split; [reflexivity|]. split; [reflexivity|].
  split; [apply cga_getpos_set_screen; lia|].
  split; [|repeat split].
  cbn [crt set_screen]. subst m2. change (Z.to_nat 0) with 0%nat.
  cbn [firstn app]. change (0 + 1840) with 1840. change (1840 + 80) with 1920.
  f_equal.
  - rewrite firstn_app, firstn_firstn, length_firstn, length_skipn.
    replace (Z.to_nat 1840 - Init.Nat.min (Z.to_nat 1840) (length m1 - Z.to_nat 80))%nat
      with 0%nat by lia.
    rewrite Nat.min_id. cbn [firstn]. apply app_nil_r.
  - f_equal. rewrite skipn_app, length_firstn, length_skipn.
    rewrite (skipn_all2 (firstn _ _))
      by (rewrite length_firstn, length_skipn; lia).
    cbn [app]. rewrite skipn_skipn. f_equal. lia.
Qed.

(** X11. With the cursor in rows 0..23 of the 80x25 grid no code makes
    [cgaputc] panic or leave the grid: every call returns, the cursor is
    again in rows 0..23, and [panicked], the serial output and [input] are
    untouched. *)
Theorem cgaputc_keeps_screen (st : console) (c : Z) :
  screen_ok st ->
  exists st', cgaputc st c = Done st' /\ screen_ok st'
    /\ panicked st' = panicked st /\ uart st' = uart st
    /\ input st' = input st.
Proof.
  intros H. destruct (cgaputc_ok st c H) as (st' & E & H').
  exists st'. split; [exact E|]. split; [exact H'|].
  exact (cgaputc_frame st c st' E).
Qed.

(** The right arrow on the boot screen. *)
Lemma cgaputc_keeps_screen_witness :
  exists st', cgaputc console0 RIGHT = Done st' /\ screen_ok st'.
Proof.
  destruct (cgaputc_keeps_screen console0 RIGHT) as (st' & E & H & _).
  - apply echo_ok_console0.
  - exists st'. split; [exact E|exact H].
Defined.

(** X12. The arrow codes on the 80x25 grid with the cursor in rows 0..23:
    [UP] and [DOWN] change neither cursor nor cells; [LEFT] moves the
    cursor one cell back, not below offset 0, and changes no cell; [RIGHT]
    moves it one cell on and changes no cell, except on the last cell of
    row 23, where it scrolls the screen and the cursor lands at the start
    of row 23. *)
Theorem cgaputc_arrows (st : console) :
  length (crt st) = 2000%nat -> 0 <= cga_getpos st < 1920 ->
  (forall c, c = UP \/ c = DOWN ->
     exists st', cgaputc st c = Done st'
       /\ cga_getpos st' = cga_getpos st /\ crt st' = crt st)
  /\ (exists st', cgaputc st LEFT = Done st'
       /\ cga_getpos st' = Z.max 0 (cga_getpos st - 1) /\ crt st' = crt st)
  /\ (cga_getpos st < 1919 ->
      exists st', cgaputc st RIGHT = Done st'
       /\ cga_getpos st' = cga_getpos st + 1 /\ crt st' = crt st)
  /\ (cga_getpos st = 1919 ->
      exists st', cgaputc st RIGHT = Done st'
       /\ cga_getpos st' = 1840
       /\ (forall k, 0 <= k < 23 -> row k (crt st') = row (k + 1) (crt st))
       /\ row 23 (crt st') = repeat 0 (Z.to_nat 80)
       /\ row 24 (crt st') = row 24 (crt st)).
Proof.
  intros Hl Hp. split; [|split; [|split]].
  - intros c Hc.
    assert (He : cga_edit c (cga_getpos st) (crt st)
                 = Done (cga_getpos st, crt st))
      by (destruct Hc as [-> | ->]; reflexivity).
    destruct (cgaputc_noscroll st c _ _ He Hp) as (st' & E & P & M & _).
    eauto.
  - assert (He : cga_edit LEFT (cga_getpos st) (crt st)
                 = Done (Z.max 0 (cga_getpos st - 1), crt st)).
    { unfold cga_edit. known_codes.
      destruct (Z.gtb_spec (cga_getpos st) 0); do 2 f_equal; lia. }
    destruct (cgaputc_noscroll st LEFT _ _ He) as (st' & E & P & M & _);
      [lia|eauto].
  - intros Hlt.
    assert (He : cga_edit RIGHT (cga_getpos st) (crt st)
                 = Done (cga_getpos st + 1, crt st)) by reflexivity.
    destruct (cgaputc_noscroll st RIGHT _ _ He) as (st' & E & P & M & _);
      [lia|eauto].
  - intros Heq.
    assert (He : cga_edit RIGHT (cga_getpos st) (crt st)
                 = Done (1920, crt st)) by (rewrite Heq; reflexivity).
    destruct (cgaputc_scroll_at_1920 st RIGHT _ He Hl)
      as (st' & E & _ & P & M & _).
    exists st'. split; [exact E|]. split; [exact P|]. rewrite M.
    apply (rows_scrolled (crt st) Hl).
Qed.

(** The left arrow on the boot screen: the cursor stays at 0. *)
Lemma cgaputc_arrows_witness :
  exists st', cgaputc console0 LEFT = Done st' /\ cga_getpos st' = 0.
Proof.
  destruct (cgaputc_arrows console0) as (_ & (st' & E & P & _) & _).
  - apply repeat_length.
  - cbn. lia.
  - exists st'. split; [exact E|exact P].
Defined.

(** X13. A printable code on the last cell of row 23: the code is written
    there, the screen scrolls, and the cursor lands at the start of row 23;
    the code is then on the last cell of row 22, row 23 is blank, and rows
    0..21 hold what rows 1..22 held. *)
Theorem cgaputc_inserts_and_scrolls (st : console) (c : Z) :
  printable c -> length (crt st) = 2000%nat -> cga_getpos st = 1919 ->
  exists st', cgaputc st c = Done st'
    /\ cgaputc_scrolls st c = true
    /\ cga_getpos st' = 1840
    /\ load (crt st') 1839 = Z.lor (Z.land c 0xff) 0x0700
    /\ (forall k, 0 <= k < 22 -> row k (crt st') = row (k + 1) (crt st))
    /\ row 23 (crt st') = repeat 0 (Z.to_nat 80).
Proof.
  intros Hc Hl Hp.
  pose proof (cga_edit_printable c (cga_getpos st) (crt st) Hc) as He.
  rewrite Hp in He. unfold BUFF_SIZE in He.
  change (crt_cells (24 * 80 - 1919)) with 1 in He.
  destruct (memmove (crt st) (1919 + 1) 1919 1) as [m1|] eqn:E1.
  2: { rewrite memmove_defined in E1 by lia. discriminate. }
  pose proof (memmove_length _ _ _ _ _ E1) as Hl1.
  cbn [of_option bind] in He.
  destruct (store m1 1919 (Z.lor (Z.land c 255) 1792)) as [m2|] eqn:E2.
  2: { rewrite store_defined in E2 by lia. discriminate. }
  pose proof (store_length _ _ _ _ E2) as Hl2.
  cbn [of_option bind] in He. change (1919 + 1) with 1920 in He.
  rewrite <- Hp in He at 1.
  destruct (cgaputc_scroll_at_1920 st c m2 He) as (st' & E & S & P & M & _);
    [congruence|].
  exists st'. split; [exact E|]. split; [exact S|]. split; [exact P|].
  assert (Hm2 : length m2 = 2000%nat) by congruence.
  destruct (rows_scrolled m2 Hm2) as (R1 & R2 & _). rewrite M.
  split; [|split; [|exact R2]].
  - unfold load. rewrite app_nth1
      by (rewrite length_firstn, length_skipn; lia).
    rewrite nth_firstn.
    destruct (Nat.ltb_spec (Z.to_nat 1839) (Z.to_nat 1840)); [|lia].
    rewrite nth_skipn.
    change (nth (Z.to_nat 80 + Z.to_nat 1839) m2 0) with (load m2 1919).
    rewrite (load_store_some _ _ _ _ _ E2) by lia. reflexivity.
  - intros k Hk. rewrite R1 by lia. unfold row, BUFF_SIZE.
    apply nth_ext with (d := 0) (d' := 0).
    + rewrite !length_firstn, !length_skipn. lia.
    + intros n Hn. rewrite length_firstn, length_skipn in Hn.
      rewrite !nth_firstn.
      destruct (Nat.ltb_spec n (Z.to_nat 80)); [|reflexivity].
      rewrite !nth_skipn.
      set (j := Z.of_nat (Z.to_nat (80 * (k + 1)) + n)).
      replace (Z.to_nat (80 * (k + 1)) + n)%nat with (Z.to_nat j) by lia.
      change (load m2 j = load (crt st) j).
      rewrite (load_store_some _ _ _ _ _ E2) by lia.
      rewrite (load_memmove _ _ _ _ _ _ E1) by lia.
      destruct (Z.eqb_spec j 1919); [lia|].
      destruct (Z.leb_spec (1919 + 1) j); [lia|]. reflexivity.
Qed.

(** ["a"] on the last cell of row 23 of an empty grid. *)
Lemma cgaputc_inserts_and_scrolls_witness :
  exists st',
    cgaputc (mkConsole false [] 7 127 (repeat 0 2000) input0) 97 = Done st'
    /\ cga_getpos st' = 1840 /\ load (crt st') 1839 = 0x0761.
Proof.
  destruct (cgaputc_inserts_and_scrolls
              (mkConsole false [] 7 127 (repeat 0 2000) input0) 97)
    as (st' & E & _ & P & L & _).
  - repeat split; discriminate.
  - apply repeat_length.
  - reflexivity.
  - exists st'. split; [exact E|]. split; [exact P|exact L].
Defined.

(** ** The input line editor: what the codes keep *)

(** One code other than the left arrow keeps the edit index at the end of
    the line. *)
Lemma consoleintr_case_emax st c st' :
  input_wf (input st) -> Input.e (input st) = Input.max (input st) ->
  c <> LEFT -> consoleintr_case st c = Done st' ->
  Input.e (input st') = Input.max (input st').
Proof.
  intros Hwf Hem Hc. unfold consoleintr_case.
  destruct (c =? ctrl_P); [intros [= <-]; exact Hem|].
  destruct (c =? ctrl_U).
  { generalize (Z.to_nat (u32 (Input.max (input st) - Input.w (input st)))).
    intros turns. revert st Hwf Hem.
    induction turns as [|turns IH]; intros st Hwf Hem; cbn [kill_line];
      destruct (kill_cond (input st)) eqn:Hk;
      try (intros [= <-]; exact Hem).
    intros H. apply bind_inv in H as (st1 & H1 & H).
    apply consputc_frame in H1 as [_ H1]. cbn [set_input input] in H1.
    unfold kill_cond in Hk. apply andb_prop in Hk as [Hk _].
    apply negb_true_iff, Z.eqb_neq in Hk.
    destruct Hwf as (Hl & H0 & Hrw & Hwe & Hem' & Hmax). unfold INPUT_BUF in *.
    rewrite !u32_small in H1 by lia.
    apply (IH st1); [| |exact H]; rewrite H1.
    - unfold input_wf, INPUT_BUF. cbn. lia.
    - cbn. lia. }
  destruct ((c =? ctrl_H) || (c =? 127)).
  { destruct (negb (Input.e (input st) =? Input.w (input st)));
      [|intros [= <-]; exact Hem].
    intros H. apply bind_inv in H as (b & _ & H).
    apply consputc_frame in H as [_ ->]. cbn. now rewrite Hem. }
  destruct (c =? UP); [intros H; apply consputc_frame in H as [_ ->]; exact Hem|].
  destruct (c =? DOWN); [intros H; apply consputc_frame in H as [_ ->]; exact Hem|].
  destruct (Z.eqb_spec c LEFT); [contradiction|].
  destruct (c =? RIGHT).
  { rewrite Hem, Z.ltb_irrefl. intros [= <-]. exact Hem. }
  destruct (negb (c =? 0) && (Input.max (input st) <? INPUT_BUF));
    [|intros [= <-]; exact Hem].
  unfold input_char. intros H. apply bind_inv in H as (st1 & H1 & H).
  destruct ((if c =? 13 then 10 else c) =? 10); cbn [negb orb] in *.
  - inversion H. reflexivity.
  - apply bind_inv in H1 as (b1 & _ & H1).
    apply bind_inv in H1 as (b2 & _ & H1).
    apply consputc_frame in H1 as [_ H1].
    destruct (_ || _); inversion H; subst; [reflexivity|].
    rewrite H1. cbn. now rewrite Hem.
Qed.

(** X14. Without the left arrow the edit index stays at the end of the
    line: a batch of codes without [LEFT], given to [consoleintr] on a
    console that can echo, with the indices in order and [e = max], is
    taken to its end (or to its first negative code) and leaves the indices
    in order with [e = max], whatever else is typed, kill-line
    included. *)
Theorem consoleintr_without_left (codes : list Z) (st : console) :
  Forall (fun c => c <> LEFT) codes ->
  echo_ok st -> input_wf (input st) ->
  Input.e (input st) = Input.max (input st) ->
  exists st' d, consoleintr st codes = Done (st', d)
    /\ echo_ok st' /\ input_wf (input st') /\ input_inv (input st')
    /\ Input.e (input st') = Input.max (input st').
Proof.
  unfold consoleintr. generalize false as d. revert st.
  induction codes as [|c codes IH]; intros st d Hc He Hwf Hem;
    cbn [consoleintr_loop].
  - exists st, d. split; [reflexivity|]. split; [exact He|].
    split; [exact Hwf|]. split; [now apply input_wf_inv|exact Hem].
  - inversion Hc as [|? ? Hc1 Hc2]; subst.
    destruct (c >=? 0).
    2: { exists st, d. split; [reflexivity|]. split; [exact He|].
         split; [exact Hwf|]. split; [now apply input_wf_inv|exact Hem]. }
    destruct (consoleintr_case_wf st c He Hwf (fun _ => Hem))
      as (st1 & E & He1 & Hwf1).
    pose proof (consoleintr_case_emax st c st1 Hwf Hem Hc1 E) as Hem1.
    rewrite E. cbn [bind]. apply IH; assumption.
Qed.

(** ["ab"], kill-line, ["c"], backspace, newline on the boot console. *)
Lemma consoleintr_without_left_witness :
  exists st' d, consoleintr console0 [97; 98; ctrl_U; 99; ctrl_H; 10]
                = Done (st', d)
    /\ input_inv (input st').
Proof.
  destruct (consoleintr_without_left [97; 98; ctrl_U; 99; ctrl_H; 10] console0)
    as (st' & d & E & _ & _ & H & _).
  - repeat constructor; discriminate.
  - exact echo_ok_console0.
  - exact input_wf_input0.
  - reflexivity.
  - exists st', d. split; [exact E|exact H].
Defined.

(** X15. Without kill-line the indices stay in order: a batch of codes
    without [C('U')], given to [consoleintr] on a console that can echo
    and with the indices in order, is taken to its end (or to its first
    negative code) and leaves [r <= w <= e <= max <= INPUT_BUF], so also
    [max <= r + INPUT_BUF]. *)
Theorem consoleintr_without_kill (codes : list Z) (st : console) :
  Forall (fun c => c <> ctrl_U) codes ->
  echo_ok st -> input_wf (input st) ->
  exists st' d, consoleintr st codes = Done (st', d)
    /\ echo_ok st' /\ input_wf (input st') /\ input_inv (input st').
Proof.
  intros Hc He Hwf.
  destruct (consoleintr_loop_wf codes st false Hc He Hwf)
    as (st' & d & E & He' & Hwf').
  exists st', d. split; [exact E|]. split; [exact He'|].
  split; [exact Hwf'|]. now apply input_wf_inv.
Qed.

(** ["ab"], left, ["c"], right, backspace on the boot console. *)
Lemma consoleintr_without_kill_witness :
  exists st' d, consoleintr console0 [97; 98; LEFT; 99; RIGHT; ctrl_H]
                = Done (st', d)
    /\ input_inv (input st').
Proof.
  destruct (consoleintr_without_kill [97; 98; LEFT; 99; RIGHT; ctrl_H] console0)
    as (st' & d & E & _ & _ & H).
  - repeat constructor; discriminate.
  - exact echo_ok_console0.
  - exact input_wf_input0.
  - exists st', d. split; [exact E|exact H].
Defined.

(** ** Kill-line *)

Lemma input_eta_emax i :
  Input.e i = Input.max i ->
  i = Input.mk (Input.buf i) (Input.r i) (Input.w i)
               (Input.max i - 0) (Input.max i - 0).
Proof. destruct i; cbn; intros ->; f_equal; lia. Qed.

(** The kill-line loop with the edit index at the end of the line. *)
Lemma kill_line_spec turns : forall st,
  echo_ok st -> input_wf (input st) ->
  Input.e (input st) = Input.max (input st) ->
  exists st' k,
    kill_line turns st = Done st' /\ echo_ok st'
    /\ 0 <= k <= Z.of_nat turns
    /\ k <= Input.max (input st) - Input.w (input st)
    /\ input st' = Input.mk (Input.buf (input st)) (Input.r (input st))
                            (Input.w (input st))
                            (Input.max (input st) - k)
                            (Input.max (input st) - k)
    /\ (forall j, Input.max (input st) - k <= j < Input.max (input st) ->
          load (Input.buf (input st)) (j mod INPUT_BUF) <> 10)
    /\ uart st' = uart st ++ concat (repeat [8; 32; 8] (Z.to_nat k))
    /\ (k < Z.of_nat turns -> kill_cond (input st') = false).
Proof.
  induction turns as [|turns IH]; intros st He Hwf Hem; cbn [kill_line];
    destruct (kill_cond (input st)) eqn:Hk.
  - exists st, 0. rewrite app_nil_r.
    split; [reflexivity|]. split; [exact He|]. split; [lia|].
    split; [destruct Hwf as (_ & _ & _ & Hwe & Hem' & _); lia|].
    split; [now apply input_eta_emax|]. split; [intros j Hj; lia|].
    split; [reflexivity|]. intros Hlt; first [exact Hk | cbn in Hlt; lia].
  - exists st, 0. rewrite app_nil_r.
    split; [reflexivity|]. split; [exact He|]. split; [lia|].
    split; [destruct Hwf as (_ & _ & _ & Hwe & Hem' & _); lia|].
    split; [now apply input_eta_emax|]. split; [intros j Hj; lia|].
    split; [reflexivity|]. intros Hlt; first [exact Hk | cbn in Hlt; lia].
  - pose proof Hk as Hk'. unfold kill_cond in Hk'.
    apply andb_prop in Hk' as [Hk1 Hk2].
    apply negb_true_iff, Z.eqb_neq in Hk1, Hk2.
    pose proof Hwf as (Hl & H0 & Hrw & Hwe & Hem' & Hmax).
    unfold INPUT_BUF in *. rewrite (u32_small (Input.max (input st) - 1)) in Hk2 by lia.
    rewrite !u32_small by lia.
    match goal with |- context [consputc ?s BACKSPACE] =>
      destruct (consputc_ok s BACKSPACE) as (st1 & E1 & He1 & Hi1) end.
    { apply echo_ok_set_input, He. }
    pose proof (consputc_uart _ _ _ E1) as Hu1.
    rewrite E1. cbn [bind]. cbn [set_input input uart] in Hi1, Hu1.
    destruct (IH st1 He1) as (st' & k & E & He' & Hk0 & Hkw & Hi' & Hnl & Hu' & Hc');
      try (rewrite Hi1; cbn; unfold input_wf, INPUT_BUF; cbn; lia).
    rewrite Hi1 in Hkw, Hi', Hnl. cbn [Input.buf Input.r Input.w Input.e Input.max] in *.
    exists st', (k + 1). split; [exact E|]. split; [exact He'|].
    split; [lia|]. split; [lia|]. split.
    { rewrite Hi'. f_equal; lia. }
    split.
    { intros j Hj. destruct (Z.eq_dec j (Input.max (input st) - 1)) as [->|Hne].
      - exact Hk2.
      - apply Hnl. lia. }
    split.
    { rewrite Hu', Hu1. change (serial_of BACKSPACE) with [8; 32; 8].
      replace (Z.to_nat (k + 1)) with (S (Z.to_nat k)) by lia.
      cbn [repeat concat]. rewrite <- !app_assoc. reflexivity. }
    intros Hlt. apply Hc'. lia.
  - exists st, 0. rewrite app_nil_r.
    split; [reflexivity|]. split; [exact He|]. split; [lia|].
    split; [destruct Hwf as (_ & _ & _ & Hwe & Hem' & _); lia|].
    split; [now apply input_eta_emax|]. split; [intros j Hj; lia|].
    split; [reflexivity|]. intros Hlt; first [exact Hk | cbn in Hlt; lia].
Qed.

(** X16. Kill-line with the edit index at the end of the line, on a console
    that can echo: chars are taken from the end of the line down to the
    start of the line or to the char behind the last newline, whichever
    comes first; the buffer, [r] and [w] are untouched, [e] follows [max],
    and the serial port receives backspace, space, backspace once for every
    char taken. *)
Theorem kill_line_removes (st : console) :
  echo_ok st -> input_wf (input st) ->
  Input.e (input st) = Input.max (input st) ->
  exists st' k,
    consoleintr_case st ctrl_U = Done st'
    /\ 0 <= k <= Input.max (input st) - Input.w (input st)
    /\ input st' = Input.mk (Input.buf (input st)) (Input.r (input st))
                            (Input.w (input st))
                            (Input.max (input st) - k)
                            (Input.max (input st) - k)
    /\ (forall j, Input.max (input st) - k <= j < Input.max (input st) ->
          load (Input.buf (input st)) (j mod INPUT_BUF) <> 10)
    /\ (Input.max (input st) - k = Input.w (input st)
        \/ load (Input.buf (input st))
                ((Input.max (input st) - k - 1) mod INPUT_BUF) = 10)
    /\ uart st' = uart st ++ concat (repeat [8; 32; 8] (Z.to_nat k)).
Proof.
  intros He Hwf Hem.
  pose proof Hwf as (Hl & H0 & Hrw & Hwe & Hem' & Hmax). unfold INPUT_BUF in *.
  assert (E : consoleintr_case st ctrl_U
              = kill_line (Z.to_nat (u32 (Input.max (input st)
                                          - Input.w (input st)))) st)
    by reflexivity.
  rewrite E, u32_small by lia.
  destruct (kill_line_spec (Z.to_nat (Input.max (input st) - Input.w (input st)))
              st He Hwf Hem)
    as (st' & k & Ek & _ & Hk & Hkw & Hi & Hnl & Hu & Hc).
  exists st', k. split; [exact Ek|]. split; [lia|]. split; [exact Hi|].
  split; [exact Hnl|]. split; [|exact Hu].
  destruct (Z.eq_dec (Input.max (input st) - k) (Input.w (input st)))
    as [Heq|Hne]; [left; exact Heq|right].
  specialize (Hc ltac:(lia)). rewrite Hi in Hc. unfold kill_cond in Hc.
  cbn [Input.buf Input.w Input.max] in Hc.
  apply andb_false_iff in Hc as [Hc|Hc].
  - apply negb_false_iff, Z.eqb_eq in Hc. contradiction.
  - apply negb_false_iff, Z.eqb_eq in Hc.
    rewrite u32_small in Hc by lia. exact Hc.
Qed.

(** ["abc"] typed on the boot console and then killed. *)
Lemma kill_line_removes_witness :
  exists st st', consoleintr console0 [97; 98; 99] = Done (st, false)
    /\ consoleintr_case st ctrl_U = Done st'
    /\ Input.max (input st') = 0
    /\ uart st' = [97; 98; 99; 8; 32; 8; 8; 32; 8; 8; 32; 8].
Proof.
  destruct (consoleintr_without_left [97; 98; 99] console0)
    as (st & d & E & He & Hwf & _ & Hem);
    [repeat constructor; discriminate|exact echo_ok_console0
    |exact input_wf_input0|reflexivity|].
  assert (Ei : d = false /\ input st = Input.mk ([97; 98; 99] ++ repeat 0 125) 0 0 3 3
               /\ uart st = [97; 98; 99]).
  { revert E. vm_compute. intros [= <- <-]. repeat split. }
  destruct Ei as (-> & Ei & Eu).
  destruct (kill_line_removes st He Hwf Hem) as (st' & k & Ek & Hk & Hi & Hnl & Hstop & Hu).
  exists st, st'. split; [exact E|]. split; [exact Ek|].
  rewrite Ei in Hk, Hi, Hstop. cbn [Input.buf Input.r Input.w Input.e Input.max] in *.
  assert (k = 3).
  { destruct Hstop as [Hs|Hs]; [lia|].
    assert (Hc : k = 0 \/ k = 1 \/ k = 2 \/ k = 3) by lia.
    destruct Hc as [-> | [-> | [-> | ->]]]; try reflexivity;
      vm_compute in Hs; discriminate. }
  subst k. split; [rewrite Hi; reflexivity|]. rewrite Hu, Eu. reflexivity.
Defined.

(** ** Typing into the line *)

Lemma consoleintr_case_typed st c :
  typed c -> Input.max (input st) < INPUT_BUF ->
  consoleintr_case st c
  = (let i := input st in
     st1 <- (b <- of_option (memmove (Input.buf i) (Input.e i + 1) (Input.e i)
                               (u32 (Input.max i - Input.e i))) ;;
             b <- of_option (store b (Input.e i mod INPUT_BUF) (to_char c)) ;;
             consputc (set_input st (Input.mk b (Input.r i) (Input.w i)
                                              (u32 (Input.e i + 1))
                                              (u32 (Input.max i + 1)))) c) ;;
     let i := input st1 in
     if (c =? ctrl_D) || (Input.max i =? u32 (Input.r i + INPUT_BUF)) then
       Done (set_input st1 (Input.mk (Input.buf i) (Input.r i)
                                     (Input.max i) (Input.max i) (Input.max i)))
     else Done st1).
Proof.
  intros (H0 & H1 & H2 & H3 & H4 & H5 & H6 & H7 & H8 & H9 & H10) Hm.
  unfold consoleintr_case, input_char.
  apply Z.eqb_neq in H0, H1, H2, H3, H4, H5, H6, H7, H8, H9, H10.
  apply Z.ltb_lt in Hm.
  rewrite H0, H1, H2, H3, H4, H5, H6, H7, H8, H10, Hm. cbn [orb negb andb].
  rewrite H9. reflexivity.
Qed.

(** A typed code on a console that can echo: the buffer, the indices and
    the echo. *)
Lemma typed_cells st c :
  echo_ok st -> input_wf (input st) -> Input.max (input st) < INPUT_BUF ->
  typed c ->
  let i := input st in
  exists st' b,
    consoleintr_case st c = Done st' /\ echo_ok st'
    /\ length b = 128%nat
    /\ (forall j, 0 <= j ->
          load b j = if j <? Input.e i then load (Input.buf i) j
                     else if j =? Input.e i then to_char c
                     else if j <=? Input.max i then load (Input.buf i) (j - 1)
                     else load (Input.buf i) j)
    /\ input st'
       = (if (c =? ctrl_D) || (Input.max i + 1 =? Input.r i + INPUT_BUF)
          then Input.mk b (Input.r i) (Input.max i + 1) (Input.max i + 1)
                        (Input.max i + 1)
          else Input.mk b (Input.r i) (Input.w i) (Input.e i + 1)
                        (Input.max i + 1))
    /\ uart st' = uart st ++ serial_of c.
Proof.
  intros He Hwf Hmax Hc i.
  rewrite (consoleintr_case_typed st c Hc Hmax). fold i. cbv zeta.
  pose proof Hwf as (Hl & H0 & Hrw & Hwe & Hem & _). fold i in Hl, H0, Hrw, Hwe, Hem.
  unfold INPUT_BUF in *. fold i in Hmax.
  rewrite !u32_small by lia.
  rewrite (Z.mod_small (Input.e i) 128) by lia.
  destruct (memmove (Input.buf i) (Input.e i + 1) (Input.e i)
              (Input.max i - Input.e i)) as [b1|] eqn:E1.
  2: { rewrite memmove_defined in E1 by lia. discriminate. }
  pose proof (memmove_length _ _ _ _ _ E1) as Hl1. cbn [of_option bind].
  destruct (store b1 (Input.e i) (to_char c)) as [b2|] eqn:E2.
  2: { rewrite store_defined in E2 by lia. discriminate. }
  pose proof (store_length _ _ _ _ E2) as Hl2. cbn [of_option bind].
  match goal with |- context [consputc ?s c] =>
    destruct (consputc_ok s c) as (st1 & E & He1 & Hi1) end.
  { apply echo_ok_set_input, He. }
  pose proof (consputc_uart _ _ _ E) as Hu1. rewrite E. cbn [bind].
  cbn [set_input input uart] in Hi1, Hu1. rewrite Hi1.
  cbn [Input.buf Input.r Input.w Input.e Input.max].
  rewrite (u32_small (Input.r i + 128)) by lia.
  assert (Hb : forall j, 0 <= j ->
             load b2 j = if j <? Input.e i then load (Input.buf i) j
                         else if j =? Input.e i then to_char c
                         else if j <=? Input.max i then load (Input.buf i) (j - 1)
                         else load (Input.buf i) j).
  { intros j Hj. rewrite (load_store_some _ _ _ _ _ E2 Hj).
    rewrite (load_memmove _ _ _ _ _ _ E1 Hj).
    destruct (Z.ltb_spec j (Input.e i)), (Z.eqb_spec j (Input.e i)),
      (Z.leb_spec j (Input.max i)), (Z.leb_spec (Input.e i + 1) j),
      (Z.ltb_spec j (Input.e i + 1 + (Input.max i - Input.e i)));
      cbn [andb]; try lia; try reflexivity; f_equal; lia. }
  destruct ((c =? ctrl_D) || (Input.max i + 1 =? Input.r i + 128)) eqn:Hrel.
  - eexists _, b2. split; [reflexivity|]. split; [exact He1|].
    split; [congruence|]. split; [exact Hb|]. split; [reflexivity|exact Hu1].
  - exists st1, b2. split; [reflexivity|]. split; [exact He1|].
    split; [congruence|]. split; [exact Hb|]. split; [exact Hi1|exact Hu1].
Qed.

(** X17. A typed code other than the EOF code, with room in the buffer and
    not its last cell free: the chars before the edit index stay, the code
    is stored at the edit index (as a [char]), the chars from the edit
    index to the end of the line move one cell up, [e] and [max] grow by
    one, [r] and [w] stay, and the code is echoed. *)
Theorem consoleintr_inserts (st : console) (c : Z) :
  echo_ok st -> input_wf (input st) -> Input.max (input st) < INPUT_BUF ->
  typed c -> c <> ctrl_D ->
  Input.max (input st) + 1 <> Input.r (input st) + INPUT_BUF ->
  exists st',
    consoleintr_case st c = Done st'
    /\ Input.r (input st') = Input.r (input st)
    /\ Input.w (input st') = Input.w (input st)
    /\ Input.e (input st') = Input.e (input st) + 1
    /\ Input.max (input st') = Input.max (input st) + 1
    /\ (forall j, 0 <= j ->
          load (Input.buf (input st')) j
          = if j <? Input.e (input st) then load (Input.buf (input st)) j
            else if j =? Input.e (input st) then to_char c
            else if j <=? Input.max (input st)
                 then load (Input.buf (input st)) (j - 1)
            else load (Input.buf (input st)) j)
    /\ uart st' = uart st ++ serial_of c.
Proof.
  intros He Hwf Hmax Hc Hd Hfull.
  destruct (typed_cells st c He Hwf Hmax Hc) as (st' & b & E & _ & _ & Hb & Hi & Hu).
  apply Z.eqb_neq in Hd, Hfull. rewrite Hd, Hfull in Hi. cbn [orb] in Hi.
  exists st'. rewrite Hi. cbn [Input.buf Input.r Input.w Input.e Input.max].
  repeat split; try reflexivity; assumption.
Qed.

(** ["ac"] typed, left arrow, then ["b"]: the line is ["abc"]. *)
Lemma consoleintr_inserts_witness :
  exists st st', consoleintr console0 [97; 99; LEFT] = Done (st, false)
    /\ consoleintr_case st 98 = Done st'
    /\ load (Input.buf (input st')) 0 = 97
    /\ load (Input.buf (input st')) 1 = 98
    /\ load (Input.buf (input st')) 2 = 99
    /\ Input.e (input st') = 2 /\ Input.max (input st') = 3.
Proof.
  destruct (consoleintr_loop_wf [97; 99; LEFT] console0 false)
    as (st & d & E & He & Hwf);
    [repeat constructor; discriminate|exact echo_ok_console0
    |exact input_wf_input0|].
  assert (Ei : d = false
               /\ input st = Input.mk ([97; 99] ++ repeat 0 126) 0 0 1 2).
  { revert E. vm_compute. intros [= <- <-]. split; reflexivity. }
  destruct Ei as (-> & Ei).
  destruct (consoleintr_inserts st 98 He Hwf)
    as (st' & E' & _ & _ & He' & Hm' & Hb & _).
  - rewrite Ei. reflexivity.
  - repeat split; discriminate.
  - discriminate.
  - rewrite Ei. discriminate.
  - exists st, st'. split; [exact E|]. split; [exact E'|].
    rewrite Ei in He', Hm', Hb. cbn [Input.buf Input.e Input.max] in *.
    rewrite !Hb by lia. repeat split; try reflexivity; assumption.
Defined.

(** X18. A typed code and then backspace, under the conditions of X17: the
    four indices are what they were and so is every char of the line and
    of what was released before it (the cells below [max]); the code and
    the backspace sequence were echoed. *)
Theorem consoleintr_insert_backspace (st : console) (c : Z) :
  echo_ok st -> input_wf (input st) -> Input.max (input st) < INPUT_BUF ->
  typed c -> c <> ctrl_D ->
  Input.max (input st) + 1 <> Input.r (input st) + INPUT_BUF ->
  exists st1 st2,
    consoleintr_case st c = Done st1
    /\ consoleintr_case st1 ctrl_H = Done st2
    /\ Input.r (input st2) = Input.r (input st)
    /\ Input.w (input st2) = Input.w (input st)
    /\ Input.e (input st2) = Input.e (input st)
    /\ Input.max (input st2) = Input.max (input st)
    /\ (forall j, 0 <= j < Input.max (input st) ->
          load (Input.buf (input st2)) j = load (Input.buf (input st)) j)
    /\ uart st2 = uart st ++ serial_of c ++ [8; 32; 8].
Proof.
  intros He Hwf Hmax Hc Hd Hfull.
  destruct (typed_cells st c He Hwf Hmax Hc)
    as (st1 & b & E1 & He1 & Hlb & Hb & Hi1 & Hu1).
  apply Z.eqb_neq in Hd, Hfull. rewrite Hd, Hfull in Hi1. cbn [orb] in Hi1.
  pose proof Hwf as (Hl & H0 & Hrw & Hwe & Hem & _). unfold INPUT_BUF in *.
  exists st1.
  assert (E2 : consoleintr_case st1 ctrl_H
               = (let i := input st1 in
                  if negb (Input.e i =? Input.w i) then
                    let max := u32 (Input.max i - 1) in
                    let e := u32 (Input.e i - 1) in
                    b <- of_option (memmove (Input.buf i) e (e + 1) (u32 (max - e))) ;;
                    consputc (set_input st1 (Input.mk b (Input.r i) (Input.w i) e max))
                             BACKSPACE
                  else Done st1)) by reflexivity.
  rewrite Hi1 in E2. cbv zeta in E2.
  cbn [Input.buf Input.r Input.w Input.e Input.max] in E2.
  destruct (Z.eqb_spec (Input.e (input st) + 1) (Input.w (input st))) as [|_];
    [lia|]. cbn [negb] in E2.
  replace (Input.e (input st) + 1 - 1) with (Input.e (input st)) in E2 by lia.
  replace (Input.max (input st) + 1 - 1) with (Input.max (input st)) in E2 by lia.
  rewrite !u32_small in E2 by (rewrite ?u32_small by lia; lia).
  destruct (memmove b (Input.e (input st)) (Input.e (input st) + 1)
              (Input.max (input st) - Input.e (input st))) as [b2|] eqn:Em.
  2: { rewrite memmove_defined in Em by lia. discriminate. }
  cbn [of_option bind] in E2.
  match type of E2 with _ = consputc ?s BACKSPACE =>
    destruct (consputc_ok s BACKSPACE) as (st2 & E & He2 & Hi2) end.
  { apply echo_ok_set_input, He1. }
  pose proof (consputc_uart _ _ _ E) as Hu2.
  cbn [set_input input uart] in Hi2, Hu2.
  exists st2. split; [exact E1|]. split; [congruence|]. rewrite Hi2.
  cbn [Input.buf Input.r Input.w Input.e Input.max].
  repeat split.
  - intros j Hj. rewrite (load_memmove _ _ _ _ _ _ Em) by lia.
    destruct (Z.leb_spec (Input.e (input st)) j),
      (Z.ltb_spec j (Input.e (input st)
                     + (Input.max (input st) - Input.e (input st))));
      cbn [andb]; try lia; rewrite Hb by lia.
    + destruct (Z.ltb_spec (Input.e (input st) + 1 + (j - Input.e (input st)))
                  (Input.e (input st))),
        (Z.eqb_spec (Input.e (input st) + 1 + (j - Input.e (input st)))
           (Input.e (input st))),
        (Z.leb_spec (Input.e (input st) + 1 + (j - Input.e (input st)))
           (Input.max (input st))); try lia.
      f_equal. lia.
    + destruct (Z.ltb_spec j (Input.e (input st))); [reflexivity|lia].
  - rewrite Hu2, Hu1, <- app_assoc. reflexivity.
Qed.

(** ["ac"], left arrow, ["b"], backspace: the line is ["ac"] again. *)
Lemma consoleintr_insert_backspace_witness :
  exists st st1 st2,
    consoleintr console0 [97; 99; LEFT] = Done (st, false)
    /\ consoleintr_case st 98 = Done st1
    /\ consoleintr_case st1 ctrl_H = Done st2
    /\ load (Input.buf (input st2)) 0 = 97
    /\ load (Input.buf (input st2)) 1 = 99
    /\ Input.e (input st2) = 1 /\ Input.max (input st2) = 2.
Proof.
  destruct (consoleintr_loop_wf [97; 99; LEFT] console0 false)
    as (st & d & E & He & Hwf);
    [repeat constructor; discriminate|exact echo_ok_console0
    |exact input_wf_input0|].
  assert (Ei : d = false
               /\ input st = Input.mk ([97; 99] ++ repeat 0 126) 0 0 1 2).
  { revert E. vm_compute. intros [= <- <-]. split; reflexivity. }
  destruct Ei as (-> & Ei).
  destruct (consoleintr_insert_backspace st 98 He Hwf)
    as (st1 & st2 & E1 & E2 & _ & _ & He2 & Hm2 & Hb & _).
  - rewrite Ei. reflexivity.
  - repeat split; discriminate.
  - discriminate.
  - rewrite Ei. discriminate.
  - exists st, st1, st2. split; [exact E|]. split; [exact E1|].
    split; [exact E2|].
    rewrite Ei in He2, Hm2, Hb. cbn [Input.buf Input.e Input.max] in *.
    rewrite !Hb by lia. repeat split; try reflexivity; assumption.
Defined.

(** X19. The last free cell: with [r = 0] and 127 chars in the buffer, a
    typed code fills the buffer and, newline or not, the line is released
    ([w = e = max = INPUT_BUF]); after that every code of the [default:]
    case (every code but the two control codes, the two backspace codes
    and the four arrow codes of the other cases; the newline, the carriage
    return and 0 are among them) leaves the whole state as it is, whatever
    the reader has done to [r]. *)
Theorem consoleintr_fills_buffer (st : console) (c : Z) :
  echo_ok st -> input_wf (input st) ->
  Input.r (input st) = 0 -> Input.max (input st) = 127 -> typed c ->
  exists st',
    consoleintr_case st c = Done st'
    /\ Input.r (input st') = 0
    /\ Input.w (input st') = INPUT_BUF
    /\ Input.e (input st') = INPUT_BUF
    /\ Input.max (input st') = INPUT_BUF
    /\ forall st2 r' c',
         input st2 = set_r (input st') r' ->
         c' <> ctrl_P -> c' <> ctrl_U -> c' <> ctrl_H -> c' <> 0x7f ->
         c' <> UP -> c' <> DOWN -> c' <> LEFT -> c' <> RIGHT ->
         consoleintr_case st2 c' = Done st2.
Proof.
  intros He Hwf Hr Hm Hc.
  destruct (typed_cells st c He Hwf) as (st' & b & E & _ & _ & _ & Hi & _);
    [unfold INPUT_BUF; lia|exact Hc|].
  rewrite Hr, Hm in Hi.
  replace ((c =? ctrl_D) || (127 + 1 =? 0 + INPUT_BUF)) with true in Hi
    by (symmetry; apply orb_true_r).
  exists st'. split; [exact E|]. rewrite Hi.
  cbn [Input.r Input.w Input.e Input.max]. repeat split.
  intros st2 r' c' Hi2 H1 H2 H3 H4 H5 H6 H7 H8.
  apply consoleintr_case_ignored; try assumption.
  rewrite Hi2. cbn. unfold INPUT_BUF. lia.
Qed.

(** 127 chars and then one more on the boot console; the newline that
    follows is ignored. *)
Lemma consoleintr_fills_buffer_witness :
  exists st st',
    consoleintr console0 (repeat 97 127) = Done (st, false)
    /\ consoleintr_case st 98 = Done st'
    /\ Input.w (input st') = 128
    /\ consoleintr_case st' 10 = Done st'.
Proof.
  destruct (consoleintr_loop_wf (repeat 97 127) console0 false)
    as (st & d & E & He & Hwf);
    [apply Forall_forall; intros x Hx; apply repeat_spec in Hx; subst; discriminate
    |exact echo_ok_console0|exact input_wf_input0|].
  assert (Ei : d = false /\ Input.r (input st) = 0 /\ Input.max (input st) = 127).
  { revert E. vm_compute. intros [= <- <-]. repeat split. }
  destruct Ei as (-> & Er & Em).
  destruct (consoleintr_fills_buffer st 98 He Hwf Er Em)
    as (st' & E' & Hr & Hw & _ & _ & Hfull).
  - repeat split; discriminate.
  - exists st, st'. split; [exact E|]. split; [exact E'|].
    split; [exact Hw|].
    apply (Hfull st' 0); [|discriminate..].
    rewrite <- Hr. symmetry. apply set_r_same.
Defined.

(** ** The EOF code, from the keyboard to the reader *)

(** X20. The EOF code typed on a console that can echo, with room in the
    buffer and no released input left unread: it is stored at the edit
    index and the whole buffer up to the new [max] is released. A reader
    then gets the chars that were before the edit index and stops at the
    marker: with no such char it returns 0 and passes the marker, otherwise
    it returns them and the call after it returns 0. What was typed behind
    the edit index stays for later calls. *)
Theorem eof_typed (killed : bool) (st : console) :
  echo_ok st -> input_wf (input st) -> Input.max (input st) < INPUT_BUF ->
  Input.r (input st) = Input.w (input st) ->
  let i := input st in
  let k := Z.to_nat (Input.e i - Input.w i) in
  Forall (fun ch => ch <> ctrl_D /\ ch <> 10) (pending i k) ->
  exists st',
    consoleintr_case st ctrl_D = Done st'
    /\ Input.r (input st') = Input.r i
    /\ Input.w (input st') = Input.max i + 1
    /\ Input.max (input st') = Input.max i + 1
    /\ load (Input.buf (input st')) (Input.e i) = ctrl_D
    /\ forall n, Z.of_nat k < n < 2 ^ 31 ->
       consoleread killed (input st') n
       = Returns (Z.of_nat k) (pending i k)
                 (set_r (input st')
                        (if (k =? 0)%nat then Input.e i + 1 else Input.e i))
       /\ consoleread killed (set_r (input st') (Input.e i)) n
          = Returns 0 [] (set_r (input st') (Input.e i + 1)).
Proof.
  intros He Hwf Hmax Hrw i k Hline.
  assert (Hc : typed ctrl_D) by (repeat split; discriminate).
  destruct (typed_cells st ctrl_D He Hwf Hmax Hc)
    as (st' & b & E & _ & Hlb & Hb & Hi & _).
  fold i in Hb, Hi. change (ctrl_D =? ctrl_D) with true in Hi. cbn [orb] in Hi.
  pose proof Hwf as (Hl & H0 & _ & Hwe & Hem & _).
  fold i in Hl, H0, Hwe, Hem, Hmax, Hrw. unfold INPUT_BUF in *.
  exists st'. split; [exact E|]. rewrite Hi.
  cbn [Input.buf Input.r Input.w Input.e Input.max].
  set (i' := Input.mk b (Input.r i) (Input.max i + 1) (Input.max i + 1)
                      (Input.max i + 1)).
  assert (Hbe : load b (Input.e i) = ctrl_D).
  { rewrite Hb by lia. destruct (Z.ltb_spec (Input.e i) (Input.e i)); [lia|].
    rewrite Z.eqb_refl. reflexivity. }
  assert (Hk : pending i' k = pending i k).
  { apply pending_ext; [reflexivity|]. intros j Hj. unfold INPUT_BUF.
    rewrite Z.mod_small by lia. cbn [i' Input.buf]. rewrite Hb by lia.
    destruct (Z.ltb_spec (Input.r i + j) (Input.e i)); [reflexivity|lia]. }
  assert (Hre : Input.r i + Z.of_nat k = Input.e i) by lia.
  assert (Heof : forall n, 0 < n < 2 ^ 31 ->
            consoleread killed (set_r i' (Input.e i)) n
            = Returns 0 [] (set_r i' (Input.e i + 1))).
  { intros n Hn. rewrite consoleread_eof_first;
      cbn [set_r i' Input.r Input.w Input.buf]; try lia.
    - rewrite u32_small by lia. reflexivity.
    - unfold INPUT_BUF. rewrite Z.mod_small by lia. exact Hbe. }
  repeat split; try reflexivity; try exact Hbe.
  - unfold consoleread. destruct (Z.gtb_spec n 0); [|lia].
    replace (Z.to_nat n) with (k + S (Z.to_nat n - k - 1))%nat by lia.
    rewrite consoleread_loop_chars;
      cbn [i' Input.r Input.w]; try lia; [|rewrite Hk; exact Hline].
    rewrite Hk, Hre. cbn [app].
    rewrite consoleread_loop_eof; cbn [set_r i' Input.r Input.w Input.buf];
      try lia.
    2: { unfold INPUT_BUF. rewrite Z.mod_small by lia. exact Hbe. }
    rewrite (u32_small n) by lia.
    replace (n - Z.of_nat (S (Z.to_nat n - k - 1))) with (Z.of_nat k) by lia.
    rewrite s32_small by lia. f_equal.
    destruct (Nat.eqb_spec k 0) as [Hk0|Hk0].
    + destruct (Z.ltb_spec (Z.of_nat (S (Z.to_nat n - k - 1))) n); [lia|].
      reflexivity.
    + destruct (Z.ltb_spec (Z.of_nat (S (Z.to_nat n - k - 1))) n); [|lia].
      reflexivity.
  - apply Heof. lia.
Qed.

(** ["hi"] and the EOF code typed on the boot console: a reader gets 2
    chars, the next call 0. *)
Lemma eof_typed_witness :
  exists st st',
    consoleintr console0 [104; 105] = Done (st, false)
    /\ consoleintr_case st ctrl_D = Done st'
    /\ consoleread false (input st') 10
       = Returns 2 [104; 105] (set_r (input st') 2)
    /\ consoleread false (set_r (input st') 2) 10
       = Returns 0 [] (set_r (input st') 3).
Proof.
  destruct (consoleintr_loop_wf [104; 105] console0 false)
    as (st & d & E & He & Hwf);
    [repeat constructor; discriminate|exact echo_ok_console0
    |exact input_wf_input0|].
  assert (Ei : d = false
               /\ input st = Input.mk ([104; 105] ++ repeat 0 126) 0 0 2 2).
  { revert E. vm_compute. intros [= <- <-]. split; reflexivity. }
  destruct Ei as (-> & Ei).
  destruct (eof_typed false st He Hwf) as (st' & E' & _ & _ & _ & _ & Hread).
  - rewrite Ei. reflexivity.
  - rewrite Ei. reflexivity.
  - rewrite Ei. repeat constructor; discriminate.
  - exists st, st'. split; [exact E|]. split; [exact E'|].
    rewrite Ei in Hread. destruct (Hread 10) as [H1 H2]; [cbn; lia|].
    split; [exact H1|exact H2].
Defined.

(** ** Arrow keys in the line editor, and the batch *)

(** X21. In [consoleintr], on a console that can echo: [UP], [DOWN] and
    [C('P')] leave [input] as it is; a left arrow with chars before the
    edit index takes one from [e] and a right arrow after it gives it back;
    a right arrow with chars behind the edit index adds one to [e] and a
    left arrow after it takes it back; none of them sends anything to the
    serial port. *)
Theorem consoleintr_arrows (st : console) :
  echo_ok st -> input_wf (input st) ->
  let i := input st in
  (forall c, c = UP \/ c = DOWN \/ c = ctrl_P ->
     exists st', consoleintr_case st c = Done st'
       /\ input st' = i /\ uart st' = uart st)
  /\ (Input.e i <> Input.w i ->
      exists st1 st2,
        consoleintr_case st LEFT = Done st1
        /\ input st1 = Input.mk (Input.buf i) (Input.r i) (Input.w i)
                                (Input.e i - 1) (Input.max i)
        /\ consoleintr_case st1 RIGHT = Done st2
        /\ input st2 = i /\ uart st2 = uart st)
  /\ (Input.e i < Input.max i ->
      exists st1 st2,
        consoleintr_case st RIGHT = Done st1
        /\ input st1 = Input.mk (Input.buf i) (Input.r i) (Input.w i)
                                (Input.e i + 1) (Input.max i)
        /\ consoleintr_case st1 LEFT = Done st2
        /\ input st2 = i /\ uart st2 = uart st).
Proof.
  intros He Hwf i.
  pose proof Hwf as (Hl & H0 & Hrw & Hwe & Hem & Hmax).
  fold i in Hl, H0, Hrw, Hwe, Hem, Hmax. unfold INPUT_BUF in *.
  split; [|split].
  - intros c [-> | [-> | ->]].
    + destruct (consputc_ok st UP He) as (st' & E & _ & Hi).
      exists st'. split; [exact E|]. split; [exact Hi|].
      rewrite (consputc_uart _ _ _ E). apply app_nil_r.
    + destruct (consputc_ok st DOWN He) as (st' & E & _ & Hi).
      exists st'. split; [exact E|]. split; [exact Hi|].
      rewrite (consputc_uart _ _ _ E). apply app_nil_r.
    + exists st. repeat split.
  - intros Hne.
    assert (E1 : consoleintr_case st LEFT
                 = if negb (Input.e i =? Input.w i) then
                     consputc (set_input st (Input.mk (Input.buf i) (Input.r i)
                                 (Input.w i) (u32 (Input.e i - 1)) (Input.max i)))
                              LEFT
                   else Done st) by reflexivity.
    destruct (Z.eqb_spec (Input.e i) (Input.w i)); [contradiction|].
    cbn [negb] in E1. rewrite u32_small in E1 by lia.
    match type of E1 with _ = consputc ?s LEFT =>
      destruct (consputc_ok s LEFT) as (st1 & E & He1 & Hi1) end.
    { apply echo_ok_set_input, He. }
    pose proof (consputc_uart _ _ _ E) as Hu1.
    cbn [set_input input uart] in Hi1, Hu1.
    assert (E2 : consoleintr_case st1 RIGHT
                 = if Input.e (input st1) <? Input.max (input st1) then
                     consputc (set_input st1 (Input.mk (Input.buf (input st1))
                                 (Input.r (input st1)) (Input.w (input st1))
                                 (u32 (Input.e (input st1) + 1))
                                 (Input.max (input st1)))) RIGHT
                   else Done st1) by reflexivity.
    rewrite Hi1 in E2. cbn [Input.buf Input.r Input.w Input.e Input.max] in E2.
    destruct (Z.ltb_spec (Input.e i - 1) (Input.max i)); [|lia].
    replace (Input.e i - 1 + 1) with (Input.e i) in E2 by lia.
    rewrite u32_small in E2 by lia.
    match type of E2 with _ = consputc ?s RIGHT =>
      destruct (consputc_ok s RIGHT) as (st2 & E' & He2 & Hi2) end.
    { apply echo_ok_set_input, He1. }
    pose proof (consputc_uart _ _ _ E') as Hu2.
    cbn [set_input input uart] in Hi2, Hu2.
    exists st1, st2. split; [congruence|]. split; [exact Hi1|].
    split; [congruence|]. split; [rewrite Hi2; now destruct i|].
    rewrite Hu2, Hu1. cbn. now rewrite !app_nil_r.
  - intros Hlt.
    assert (E1 : consoleintr_case st RIGHT
                 = if Input.e i <? Input.max i then
                     consputc (set_input st (Input.mk (Input.buf i) (Input.r i)
                                 (Input.w i) (u32 (Input.e i + 1)) (Input.max i)))
                              RIGHT
                   else Done st) by reflexivity.
    destruct (Z.ltb_spec (Input.e i) (Input.max i)); [|lia].
    rewrite u32_small in E1 by lia.
    match type of E1 with _ = consputc ?s RIGHT =>
      destruct (consputc_ok s RIGHT) as (st1 & E & He1 & Hi1) end.
    { apply echo_ok_set_input, He. }
    pose proof (consputc_uart _ _ _ E) as Hu1.
    cbn [set_input input uart] in Hi1, Hu1.
    assert (E2 : consoleintr_case st1 LEFT
                 = if negb (Input.e (input st1) =? Input.w (input st1)) then
                     consputc (set_input st1 (Input.mk (Input.buf (input st1))
                                 (Input.r (input st1)) (Input.w (input st1))
                                 (u32 (Input.e (input st1) - 1))
                                 (Input.max (input st1)))) LEFT
                   else Done st1) by reflexivity.
    rewrite Hi1 in E2. cbn [Input.buf Input.r Input.w Input.e Input.max] in E2.
    destruct (Z.eqb_spec (Input.e i + 1) (Input.w i)); [lia|].
    cbn [negb] in E2.
    replace (Input.e i + 1 - 1) with (Input.e i) in E2 by lia.
    rewrite u32_small in E2 by lia.
    match type of E2 with _ = consputc ?s LEFT =>
      destruct (consputc_ok s LEFT) as (st2 & E' & He2 & Hi2) end.
    { apply echo_ok_set_input, He1. }
    pose proof (consputc_uart _ _ _ E') as Hu2.
    cbn [set_input input uart] in Hi2, Hu2.
    exists st1, st2. split; [congruence|]. split; [exact Hi1|].
    split; [congruence|]. split; [rewrite Hi2; now destruct i|].
    rewrite Hu2, Hu1. cbn. now rewrite !app_nil_r.
Qed.

(** [UP] on the boot console. *)
Lemma consoleintr_arrows_witness :
  exists st', consoleintr_case console0 UP = Done st'
    /\ input st' = input0 /\ uart st' = [].
Proof.
  destruct (consoleintr_arrows console0 echo_ok_console0 input_wf_input0)
    as (H & _).
  destruct (H UP (or_introl eq_refl)) as (st' & E & Hi & Hu).
  exists st'. split; [exact E|]. split; [exact Hi|exact Hu].
Defined.

Lemma consoleintr_loop_negative st a c b : forall d,
  Forall (fun x => 0 <= x) a -> c < 0 ->
  consoleintr_loop st (a ++ c :: b) d = consoleintr_loop st a d.
Proof.
  revert st. induction a as [|x a IH]; intros st d Ha Hc;
    cbn [app consoleintr_loop].
  - destruct (Z.geb_spec c 0); [lia|reflexivity].
  - inversion Ha as [|? ? Hx Has]; subst. destruct (x >=? 0); [|reflexivity].
    apply bind_ext. intros st1. now apply IH.
Qed.

Lemma consoleintr_loop_flag codes : forall st d st' d',
  Forall (fun x => 0 <= x) codes ->
  consoleintr_loop st codes d = Done (st', d') ->
  d' = d || existsb (fun c => c =? ctrl_P) codes.
Proof.
  induction codes as [|x codes IH]; intros st d st' d' Hc;
    cbn [consoleintr_loop existsb].
  - intros [= _ <-]. now rewrite orb_false_r.
  - inversion Hc as [|? ? Hx Hcs]; subst. destruct (Z.geb_spec x 0); [|lia].
    intros Hr. apply bind_inv in Hr as (st1 & _ & Hr).
    rewrite (IH _ _ _ _ Hcs Hr). now rewrite orb_assoc.
Qed.

(** X22. A batch given to [consoleintr] ends at its first negative code:
    what follows it is not looked at. And [doprocdump] is set at the end
    of a batch exactly when [C('P')] was among its codes. *)
Theorem consoleintr_batch (st : console) :
  (forall a c b, Forall (fun x => 0 <= x) a -> c < 0 ->
     consoleintr st (a ++ c :: b) = consoleintr st a)
  /\ (forall codes st' d, Forall (fun x => 0 <= x) codes ->
     consoleintr st codes = Done (st', d) ->
     d = existsb (fun c => c =? ctrl_P) codes).
Proof.
  split.
  - intros a c b Ha Hc. now apply consoleintr_loop_negative.
  - intros codes st' d Hc H.
    apply (consoleintr_loop_flag codes st false st' d Hc H).
Qed.

(** ["a"], [C('P')], then -1 and a ["b"] that is never read. *)
Lemma consoleintr_batch_witness :
  consoleintr console0 ([97; ctrl_P] ++ (-1) :: [98])
  = consoleintr console0 [97; ctrl_P]
  /\ exists st', consoleintr console0 [97; ctrl_P] = Done (st', true).
Proof.
  destruct (consoleintr_batch console0) as [H1 H2]. split.
  - apply H1; [|lia].
    repeat (apply Forall_cons; [unfold ctrl_P, C; lia|]). apply Forall_nil.
  - destruct (consoleintr_loop_wf [97; ctrl_P] console0 false)
      as (st' & d & E & _);
      [repeat constructor; discriminate|exact echo_ok_console0
      |exact input_wf_input0|].
    exists st'. rewrite (H2 [97; ctrl_P] st' d) in E;
      [exact E| |exact E].
    repeat (apply Forall_cons; [unfold ctrl_P, C; lia|]). apply Forall_nil.
Defined.

(** ** The reader: what it returns *)

Lemma consoleread_loop_count killed target n : forall dst i,
  target = Z.of_nat (length dst + n) -> target < 2 ^ 31 ->
  match consoleread_loop killed target n dst i with
  | Returns ret dst' i' =>
      (ret = -1 /\ killed = true /\ Input.r i' = Input.w i')
      \/ (ret = Z.of_nat (length dst')
          /\ (length dst' <= length dst + n)%nat)
  | Sleeps t k dst' i' =>
      killed = false /\ t = target /\ Input.r i' = Input.w i'
      /\ (1 <= k)%nat /\ (length dst' + k = length dst + n)%nat
  end.
Proof.
  induction n as [|n IH]; intros dst i Ht Hlt; cbn [consoleread_loop].
  - right. rewrite Z.sub_0_r, s32_small by lia. split; lia.
  - destruct (Z.eqb_spec (Input.r i) (Input.w i)).
    { destruct killed; [left; auto|]. repeat split; try assumption; lia. }
    destruct (_ =? ctrl_D).
    { right. rewrite s32_small by lia. split; lia. }
    destruct (_ =? 10).
    { right. rewrite s32_small by lia. rewrite length_app. cbn [length].
      split; lia. }
    match goal with |- context [consoleread_loop _ _ _ ?d ?j] =>
      specialize (IH d j) end.
    rewrite length_app in IH. cbn [length] in IH.
    specialize (IH ltac:(lia) Hlt).
    destruct (consoleread_loop _ _ _ _ _).
    + destruct IH as [IH | [IH1 IH2]]; [left; exact IH|right]. split; lia.
    + destruct IH as (? & ? & ? & ? & ?). repeat split; try assumption; lia.
Qed.

(** X23. What [consoleread] gives back for a count [n]: a call that
    returns has returned the number of chars it copied, which is at most
    [n] (0 for [n <= 0]), or it has returned -1, which only happens to a
    killed process that found nothing released, whatever it had copied
    before; a call that sleeps belongs to a process that is not killed, has
    found [r == w] and still has chars to read. *)
Theorem consoleread_count (killed : bool) (i : Input.t) (n : Z) :
  - 2 ^ 31 <= n < 2 ^ 31 ->
  match consoleread killed i n with
  | Returns ret dst i' =>
      (ret = -1 /\ killed = true /\ Input.r i' = Input.w i')
      \/ (ret = Z.of_nat (length dst) /\ 0 <= ret <= Z.max 0 n)
  | Sleeps _ k dst i' =>
      killed = false /\ Input.r i' = Input.w i'
      /\ (1 <= k)%nat /\ Z.of_nat (length dst + k) = n
  end.
Proof.
  intros Hn. unfold consoleread. destruct (Z.gtb_spec n 0) as [Hpos|Hpos].
  - pose proof (consoleread_loop_count killed (u32 n) (Z.to_nat n) [] i) as Hc.
    rewrite u32_small in * by lia. cbn [length] in Hc.
    specialize (Hc ltac:(lia) ltac:(lia)).
    destruct (consoleread_loop _ _ _ _ _).
    + destruct Hc as [Hc | [H1 H2]]; [left; exact Hc|right]. lia.
    + destruct Hc as (? & ? & ? & ? & ?). repeat split; try assumption; lia.
  - right. cbn [length].
    assert (E : s32 (u32 n - n) = 0).
    { unfold s32, u32. rewrite Zminus_mod_idemp_l, Z.sub_diag. reflexivity. }
    rewrite E. lia.
Qed.

(** A killed process that reads an empty buffer gets -1. *)
Lemma consoleread_count_witness :
  match consoleread true input0 5 with
  | Returns ret dst i' =>
      (ret = -1 /\ true = true /\ Input.r i' = Input.w i')
      \/ (ret = Z.of_nat (length dst) /\ 0 <= ret <= Z.max 0 5)
  | Sleeps _ k dst i' =>
      true = false /\ Input.r i' = Input.w i'
      /\ (1 <= k)%nat /\ Z.of_nat (length dst + k) = 5
  end.
Proof. apply (consoleread_count true input0 5). lia. Defined.

Lemma consoleread_loop_data killed target n : forall dst i,
  target = Z.of_nat (length dst + n) ->
  0 <= Input.r i <= Input.w i -> Input.w i < 2 ^ 32 ->
  match consoleread_loop killed target n dst i with
  | Returns _ dst' i' | Sleeps _ _ dst' i' =>
      exists k, dst' = dst ++ pending i k
        /\ Input.r i + Z.of_nat k <= Input.w i
        /\ (i' = set_r i (Input.r i + Z.of_nat k)
            \/ (dst' = [] /\ i' = set_r i (Input.r i + 1)
                /\ Input.r i < Input.w i
                /\ load (Input.buf i) (Input.r i mod INPUT_BUF) = ctrl_D))
  end.
Proof.
  assert (Hz : forall dst i, 0 <= Input.r i <= Input.w i ->
            exists k, dst = dst ++ pending i k
              /\ Input.r i + Z.of_nat k <= Input.w i
              /\ (i = set_r i (Input.r i + Z.of_nat k)
                  \/ (dst = [] /\ i = set_r i (Input.r i + 1)
                      /\ Input.r i < Input.w i
                      /\ load (Input.buf i) (Input.r i mod INPUT_BUF) = ctrl_D))).
  { intros dst i Hr. exists 0%nat. cbn [pending seq map].
    rewrite app_nil_r, Z.add_0_r, set_r_same. split; [reflexivity|].
    split; [lia|left; reflexivity]. }
  induction n as [|n IH]; intros dst i Ht Hr Hw; cbn [consoleread_loop].
  - now apply Hz.
  - destruct (Z.eqb_spec (Input.r i) (Input.w i)).
    { destruct killed; now apply Hz. }
    rewrite (u32_small (Input.r i + 1)) by lia.
    destruct (Z.eqb_spec (load (Input.buf i) (Input.r i mod INPUT_BUF)) ctrl_D)
      as [Hd|Hd].
    { cbn [Input.buf Input.r Input.w Input.e Input.max].
      replace (Input.r i + 1 - 1) with (Input.r i) by lia.
      rewrite (u32_small (Input.r i)) by lia.
      destruct (Z.ltb_spec (Z.of_nat (S n)) target).
      - exists 0%nat. cbn [pending seq map].
        rewrite app_nil_r, Z.add_0_r. split; [reflexivity|].
        split; [lia|left]. now destruct i.
      - exists 0%nat. cbn [pending seq map].
        rewrite app_nil_r, Z.add_0_r. split; [reflexivity|].
        split; [lia|right].
        assert (length dst = 0%nat) by lia.
        destruct dst; [|discriminate]. repeat split; try assumption; lia. }
    destruct (_ =? 10) eqn:Hnl.
    { exists 1%nat. rewrite pending_S. cbn [pending seq map].
      split; [reflexivity|]. split; [lia|left]. reflexivity. }
    change (Input.mk (Input.buf i) (Input.r i + 1) (Input.w i) (Input.e i)
                     (Input.max i)) with (set_r i (Input.r i + 1)).
    specialize (IH (dst ++ [load (Input.buf i) (Input.r i mod INPUT_BUF)])
                   (set_r i (Input.r i + 1))).
    rewrite length_app in IH. cbn [length set_r Input.r Input.w] in IH.
    specialize (IH ltac:(lia) ltac:(lia) Hw).
    destruct (consoleread_loop _ _ _ _ _);
      destruct IH as (k & Hdst & Hk & Hi);
      (exists (S k); rewrite pending_S, Hdst, <- app_assoc;
       split; [reflexivity|]; split; [lia|left];
       destruct Hi as [-> | (Hnil & _)];
       [unfold set_r; cbn; f_equal; lia
       |rewrite Hnil in Hdst; symmetry in Hdst;
        apply app_eq_nil in Hdst as [Hdst _];
        apply app_eq_nil in Hdst as [_ Hdst]; discriminate]).
Qed.

Lemma ordinary_prefix_le l : (ordinary_prefix l <= length l)%nat.
Proof.
  induction l as [|c l IH]; cbn [ordinary_prefix length]; [lia|].
  destruct ((c =? ctrl_D) || (c =? 10)); lia.
Qed.

Lemma ordinary_prefix_firstn l :
  Forall (fun c => c <> ctrl_D /\ c <> 10) (firstn (ordinary_prefix l) l).
Proof.
  induction l as [|c l IH]; cbn [ordinary_prefix firstn]; [constructor|].
  destruct (Z.eqb_spec c ctrl_D); [constructor|].
  destruct (Z.eqb_spec c 10); [constructor|].
  cbn [orb firstn]. constructor; [split; assumption|exact IH].
Qed.

Lemma ordinary_prefix_stop l :
  (ordinary_prefix l < length l)%nat ->
  nth (ordinary_prefix l) l 0 = ctrl_D \/ nth (ordinary_prefix l) l 0 = 10.
Proof.
  induction l as [|c l IH]; cbn [ordinary_prefix length]; [lia|].
  destruct (Z.eqb_spec c ctrl_D); [left; assumption|].
  destruct (Z.eqb_spec c 10); [right; assumption|].
  cbn [orb nth]. intros H. apply IH. lia.
Qed.

Lemma pending_firstn i k m :
  (k <= m)%nat -> firstn k (pending i m) = pending i k.
Proof.
  intros H. replace m with (k + (m - k))%nat by lia.
  unfold pending. rewrite seq_app, map_app, firstn_app.
  rewrite length_map, length_seq, Nat.sub_diag. cbn [firstn].
  rewrite app_nil_r. apply firstn_all2.
  rewrite length_map, length_seq. lia.
Qed.

Lemma pending_nth i k m :
  (k < m)%nat ->
  nth k (pending i m) 0
  = load (Input.buf i) ((Input.r i + Z.of_nat k) mod INPUT_BUF).
Proof.
  intros H. replace m with (k + S (m - k - 1))%nat by lia.
  unfold pending. rewrite seq_app, map_app. cbn [seq map].
  rewrite app_nth2 by (rewrite length_map, length_seq; lia).
  rewrite length_map, length_seq, Nat.sub_diag. reflexivity.
Qed.

(** X24. What [consoleread] copies and where it stops. Let [k] count the
    chars from [r] on that come before the first EOF code or newline, among
    the first [n] and the released ones. The call copies these [k] chars,
    in their order. With [k = n] it returns [n]. Otherwise, if the [k]
    chars are all that is released, it sleeps with [r = w] and [n - k]
    chars still to read (a killed process returns -1 instead). Otherwise
    the next char is the EOF code or a newline: at the EOF code the call
    returns [k] and leaves [r] on the code, or behind it when [k = 0]; the
    newline is copied as well and the call returns [k + 1] with [r] behind
    it. Nothing of [input] but [r] changes, and the indices stay in
    order. *)
Theorem consoleread_data (killed : bool) (i : Input.t) (n : Z) :
  0 < n < 2 ^ 31 -> input_wf i ->
  let avail := Input.w i - Input.r i in
  let k := ordinary_prefix (pending i (Z.to_nat (Z.min n avail))) in
  let c := load (Input.buf i) ((Input.r i + Z.of_nat k) mod INPUT_BUF) in
  Z.of_nat k <= Z.min n avail
  /\ Forall (fun ch => ch <> ctrl_D /\ ch <> 10) (pending i k)
  /\ (Z.of_nat k < Z.min n avail -> c = ctrl_D \/ c = 10)
  /\ consoleread killed i n
     = (if Z.of_nat k =? n then
          Returns n (pending i k) (set_r i (Input.r i + n))
        else if Z.of_nat k =? avail then
          if killed then Returns (-1) (pending i k) (set_r i (Input.w i))
          else Sleeps n (Z.to_nat n - k) (pending i k) (set_r i (Input.w i))
        else if c =? ctrl_D then
          Returns (Z.of_nat k) (pending i k)
                  (set_r i (if Z.of_nat k =? 0 then Input.r i + 1
                            else Input.r i + Z.of_nat k))
        else
          Returns (Z.of_nat k + 1) (pending i (S k))
                  (set_r i (Input.r i + Z.of_nat k + 1)))
  /\ match consoleread killed i n with
     | Returns _ dst i' | Sleeps _ _ dst i' =>
         dst = pending i (length dst)
         /\ Input.r i + Z.of_nat (length dst) <= Input.w i
         /\ (i' = set_r i (Input.r i + Z.of_nat (length dst))
             \/ (dst = [] /\ i' = set_r i (Input.r i + 1)
                 /\ Input.r i < Input.w i
                 /\ load (Input.buf i) (Input.r i mod INPUT_BUF) = ctrl_D))
         /\ input_wf i'
     end.
Proof.
  intros Hn Hwf avail k c.
  pose proof Hwf as (_ & H0 & Hrw & Hwe & Hem & Hmax). unfold INPUT_BUF in *.
  set (m := Z.to_nat (Z.min n avail)) in *.
  assert (Hm : Z.of_nat m = Z.min n avail) by (subst m avail; lia).
  assert (Hp : forall j, length (pending i j) = j)
    by (intros j; unfold pending; now rewrite length_map, length_seq).
  assert (Hkm : (k <= m)%nat).
  { subst k. rewrite <- (Hp m) at 2. apply ordinary_prefix_le. }
  assert (Hord : Forall (fun ch => ch <> ctrl_D /\ ch <> 10) (pending i k)).
  { rewrite <- (pending_firstn i k m Hkm). apply ordinary_prefix_firstn. }
  assert (Hstop : Z.of_nat k < Z.min n avail -> c = ctrl_D \/ c = 10).
  { intros Hlt. pose proof (pending_nth i k m ltac:(lia)) as Hnth.
    unfold INPUT_BUF in Hnth. subst c. rewrite <- Hnth.
    apply ordinary_prefix_stop. rewrite Hp. lia. }
  split; [lia|]. split; [exact Hord|]. split; [exact Hstop|].
  split.
  - unfold consoleread. destruct (Z.gtb_spec n 0) as [_|]; [|lia].
    rewrite (u32_small n) by lia.
    replace (Z.to_nat n) with (k + (Z.to_nat n - k))%nat at 1 by lia.
    rewrite consoleread_loop_chars by (try assumption; lia). cbn [app].
    destruct (Z.eqb_spec (Z.of_nat k) n) as [Ekn|Ekn].
    { replace (Z.to_nat n - k)%nat with 0%nat by lia.
      cbn [consoleread_loop]. rewrite Z.sub_0_r, s32_small by lia.
      now rewrite Ekn. }
    destruct (Z.to_nat n - k)%nat as [|q] eqn:Eq; [lia|].
    cbn [consoleread_loop set_r Input.buf Input.r Input.w Input.e Input.max].
    destruct (Z.eqb_spec (Input.r i + Z.of_nat k) (Input.w i)) as [Ekw|Ekw].
    { destruct (Z.eqb_spec (Z.of_nat k) avail); [|subst avail; lia].
      rewrite Ekw. reflexivity. }
    destruct (Z.eqb_spec (Z.of_nat k) avail); [subst avail; lia|].
    unfold INPUT_BUF. fold c.
    rewrite (u32_small (Input.r i + Z.of_nat k + 1)) by lia.
    destruct (Z.eqb_spec c ctrl_D) as [Ec|Ec].
    + replace (n - Z.of_nat (S q)) with (Z.of_nat k) by lia.
      rewrite s32_small by lia.
      replace (Input.r i + Z.of_nat k + 1 - 1) with (Input.r i + Z.of_nat k)
        by lia.
      rewrite (u32_small (Input.r i + Z.of_nat k)) by lia.
      destruct (Z.ltb_spec (Z.of_nat (S q)) n);
        destruct (Z.eqb_spec (Z.of_nat k) 0); try lia; try reflexivity.
      unfold set_r. do 2 f_equal. lia.
    + destruct (Hstop ltac:(subst avail; lia)) as [|E10]; [contradiction|].
      rewrite E10. change (10 =? 10) with true. cbv iota.
      replace (n - Z.of_nat q) with (Z.of_nat k + 1) by lia.
      rewrite s32_small by lia. rewrite pending_snoc.
      unfold INPUT_BUF. fold c. rewrite E10. reflexivity.
  - pose proof (consoleread_wf killed i n Hwf) as Hwf'.
    unfold consoleread in *. destruct (Z.gtb_spec n 0) as [Hpos|Hpos]; [|lia].
    pose proof (consoleread_loop_data killed (u32 n) (Z.to_nat n) [] i) as Hd.
    rewrite u32_small in * by lia. cbn [length app] in Hd.
    specialize (Hd ltac:(lia) ltac:(lia) ltac:(lia)).
    destruct (consoleread_loop _ _ _ _ _);
      destruct Hd as (k' & -> & Hk & Hi); rewrite Hp;
      (split; [reflexivity|]); (split; [exact Hk|]);
      (split; [exact Hi|apply Hwf']).
Qed.

(** ["hi"] and a newline were released: a call for 2 chars returns them and
    leaves the newline, which the next call, of 10, returns alone; a third
    call then sleeps. *)
Lemma consoleread_data_witness :
  consoleread false hi_nl 2 = Returns 2 [104; 105] (set_r hi_nl 2)
  /\ consoleread false (set_r hi_nl 2) 10 = Returns 1 [10] (set_r hi_nl 3)
  /\ consoleread false (set_r hi_nl 3) 10 = Sleeps 10 10 [] (set_r hi_nl 3).
Proof.
  assert (W : forall r, 0 <= r <= 3 -> input_wf (set_r hi_nl r)).
  { intros r Hr. unfold input_wf, INPUT_BUF. cbn. lia. }
  split; [|split].
  - apply (consoleread_data false hi_nl 2); [lia|].
    unfold input_wf, INPUT_BUF. cbn. lia.
  - apply (consoleread_data false (set_r hi_nl 2) 10); [lia|]. apply W. lia.
  - apply (consoleread_data false (set_r hi_nl 3) 10); [lia|]. apply W. lia.
Defined.

(** ** The text of a format, part by part *)

Section CprintfText.
Variable args : nat -> Z.
Variable str_at : Z -> list Z.

(** X25. The text of a format is the text of its first turns followed by
    the text of the rest, read with the arguments that those turns have
    used up skipped: one argument for each [%d], [%x], [%p] and [%s], none
    for [%%], for an unknown directive and for plain bytes. A NUL byte
    behind whole turns ends the text, whatever follows it. *)
Theorem cprintf_text_app (pre : list Z) (k : nat) (rest : list Z)
    (argp : nat) :
  items pre k ->
  cprintf_text args str_at (pre ++ rest) argp
  = cprintf_text args str_at pre argp
    ++ cprintf_text args str_at rest (argp + k)
  /\ (forall ch, Z.land ch 0xff = 0 ->
      cprintf_text args str_at (pre ++ ch :: rest) argp
      = cprintf_text args str_at pre argp).
Proof.
  intros Hpre.
  assert (Happ : forall rest argp,
            cprintf_text args str_at (pre ++ rest) argp
            = cprintf_text args str_at pre argp
              ++ cprintf_text args str_at rest (argp + k)).
  { clear rest argp.
    induction Hpre as [|ch pre k [H0 H37] _ IH|ch pre k Ha _ IH
                       |ch pre k Hp _ IH|ch pre k Hu _ IH];
      intros rest argp.
    - cbn [app cprintf_text]. now rewrite Nat.add_0_r.
    - cbn [app cprintf_text]. apply Z.eqb_neq in H0, H37.
      rewrite H0, H37. cbn [negb app]. now rewrite IH.
    - cbn [app cprintf_text]. change (Z.land 37 255 =? 0) with false.
      change (Z.land 37 255 =? 37) with true. cbn [negb].
      replace (argp + S k)%nat with (S argp + k)%nat by lia.
      destruct Ha as [E | [E | [E | E]]]; rewrite E; known_codes;
        rewrite IH, app_assoc; reflexivity.
    - cbn [app cprintf_text]. change (Z.land 37 255 =? 0) with false.
      change (Z.land 37 255 =? 37) with true. cbn [negb].
      rewrite Hp. known_codes. cbn [app]. now rewrite IH.
    - cbn [app cprintf_text]. change (Z.land 37 255 =? 0) with false.
      change (Z.land 37 255 =? 37) with true. cbn [negb].
      destruct Hu as (H0 & Hd & Hx & Hp & Hs & H37).
      apply Z.eqb_neq in H0, Hd, Hx, Hp, Hs, H37.
      rewrite H0, Hd, Hx, Hp, Hs, H37. cbn [orb app]. now rewrite IH. }
  split; [apply Happ|].
  intros ch Hch. rewrite Happ. cbn [cprintf_text]. rewrite Hch.
  cbn. apply app_nil_r.
Qed.

End CprintfText.

(** ["%d-%d"] with the arguments 1 and 2: the text of ["%d-"] with the
    first argument, then that of ["%d"] with the second. *)
Lemma cprintf_text_app_witness :
  cprintf_text (args_of [1; 2] (fun _ => 0)) (fun _ => [])
               (chars "%d-" ++ chars "%d") 0
  = chars "1-" ++ chars "2".
Proof.
  assert (Hp : items (chars "%d-") 1).
  { apply (items_arg 100 [45] 0); [left; reflexivity|].
    apply items_plain; [split; discriminate|apply items_nil]. }
  rewrite (proj1 (cprintf_text_app (args_of [1; 2] (fun _ => 0)) (fun _ => [])
                    (chars "%d-") 1 (chars "%d") 0 Hp)).
  reflexivity.
Defined.

(** ** Once panicked *)

(** X26. Once [panicked] is set nothing is printed any more: [consputc]
    does not return, whatever the code, and neither does a call that has to
    print something: [consolewrite] of at least one byte, [cprintf] with a
    text that is not empty, [consoleintr] on a code it would echo. Only a
    [consolewrite] of no bytes returns, with 0. *)
Theorem panicked_halts (st : console) :
  panicked st = true ->
  (forall c, consputc st c = Stop Halt)
  /\ (forall b buf, consolewrite st (b :: buf) = Stop Halt)
  /\ consolewrite st [] = Done (st, 0)
  /\ (forall args str_at fmt,
        cprintf_text args str_at fmt 0 <> [] ->
        cprintf args str_at st (Some fmt) = Stop Halt)
  /\ (forall c, c = UP \/ c = DOWN -> consoleintr_case st c = Stop Halt).
Proof.
  intros Hp.
  assert (Hc : forall c, consputc st c = Stop Halt)
    by (intros c; unfold consputc; now rewrite Hp).
  split; [exact Hc|]. split; [|split; [reflexivity|split]].
  - intros b buf. unfold consolewrite. cbn [map consputs]. now rewrite Hc.
  - intros args str_at fmt Ht. unfold cprintf. rewrite cprintf_is_consputs.
    destruct (cprintf_text args str_at fmt 0) as [|c cs]; [contradiction|].
    cbn [consputs]. now rewrite Hc.
  - intros c [-> | ->]; unfold consoleintr_case; known_codes; apply Hc.
Qed.

(** The state in which [panic] leaves the boot console. *)
Lemma panicked_halts_witness :
  consolewrite (mkConsole true [] 0 0 (repeat 0 2000) input0) [97]
  = Stop Halt.
Proof.
  apply (proj1 (proj2 (panicked_halts
                         (mkConsole true [] 0 0 (repeat 0 2000) input0)
                         eq_refl))).
Defined.
